(** * Lattera: the client push layer and the REST message routes

    A shallow embedding of
      - client/src/utils/socket.ts            (SocketManager, getSocketUrl),
      - client/src/services/socketService.ts  (SocketService),
      - client/src/pages/MainChat.tsx         (message list, history pages,
                                               presence, chat list and
                                               typing state),
      - client/src/components/ChatList.tsx    (the MessageComposer
                                               component),
      - the server's message routes           (GET / POST / PATCH / DELETE
                                               of /api/messages),
    followed by the properties of the specification that concern them,
    and by further properties of the same code.

    Conventions.  JavaScript strings are [string], held as the UTF-8
    bytes of their text; [null] and [undefined]
    are [None]; a millisecond clock value is a [Z].  Objects that the
    source mutates in place are fields of an explicit state record that is
    threaded through every operation, and every call that leaves the
    process (opening a socket, emitting, arming a timer, broadcasting) is
    recorded in an effect log, so that "nothing was sent" is a statement
    about that log. *)

From Stdlib Require Import ZArith List Bool Lia.
From Stdlib Require Import Strings.String Strings.Ascii Sorting.Sorted.
From Stdlib Require Import Sorting.Permutation.
From stdpp Require Import gmap strings list fin_maps pretty.

Import ListNotations.
Local Open Scope string_scope.
Local Open Scope list_scope.
Local Open Scope Z_scope.

(* ===================================================================== *)
(** * Part I.  Definitions                                                *)
(* ===================================================================== *)

(** ** Shared API types (client/src/types/api, as used by the sources) *)

Inductive MediaKind := image | audio | video.

Record Media := {
  media_type : MediaKind;
  media_url : string;
  media_metadata : option string
}.

Record Sender := {
  sender_id : string;
  firstName : string;
  lastName : string
}.

(** [MessageResponse]: the [sender] field is optional. *)
Record MessageResponse := {
  id : string;
  chatId : string;
  senderId : string;
  sender : option Sender;
  content : string;
  media : option Media;
  editedAt : option string;
  deletedFor : list string;
  timestamp : string
}.

(** [MessageWithSenderResponse]: as above, with a mandatory [sender]. *)
Record MessageWithSenderResponse := {
  w_id : string;
  w_chatId : string;
  w_senderId : string;
  w_sender : Sender;
  w_content : string;
  w_media : option Media;
  w_editedAt : option string;
  w_deletedFor : list string;
  w_timestamp : string
}.

(** The current user, as far as the chat page reads it. *)
Record User := {
  user_id : string;
  user_firstName : string;
  user_lastName : string
}.

(** ** Wire events (socketService.ts, lines 4-48) *)

Record NewMessageData := {
  nm_messageId : string;
  nm_chatId : string;
  nm_senderId : string;
  nm_content : string;
  nm_timestamp : string;
  nm_media : option Media
}.

Record EditedMessageData := {
  ed_messageId : string;
  ed_chatId : string;
  ed_content : string;
  ed_editedAt : string
}.

Record DeletedMessageData := {
  dl_messageId : string;
  dl_chatId : string
}.

Inductive PresenceStatus := online | offline.

Record SocketUserStatus := {
  us_userId : string;
  us_status : PresenceStatus;
  us_timestamp : string
}.

Record SocketTypingEvent := {
  ty_userId : string;
  ty_chatId : string;
  ty_isTyping : bool
}.

(* --------------------------------------------------------------------- *)
(** ** client/src/utils/socket.ts: [SocketManager]                        *)
(* --------------------------------------------------------------------- *)

Module SocketManager.

(** Payload handed to [emit]: the two typing emitters send [{chatId}];
    any other value is kept as its JSON text. *)
Inductive Payload :=
| ChatPayload (chat : string)
| JsonPayload (json : string).

(** What leaves the manager.  [IoOpen] is the call [io(url, options)] (the
    only place a connection is started), [SocketEmit] the only place a
    frame is sent. *)
Inductive Effect :=
| IoOpen (sock : nat) (token : string)
| SocketDisconnect (sock : nat)
| SocketEmit (sock : nat) (event : string) (data : option Payload)
| SetTimeout (delay : Z)
| ConsoleWarn (event : string).

(** The private fields [maxReconnectAttempts] and [reconnectDelay] are
    initialised once and never assigned. *)
Definition maxReconnectAttempts : Z := 5.
Definition reconnectDelay : Z := 1000.

(** The manager's fields together with the part of the runtime they refer
    to: the [connected] property of each Socket object created by [io],
    the stored access token, the reconnect timers armed with [setTimeout]
    and not yet run, and the effect log. *)
Record World := {
  socket : option nat;
  reconnectAttempts : Z;
  isIntentionalDisconnect : bool;
  connected : gmap nat bool;
  nextSocket : nat;
  accessToken : option string;
  pendingReconnects : nat;
  effects : list Effect
}.

(** [new SocketManager()] in a runtime holding [tok]. *)
Definition fresh (tok : option string) : World :=
  {| socket := None; reconnectAttempts := 0; isIntentionalDisconnect := false;
     connected := ∅; nextSocket := 1%nat; accessToken := tok;
     pendingReconnects := 0%nat; effects := [] |}.

Definition log (e : Effect) (w : World) : World :=
  {| socket := socket w; reconnectAttempts := reconnectAttempts w;
     isIntentionalDisconnect := isIntentionalDisconnect w;
     connected := connected w; nextSocket := nextSocket w;
     accessToken := accessToken w; pendingReconnects := pendingReconnects w;
     effects := effects w ++ [e] |}.

Definition set_socket (s : option nat) (w : World) : World :=
  {| socket := s; reconnectAttempts := reconnectAttempts w;
     isIntentionalDisconnect := isIntentionalDisconnect w;
     connected := connected w; nextSocket := nextSocket w;
     accessToken := accessToken w; pendingReconnects := pendingReconnects w;
     effects := effects w |}.

Definition set_attempts (n : Z) (w : World) : World :=
  {| socket := socket w; reconnectAttempts := n;
     isIntentionalDisconnect := isIntentionalDisconnect w;
     connected := connected w; nextSocket := nextSocket w;
     accessToken := accessToken w; pendingReconnects := pendingReconnects w;
     effects := effects w |}.

Definition set_intentional (b : bool) (w : World) : World :=
  {| socket := socket w; reconnectAttempts := reconnectAttempts w;
     isIntentionalDisconnect := b;
     connected := connected w; nextSocket := nextSocket w;
     accessToken := accessToken w; pendingReconnects := pendingReconnects w;
     effects := effects w |}.

Definition set_connected (s : nat) (b : bool) (w : World) : World :=
  {| socket := socket w; reconnectAttempts := reconnectAttempts w;
     isIntentionalDisconnect := isIntentionalDisconnect w;
     connected := <[s := b]> (connected w); nextSocket := nextSocket w;
     accessToken := accessToken w; pendingReconnects := pendingReconnects w;
     effects := effects w |}.

Definition set_pending (n : nat) (w : World) : World :=
  {| socket := socket w; reconnectAttempts := reconnectAttempts w;
     isIntentionalDisconnect := isIntentionalDisconnect w;
     connected := connected w; nextSocket := nextSocket w;
     accessToken := accessToken w; pendingReconnects := n;
     effects := effects w |}.

(** [io(...)]: a new Socket object, not yet connected. *)
Definition io (tok : string) (w : World) : nat * World :=
  let s := nextSocket w in
  (s, log (IoOpen s tok)
        {| socket := socket w; reconnectAttempts := reconnectAttempts w;
           isIntentionalDisconnect := isIntentionalDisconnect w;
           connected := <[s := false]> (connected w); nextSocket := S s;
           accessToken := accessToken w;
           pendingReconnects := pendingReconnects w; effects := effects w |}).

(** [this.socket?.connected] *)
Definition socket_connected (w : World) : bool :=
  match socket w with
  | Some s => default false (connected w !! s)
  | None => false
  end.

(** Truthiness of [tokenStorage.getAccessToken()]: [null] and the empty
    string are falsy. *)
Definition truthy_token (t : option string) : option string :=
  match t with
  | Some s => if String.eqb s "" then None else Some s
  | None => None
  end.

Inductive Result (A : Type) :=
| Ok (a : A)
| Throw (msg : string).
Arguments Ok {A} a.
Arguments Throw {A} msg.

(** [connect()], lines 24-54.  [setupEventHandlers] registers the handlers
    below on the new socket; they read and write the manager through
    [this], so they are functions of the world. *)
Definition connect (w : World) : Result nat * World :=
  match socket w, socket_connected w with
  | Some s, true => (Ok s, w)
  | _, _ =>
      match truthy_token (accessToken w) with
      | None => (Throw "No authentication token available", w)
      | Some tok =>
          let w1 := set_intentional false w in
          let '(s, w2) := io tok w1 in
          (Ok s, set_socket (Some s) w2)
      end
  end.

(** The ['disconnect'] handler, lines 64-72. *)
Definition on_disconnect (reason : string) (w : World) : World :=
  if String.eqb reason "io server disconnect"
     && negb (isIntentionalDisconnect w)
  then set_pending (S (pendingReconnects w)) (log (SetTimeout reconnectDelay) w)
  else w.

(** [socket.disconnect()] of the library: the socket stops (and stops
    retrying); if it was connected, ['disconnect'] is emitted at once with
    the reason ["io client disconnect"]. *)
Definition socket_disconnect (s : nat) (w : World) : World :=
  let was := default false (connected w !! s) in
  let w1 := set_connected s false (log (SocketDisconnect s) w) in
  if was then on_disconnect "io client disconnect" w1 else w1.

(** [disconnect()], lines 106-112. *)
Definition disconnect (w : World) : World :=
  match socket w with
  | Some s =>
      let w1 := set_intentional true w in
      let w2 := socket_disconnect s w1 in
      set_socket None w2
  | None => w
  end.

(** The ['connect'] and ['reconnect'] handlers, lines 59-62 and 88-91. *)
Definition on_connect (w : World) : World := set_attempts 0 w.
Definition on_reconnect (w : World) : World := set_attempts 0 w.

(** The ['connect_error'] handler, lines 74-82. *)
Definition on_connect_error (w : World) : World :=
  let w1 := set_attempts (reconnectAttempts w + 1) w in
  if maxReconnectAttempts <=? reconnectAttempts w1 then disconnect w1 else w1.

(** The callback armed by the ['disconnect'] handler: [this.connect()],
    whose exception, if any, has no catcher. *)
Definition run_reconnect_timer (w : World) : World :=
  match pendingReconnects w with
  | O => w
  | S n => snd (connect (set_pending n w))
  end.

(** [getSocket()], [isConnected()], [emit(event, data)]. *)
Definition getSocket (w : World) : option nat := socket w.
Definition isConnected (w : World) : bool := socket_connected w.

Definition emit (event : string) (data : option Payload) (w : World)
  : World :=
  match socket w, socket_connected w with
  | Some s, true => log (SocketEmit s event data) w
  | _, _ => log (ConsoleWarn event) w
  end.

(** What the library does to a socket before it calls the handlers. *)
Definition deliver_connect (s : nat) (w : World) : World :=
  on_connect (set_connected s true w).
Definition deliver_disconnect (s : nat) (reason : string) (w : World)
  : World :=
  on_disconnect reason (set_connected s false w).
Definition deliver_connect_error (s : nat) (w : World) : World :=
  on_connect_error (set_connected s false w).

(** [n] connection failures in a row, with no successful connection in
    between. *)
Fixpoint failures (n : nat) (w : World) : World :=
  match n with
  | O => w
  | S k => failures k (on_connect_error w)
  end.

(** Effects that start or use a connection. *)
Definition is_network (e : Effect) : bool :=
  match e with
  | IoOpen _ _ | SocketEmit _ _ _ => true
  | _ => false
  end.

(** Everything that can happen to a manager: calls of its public
    methods, the events the library delivers on a socket, the run of an
    armed reconnect timer, and a change of the stored token. *)
Inductive Action :=
| CallConnect
| CallDisconnect
| CallEmit (event : string) (data : option Payload)
| SocketConnected (s : nat)
| SocketClosed (s : nat) (reason : string)
| SocketFailed (s : nat)
| SocketReconnected
| TimerRuns
| TokenStored (tok : option string).

Definition store_token (tok : option string) (w : World) : World :=
  {| socket := socket w; reconnectAttempts := reconnectAttempts w;
     isIntentionalDisconnect := isIntentionalDisconnect w;
     connected := connected w; nextSocket := nextSocket w;
     accessToken := tok; pendingReconnects := pendingReconnects w;
     effects := effects w |}.

Definition act (a : Action) (w : World) : World :=
  match a with
  | CallConnect => snd (connect w)
  | CallDisconnect => disconnect w
  | CallEmit event data => emit event data w
  | SocketConnected s => deliver_connect s w
  | SocketClosed s reason => deliver_disconnect s reason w
  | SocketFailed s => deliver_connect_error s w
  | SocketReconnected => on_reconnect w
  | TimerRuns => run_reconnect_timer w
  | TokenStored tok => store_token tok w
  end.

(** The manager after a history of actions, from [new SocketManager()]. *)
Definition history (tok : option string) (l : list Action) : World :=
  fold_left (fun w a => act a w) l (fresh tok).

(** When the manager holds no socket, either the intentional flag is set
    or no socket was ever opened. *)
Definition flagged_or_unused (w : World) : Prop :=
  socket w = None ->
  isIntentionalDisconnect w = true \/ nextSocket w = 1%nat.

End SocketManager.

(* --------------------------------------------------------------------- *)
(** ** client/src/services/socketService.ts: [SocketService]              *)
(* --------------------------------------------------------------------- *)

Module SocketService.

(** A JavaScript [Set] of callbacks: callbacks are compared by identity
    (here a number), iteration follows insertion order. *)
Definition HandlerSet := list nat.

Definition set_add (h : nat) (s : HandlerSet) : HandlerSet :=
  if existsb (Nat.eqb h) s then s else s ++ [h].

Definition set_delete (h : nat) (s : HandlerSet) : HandlerSet :=
  List.filter (fun x => negb (Nat.eqb h x)) s.

Record State := {
  manager : SocketManager.World;
  messageHandlers : HandlerSet;
  userStatusHandlers : HandlerSet;
  typingHandlers : HandlerSet;
  messageEditedHandlers : HandlerSet;
  messageDeletedHandlers : HandlerSet;
  (** how many times [initialize] has attached its six listeners to each
      socket *)
  listeners : gmap nat nat
}.

Definition fresh (tok : option string) : State :=
  {| manager := SocketManager.fresh tok;
     messageHandlers := []; userStatusHandlers := []; typingHandlers := [];
     messageEditedHandlers := []; messageDeletedHandlers := [];
     listeners := ∅ |}.

Definition with_manager (m : SocketManager.World) (st : State) : State :=
  {| manager := m;
     messageHandlers := messageHandlers st;
     userStatusHandlers := userStatusHandlers st;
     typingHandlers := typingHandlers st;
     messageEditedHandlers := messageEditedHandlers st;
     messageDeletedHandlers := messageDeletedHandlers st;
     listeners := listeners st |}.

Inductive WireEvent :=
| MessageNew (d : NewMessageData)
| MessageEdited (d : EditedMessageData)
| MessageDeleted (d : DeletedMessageData)
| UserOnline (d : SocketUserStatus)
| UserOffline (d : SocketUserStatus)
| UserTyping (d : SocketTypingEvent).

(** A call of a registered callback and the argument it receives. *)
Inductive Invocation :=
| CallMessage (h : nat) (m : MessageResponse)
| CallEdited (h : nat) (d : EditedMessageData)
| CallDeleted (h : nat) (d : DeletedMessageData)
| CallUserStatus (h : nat) (s : SocketUserStatus)
| CallTyping (h : nat) (d : SocketTypingEvent).

(** The object built in the ['message:new'] listener, lines 67-76. *)
Definition to_message (d : NewMessageData) : MessageResponse :=
  {| id := nm_messageId d;
     chatId := nm_chatId d;
     senderId := nm_senderId d;
     sender := None;
     content := nm_content d;
     media := match nm_media d with Some m => Some m | None => None end;
     editedAt := None;
     deletedFor := [];
     timestamp := nm_timestamp d |}.

Definition with_status (st : PresenceStatus) (d : SocketUserStatus)
  : SocketUserStatus :=
  {| us_userId := us_userId d; us_status := st;
     us_timestamp := us_timestamp d |}.

(** One run of the listener registered for the event, lines 66-103. *)
Definition dispatch (ev : WireEvent) (st : State) : list Invocation :=
  match ev with
  | MessageNew d =>
      let message := to_message d in
      map (fun h => CallMessage h message) (messageHandlers st)
  | MessageEdited d => map (fun h => CallEdited h d) (messageEditedHandlers st)
  | MessageDeleted d =>
      map (fun h => CallDeleted h d) (messageDeletedHandlers st)
  | UserOnline d =>
      map (fun h => CallUserStatus h (with_status online d))
          (userStatusHandlers st)
  | UserOffline d =>
      map (fun h => CallUserStatus h (with_status offline d))
          (userStatusHandlers st)
  | UserTyping d => map (fun h => CallTyping h d) (typingHandlers st)
  end.

(** An event arriving on socket [s]: a socket that is not connected
    receives nothing; otherwise every listener set attached to [s] runs. *)
Definition receive (s : nat) (ev : WireEvent) (st : State)
  : list Invocation :=
  if default false (SocketManager.connected (manager st) !! s)
  then concat (repeat (dispatch ev st) (default 0%nat (listeners st !! s)))
  else [].

(** [initialize()], lines 63-104. *)
Definition initialize (st : State) : SocketManager.Result unit * State :=
  match SocketManager.connect (manager st) with
  | (SocketManager.Throw msg, m) => (SocketManager.Throw msg, with_manager m st)
  | (SocketManager.Ok s, m) =>
      (SocketManager.Ok tt,
       {| manager := m;
          messageHandlers := messageHandlers st;
          userStatusHandlers := userStatusHandlers st;
          typingHandlers := typingHandlers st;
          messageEditedHandlers := messageEditedHandlers st;
          messageDeletedHandlers := messageDeletedHandlers st;
          listeners :=
            <[s := S (default 0%nat (listeners st !! s))]> (listeners st) |})
  end.

(** [disconnect()], lines 106-113. *)
Definition disconnect (st : State) : State :=
  {| manager := SocketManager.disconnect (manager st);
     messageHandlers := []; userStatusHandlers := []; typingHandlers := [];
     messageEditedHandlers := []; messageDeletedHandlers := [];
     listeners := listeners st |}.

(** [onNewMessage(handler)] and its unsubscribe closure; the four other
    [on*] methods are the same on their own set. *)
Definition onNewMessage (h : nat) (st : State) : State :=
  {| manager := manager st;
     messageHandlers := set_add h (messageHandlers st);
     userStatusHandlers := userStatusHandlers st;
     typingHandlers := typingHandlers st;
     messageEditedHandlers := messageEditedHandlers st;
     messageDeletedHandlers := messageDeletedHandlers st;
     listeners := listeners st |}.

Definition offNewMessage (h : nat) (st : State) : State :=
  {| manager := manager st;
     messageHandlers := set_delete h (messageHandlers st);
     userStatusHandlers := userStatusHandlers st;
     typingHandlers := typingHandlers st;
     messageEditedHandlers := messageEditedHandlers st;
     messageDeletedHandlers := messageDeletedHandlers st;
     listeners := listeners st |}.

Definition onMessageEdited (h : nat) (st : State) : State :=
  {| manager := manager st;
     messageHandlers := messageHandlers st;
     userStatusHandlers := userStatusHandlers st;
     typingHandlers := typingHandlers st;
     messageEditedHandlers := set_add h (messageEditedHandlers st);
     messageDeletedHandlers := messageDeletedHandlers st;
     listeners := listeners st |}.

Definition onMessageDeleted (h : nat) (st : State) : State :=
  {| manager := manager st;
     messageHandlers := messageHandlers st;
     userStatusHandlers := userStatusHandlers st;
     typingHandlers := typingHandlers st;
     messageEditedHandlers := messageEditedHandlers st;
     messageDeletedHandlers := set_add h (messageDeletedHandlers st);
     listeners := listeners st |}.

Definition onUserStatus (h : nat) (st : State) : State :=
  {| manager := manager st;
     messageHandlers := messageHandlers st;
     userStatusHandlers := set_add h (userStatusHandlers st);
     typingHandlers := typingHandlers st;
     messageEditedHandlers := messageEditedHandlers st;
     messageDeletedHandlers := messageDeletedHandlers st;
     listeners := listeners st |}.

Definition onTyping (h : nat) (st : State) : State :=
  {| manager := manager st;
     messageHandlers := messageHandlers st;
     userStatusHandlers := userStatusHandlers st;
     typingHandlers := set_add h (typingHandlers st);
     messageEditedHandlers := messageEditedHandlers st;
     messageDeletedHandlers := messageDeletedHandlers st;
     listeners := listeners st |}.

(** [emitTyping(chatId)], [emitStopTyping(chatId)], lines 140-146. *)
Definition emitTyping (chat : string) (st : State) : State :=
  with_manager
    (SocketManager.emit "user:typing"
       (Some (SocketManager.ChatPayload chat)) (manager st)) st.

Definition emitStopTyping (chat : string) (st : State) : State :=
  with_manager
    (SocketManager.emit "user:stop-typing"
       (Some (SocketManager.ChatPayload chat)) (manager st)) st.

Definition isConnected (st : State) : bool :=
  SocketManager.isConnected (manager st).

(** What a subscriber of ['message:new'] is handed for the wire data
    [d]. *)
Definition presented_as_new (d : NewMessageData) (i : Invocation) : Prop :=
  match i with
  | CallMessage _ m =>
      editedAt m = None /\ deletedFor m = [] /\ media m = nm_media d
      /\ id m = nm_messageId d /\ chatId m = nm_chatId d
      /\ senderId m = nm_senderId d /\ content m = nm_content d
      /\ timestamp m = nm_timestamp d
  | _ => False
  end.

End SocketService.

(* --------------------------------------------------------------------- *)
(** ** client/src/pages/MainChat.tsx: the message list                    *)
(* --------------------------------------------------------------------- *)

Module MainChat.

Definition Messages := list MessageWithSenderResponse.

Definition sender_of_user (u : User) : Sender :=
  {| sender_id := user_id u; firstName := user_firstName u;
     lastName := user_lastName u |}.

(** [`temp-${Date.now()}`], line 96. *)
Definition tempId (date_now : Z) : string := "temp-" ++ pretty date_now.

(** The optimistic entry, lines 97-111. *)
Definition tempMessage (selectedChatId : string) (u : User)
    (text : string) (date_now : Z) (iso_now : string)
  : MessageWithSenderResponse :=
  {| w_id := tempId date_now;
     w_chatId := selectedChatId;
     w_senderId := user_id u;
     w_sender := sender_of_user u;
     w_content := text;
     w_media := None;
     w_editedAt := None;
     w_deletedFor := [];
     w_timestamp := iso_now |}.

(** [setMessages (prev => [...prev, tempMessage])], line 113. *)
Definition append_temp (tmp : MessageWithSenderResponse) (prev : Messages)
  : Messages :=
  prev ++ [tmp].

(** [{...response.data, sender: {...}}], lines 146-153. *)
Definition confirmed_entry (data : MessageResponse) (u : User)
  : MessageWithSenderResponse :=
  {| w_id := id data;
     w_chatId := chatId data;
     w_senderId := senderId data;
     w_sender := sender_of_user u;
     w_content := content data;
     w_media := media data;
     w_editedAt := editedAt data;
     w_deletedFor := deletedFor data;
     w_timestamp := timestamp data |}.

(** The updater run when the REST call resolves, lines 143-156. *)
Definition replace_temp (tmp_id : string) (data : MessageResponse)
    (u : User) (prev : Messages) : Messages :=
  map (fun m => if String.eqb (w_id m) tmp_id then confirmed_entry data u
                else m) prev.

(** The updater run when the upload or the REST call fails, lines 132
    and 175. *)
Definition drop_temp (tmp_id : string) (prev : Messages) : Messages :=
  List.filter (fun m => negb (String.eqb (w_id m) tmp_id)) prev.

(** [message.sender || {id: message.senderId, firstName: '', lastName: ''}]
    inside the new-message handler, lines 209-216. *)
Definition messageWithSender (message : MessageResponse)
  : MessageWithSenderResponse :=
  {| w_id := id message;
     w_chatId := chatId message;
     w_senderId := senderId message;
     w_sender := match sender message with
                 | Some s => s
                 | None => {| sender_id := senderId message;
                              firstName := ""; lastName := "" |}
                 end;
     w_content := content message;
     w_media := media message;
     w_editedAt := editedAt message;
     w_deletedFor := deletedFor message;
     w_timestamp := timestamp message |}.

(** The [setMessages] updater of the new-message handler, lines 205-219. *)
Definition onNewMessage (message : MessageResponse) (prev : Messages)
  : Messages :=
  let exists_ := existsb (fun m => String.eqb (w_id m) (id message)) prev in
  if exists_ then prev else prev ++ [messageWithSender message].

(** The updaters of the edited and deleted handlers, lines 293-305. *)
Definition onMessageEdited (d : EditedMessageData) (prev : Messages)
  : Messages :=
  map (fun m =>
         if String.eqb (w_id m) (ed_messageId d)
         then {| w_id := w_id m; w_chatId := w_chatId m;
                 w_senderId := w_senderId m; w_sender := w_sender m;
                 w_content := ed_content d; w_media := w_media m;
                 w_editedAt := Some (ed_editedAt d);
                 w_deletedFor := w_deletedFor m;
                 w_timestamp := w_timestamp m |}
         else m) prev.

Definition onMessageDeleted (d : DeletedMessageData) (prev : Messages)
  : Messages :=
  List.filter (fun m => negb (String.eqb (w_id m) (dl_messageId d))) prev.

(** Number of entries of the list that carry a given id. *)
Definition entries_with (i : string) (l : Messages) : nat :=
  length (List.filter (fun m => String.eqb (w_id m) i) l).

(** What reaches the message list while one send is in flight: the REST
    response, and the ['message:new'] push of the message just created. *)
Inductive Arrival :=
| RestResponse (data : MessageResponse)
| PushedEcho (d : NewMessageData).

(** A send, lines 92-179 with the handler of lines 203-219: the
    optimistic append, then the arrivals in the order they come.  The
    pushed echo goes through [SocketService.to_message]. *)
Definition apply_arrival (tmp_id : string) (u : User) (a : Arrival)
    (prev : Messages) : Messages :=
  match a with
  | RestResponse data => replace_temp tmp_id data u prev
  | PushedEcho d => onNewMessage (SocketService.to_message d) prev
  end.

Definition send_and_settle (selectedChatId : string) (u : User)
    (text : string) (date_now : Z) (iso_now : string)
    (arrivals : list Arrival) (prev : Messages) : Messages :=
  fold_left (fun acc a => apply_arrival (tempId date_now) u a acc) arrivals
    (append_temp (tempMessage selectedChatId u text date_now iso_now) prev).

(** One send, used as a running example: user [u1] sends "hi" and the
    server stores it as [m1]. *)
Definition sample_user : User :=
  {| user_id := "u1"; user_firstName := "Ada"; user_lastName := "L" |}.

Definition sample_data : MessageResponse :=
  {| id := "m1"; chatId := "c1"; senderId := "u1"; sender := None;
     content := "hi"; media := None; editedAt := None; deletedFor := [];
     timestamp := "2023-11-14T22:13:20.100Z" |}.

Definition sample_echo : NewMessageData :=
  {| nm_messageId := "m1"; nm_chatId := "c1"; nm_senderId := "u1";
     nm_content := "hi"; nm_timestamp := "2023-11-14T22:13:20.100Z";
     nm_media := None |}.

End MainChat.

(* --------------------------------------------------------------------- *)
(** ** client/src/pages/MainChat.tsx: the typing set and its timers       *)
(* --------------------------------------------------------------------- *)

Module Typing.

(** A timer of the runtime: armed by [setTimeout], it runs its callback
    once the clock reaches [due] unless [clearTimeout] removes it first.
    The callbacks armed here differ only in the user id they captured. *)
Record Timer := {
  handle : nat;
  due : Z;
  timer_user : string
}.

(** [typingUsers] (React state), [typingTimeoutRef.current] (a [Map] from
    user id to timer handle), and the runtime: the armed timers in arming
    order, the next handle, the clock in milliseconds.  [autoCleared]
    records each run of an expiry callback. *)
Record State := {
  typingUsers : gset string;
  typingTimeoutRef : gmap string nat;
  armed : list Timer;
  nextHandle : nat;
  now : Z;
  autoCleared : list string
}.

Definition initial (t0 : Z) : State :=
  {| typingUsers := ∅; typingTimeoutRef := ∅; armed := [];
     nextHandle := 1%nat; now := t0; autoCleared := [] |}.

(** The client-local expiry, line 275. *)
Definition expiry : Z := 5000.

Definition clearTimeout (h : nat) (s : State) : State :=
  {| typingUsers := typingUsers s; typingTimeoutRef := typingTimeoutRef s;
     armed := List.filter (fun t => negb (Nat.eqb (handle t) h)) (armed s);
     nextHandle := nextHandle s; now := now s;
     autoCleared := autoCleared s |}.

Definition setTimeout (u : string) (delay : Z) (s : State) : nat * State :=
  let h := nextHandle s in
  (h, {| typingUsers := typingUsers s;
         typingTimeoutRef := typingTimeoutRef s;
         armed := armed s ++ [{| handle := h; due := now s + delay;
                                 timer_user := u |}];
         nextHandle := S h; now := now s;
         autoCleared := autoCleared s |}).

Definition set_typing (f : gset string -> gset string) (s : State) : State :=
  {| typingUsers := f (typingUsers s);
     typingTimeoutRef := typingTimeoutRef s; armed := armed s;
     nextHandle := nextHandle s; now := now s;
     autoCleared := autoCleared s |}.

Definition set_ref (f : gmap string nat -> gmap string nat) (s : State)
  : State :=
  {| typingUsers := typingUsers s;
     typingTimeoutRef := f (typingTimeoutRef s); armed := armed s;
     nextHandle := nextHandle s; now := now s;
     autoCleared := autoCleared s |}.

(** The callback armed at lines 268-275. *)
Definition expire (u : string) (s : State) : State :=
  {| typingUsers := typingUsers s ∖ {[u]};
     typingTimeoutRef := delete u (typingTimeoutRef s);
     armed := armed s; nextHandle := nextHandle s; now := now s;
     autoCleared := autoCleared s ++ [u] |}.

(** The typing handler, lines 257-291, for the effect instance whose
    closure holds [selectedChatId]. *)
Definition onTyping (selectedChatId : option string)
    (event : SocketTypingEvent) (s : State) : State :=
  let u := ty_userId event in
  match selectedChatId with
  | None => s
  | Some c =>
      if negb (String.eqb (ty_chatId event) c) then s
      else if ty_isTyping event then
        let s1 := set_typing (fun prev => prev ∪ {[u]}) s in
        let s2 := match typingTimeoutRef s1 !! u with
                  | Some existingTimeout => clearTimeout existingTimeout s1
                  | None => s1
                  end in
        let '(timeout, s3) := setTimeout u expiry s2 in
        set_ref (fun m => <[u := timeout]> m) s3
      else
        let s1 := set_typing (fun prev => prev ∖ {[u]}) s in
        match typingTimeoutRef s1 !! u with
        | Some existingTimeout =>
            set_ref (fun m => delete u m) (clearTimeout existingTimeout s1)
        | None => s1
        end
  end.

(** [d] milliseconds pass ([d < 0] counts as none): every armed timer that
    has come due runs, in arming order (all delays are equal, so this is
    the order of the due times), and leaves the queue.  The callbacks arm
    nothing, so one pass is the whole story. *)
Definition is_due (t : Z) (tm : Timer) : bool := due tm <=? t.

Definition elapse (d : Z) (s : State) : State :=
  let t := now s + Z.max 0 d in
  let s1 := {| typingUsers := typingUsers s;
               typingTimeoutRef := typingTimeoutRef s;
               armed := List.filter (fun tm => negb (is_due t tm)) (armed s);
               nextHandle := nextHandle s; now := t;
               autoCleared := autoCleared s |} in
  fold_left (fun acc tm => expire (timer_user tm) acc)
            (List.filter (is_due t) (armed s)) s1.

(** What happens to one mounted effect: a typing event is delivered, or
    time passes. *)
Inductive Step :=
| Recv (event : SocketTypingEvent)
| Wait (d : Z).

Definition step (sel : option string) (st : Step) (s : State) : State :=
  match st with
  | Recv event => onTyping sel event s
  | Wait d => elapse d s
  end.

Definition run (sel : option string) (steps : list Step) (s : State)
  : State :=
  fold_left (fun acc st => step sel st acc) steps s.

(** The clock value at which the latest [isTyping = true] event of user
    [u] for the open chat was received along [steps], started at clock
    [t]; [acc] is the value found so far. *)
Definition accepts (sel : option string) (u : string)
    (event : SocketTypingEvent) : bool :=
  match sel with
  | Some c => String.eqb (ty_chatId event) c && String.eqb (ty_userId event) u
  | None => false
  end.

Fixpoint last_signal (sel : option string) (u : string) (steps : list Step)
    (t : Z) (acc : option Z) : option Z :=
  match steps with
  | [] => acc
  | Recv event :: rest =>
      last_signal sel u rest t
        (if accepts sel u event
         then (if ty_isTyping event then Some t else None)
         else acc)
  | Wait d :: rest => last_signal sel u rest (t + Z.max 0 d) acc
  end.

(** The timers armed for [u], and how often [u] was auto-cleared. *)
Definition armed_for (u : string) (s : State) : list Timer :=
  List.filter (fun tm => String.eqb (timer_user tm) u) (armed s).

Definition auto_clears (u : string) (s : State) : nat :=
  length (List.filter (String.eqb u) (autoCleared s)).

(** Whether the handler looks at an event at all, the timers left after
    the [clearTimeout] of [u]'s recorded handle, and the timer the handler
    arms next. *)
Definition chat_open (sel : option string) (event : SocketTypingEvent)
  : bool :=
  match sel with
  | Some c => String.eqb (ty_chatId event) c
  | None => false
  end.

Definition after_clear (u : string) (s : State) : list Timer :=
  match typingTimeoutRef s !! u with
  | Some h => List.filter (fun t => negb (Nat.eqb (handle t) h)) (armed s)
  | None => armed s
  end.

Definition new_timer (u : string) (s : State) : Timer :=
  {| handle := nextHandle s; due := now s + expiry; timer_user := u |}.

(** The timers that run when [d] milliseconds pass. *)
Definition due_timers (d : Z) (s : State) : list Timer :=
  List.filter (is_due (now s + Z.max 0 d)) (armed s).

(** What the handler and the clock maintain.  [L] gives, per user, the
    clock value of the latest accepted [isTyping = true] event not
    followed by an accepted stop. *)
Record Inv (L : string -> option Z) (s : State) : Prop := {
  inv_handles : List.NoDup (map handle (armed s));
  inv_armed : forall tm, In tm (armed s) ->
      (handle tm < nextHandle s)%nat /\ now s < due tm
      /\ typingTimeoutRef s !! timer_user tm = Some (handle tm)
      /\ L (timer_user tm) = Some (due tm - expiry);
  inv_ref : forall u h, typingTimeoutRef s !! u = Some h ->
      exists tm, In tm (armed s) /\ handle tm = h /\ timer_user tm = u;
  inv_typing : forall u, u ∈ typingUsers s ->
      exists tm, In tm (armed s) /\ timer_user tm = u
}.

Definition typing_on (u : string) : SocketTypingEvent :=
  {| ty_userId := u; ty_chatId := "c1"; ty_isTyping := true |}.

End Typing.

(* --------------------------------------------------------------------- *)
(** ** The server's message routes: POST, PATCH and DELETE                *)
(* --------------------------------------------------------------------- *)

Module MessagesRoute.

(** A stored message document.  Dates are millisecond clock values. *)
Record Message := {
  _id : string;
  m_chatId : string;
  m_senderId : string;
  m_content : string;
  m_media : option Media;
  m_editedAt : option Z;
  m_deletedFor : list string;
  m_timestamp : Z
}.

Record LastMessage := {
  lm_content : string;
  lm_senderId : string;
  lm_timestamp : Z
}.

Record Chat := {
  c_id : string;
  participants : list string;
  lastMessage : option LastMessage
}.

(** The three errors of [../utils] the handlers throw. *)
Inductive HttpError :=
| BadRequestError (msg : string)
| ForbiddenError (msg : string)
| NotFoundError (msg : string).

(** The arguments of the three broadcast calls, field for field. *)
Record NewMessagePayload := {
  bn_messageId : string;
  bn_chatId : string;
  bn_senderId : string;
  bn_content : string;
  bn_timestamp : string
}.

Record EditedMessagePayload := {
  be_messageId : string;
  be_chatId : string;
  be_content : string;
  be_editedAt : string
}.

Record DeletedMessagePayload := {
  bd_messageId : string;
  bd_chatId : string
}.

Inductive Broadcast :=
| broadcastNewMessage (p : NewMessagePayload)
| broadcastEditedMessage (p : EditedMessagePayload)
| broadcastDeletedMessage (p : DeletedMessagePayload).

(** What a handler does to the outside, in the order it does it: writes
    to the two collections and calls on the socket handler. *)
Inductive Entry :=
| Created (m : Message)
| Saved (m : Message)
| Deleted (i : string)
| ChatUpdated (i : string) (lm : LastMessage)
| Called (b : Broadcast).

(** The two collections (each a list of documents; an ObjectId is
    identified with its hexadecimal string), whether [getSocketHandler()]
    returns a handler, and the journal of writes and calls so far. *)
Record World := {
  messages : list Message;
  chats : list Chat;
  socketHandler : bool;
  journal : list Entry
}.

Definition with_messages (f : list Message -> list Message) (w : World)
  : World :=
  {| messages := f (messages w); chats := chats w;
     socketHandler := socketHandler w; journal := journal w |}.

Definition with_chats (f : list Chat -> list Chat) (w : World) : World :=
  {| messages := messages w; chats := f (chats w);
     socketHandler := socketHandler w; journal := journal w |}.

Definition record (e : Entry) (w : World) : World :=
  {| messages := messages w; chats := chats w;
     socketHandler := socketHandler w; journal := journal w ++ [e] |}.

(** A handler either throws an [HttpError] or returns; the world it
    leaves behind is kept in both cases, as writes made before a [throw]
    are not undone. *)
Definition M (A : Type) : Type := World -> (HttpError + A) * World.

#[export] Instance M_ret : MRet M := fun A a w => (inr a, w).

#[export] Instance M_bind : MBind M := fun A B f m w =>
  match m w with
  | (inl e, w') => (inl e, w')
  | (inr a, w') => f a w'
  end.

Definition throw {A : Type} (e : HttpError) : M A := fun w => (inl e, w).

Definition when_ (b : bool) (e : HttpError) : M unit :=
  if b then throw e else mret tt.

Definition find_message (i : string) (ms : list Message) : option Message :=
  List.find (fun m => String.eqb (_id m) i) ms.

Definition find_chat (i : string) (cs : list Chat) : option Chat :=
  List.find (fun c => String.eqb (c_id c) i) cs.

Definition Message_findById (i : string) : M (option Message) :=
  fun w => (inr (find_message i (messages w)), w).

Definition Chat_findById (i : string) : M (option Chat) :=
  fun w => (inr (find_chat i (chats w)), w).

(** [Message.create(doc)]: a new document. *)
Definition Message_create (m : Message) : M Message :=
  fun w => (inr m, record (Created m) (with_messages (fun ms => ms ++ [m]) w)).

(** [message.save()] on a loaded document: the stored document with that
    [_id] is replaced. *)
Definition Message_save (m : Message) : M unit :=
  fun w =>
    (inr tt,
     record (Saved m)
       (with_messages
          (map (fun x => if String.eqb (_id x) (_id m) then m else x)) w)).

Definition Message_findByIdAndDelete (i : string) : M unit :=
  fun w =>
    (inr tt,
     record (Deleted i)
       (with_messages
          (List.filter (fun x => negb (String.eqb (_id x) i))) w)).

(** [Chat.findByIdAndUpdate(chatId, {lastMessage})] *)
Definition Chat_findByIdAndUpdate (i : string) (lm : LastMessage) : M unit :=
  fun w =>
    (inr tt,
     record (ChatUpdated i lm)
       (with_chats
          (map (fun c => if String.eqb (c_id c) i
                         then {| c_id := c_id c;
                                 participants := participants c;
                                 lastMessage := Some lm |}
                         else c)) w)).

(** [const socketHandler = getSocketHandler(); if (socketHandler) {...}] *)
Definition broadcast (b : Broadcast) : M unit :=
  fun w =>
    if socketHandler w then (inr tt, record (Called b) w) else (inr tt, w).

(** Request bodies, as far as the handlers look into them. *)
Record MediaRequest := {
  rq_type : option string;
  rq_url : option string;
  rq_metadata : option string
}.

Record CreateMessageRequest := {
  rq_chatId : option string;
  rq_content : option string;
  rq_media : option MediaRequest
}.

Inductive Response :=
| MessageSent (data : Message)
| MessageUpdated (i : string) (text : string) (edited : option Z)
| MessageDeletedOk.

Definition parse_kind (s : string) : option MediaKind :=
  if String.eqb s "image" then Some image
  else if String.eqb s "audio" then Some audio
  else if String.eqb s "video" then Some video
  else None.

Definition nonempty (o : option string) : option string :=
  match o with
  | Some s => if String.eqb s "" then None else Some s
  | None => None
  end.

Definition fifteenMinutesInMs : Z := 15 * 60 * 1000.
Definition twentyFourHoursInMs : Z := 24 * 60 * 60 * 1000.

(** The edited document, lines 533-534. *)
Definition edited (m : Message) (text : string) (t_edit : Z) : Message :=
  {| _id := _id m; m_chatId := m_chatId m; m_senderId := m_senderId m;
     m_content := text; m_media := m_media m; m_editedAt := Some t_edit;
     m_deletedFor := m_deletedFor m; m_timestamp := m_timestamp m |}.

(** [forAll === 'true'], line 635. *)
Definition parse_forAll (forAll : option string) : bool :=
  match forAll with
  | Some v => String.eqb v "true"
  | None => false
  end.

(** What a run adds to the journal, and the broadcast calls among it. *)
Definition new_entries (before after : World) : list Entry :=
  drop (length (journal before)) (journal after).

Definition calls_in (l : list Entry) : list Broadcast :=
  flat_map (fun e => match e with Called b => [b] | _ => [] end) l.

Definition new_broadcasts (before after : World) : list Broadcast :=
  calls_in (new_entries before after).

(** The journal entry of a broadcast call: none without a registered
    handler. *)
Definition calls (w : World) (b : Broadcast) : list Entry :=
  if socketHandler w then [Called b] else [].

Section Handlers.

(** Library functions the handlers call: [Types.ObjectId.isValid],
    [String.prototype.trim], [Date.prototype.toISOString]. *)
Variable isValid : string -> bool.
Variable trim : string -> string.
Variable toISOString : Z -> string.

(** [s.length] counts UTF-16 code units.  Text is held here as its
    UTF-8 bytes: the first byte of a character of one to three bytes
    stands for one code unit, the first byte of a character of four bytes
    (a code point above U+FFFF, a surrogate pair in UTF-16) for two, and
    a continuation byte for none. *)
Definition code_units (c : ascii) : Z :=
  let n := nat_of_ascii c in
  if (n <? 128)%nat then 1
  else if (n <? 192)%nat then 0
  else if (n <? 240)%nat then 1
  else 2.

Fixpoint utf16_length (s : string) : Z :=
  match s with
  | EmptyString => 0
  | String c rest => code_units c + utf16_length rest
  end.

Definition strlen (s : string) : Z := utf16_length s.

(** Validation of [media], lines 159-171; the checked value is what
    [Message.create] stores. *)
Definition validate_media (mr : MediaRequest) : M Media :=
  match rq_type mr ≫= parse_kind with
  | None =>
      throw (BadRequestError
               "Invalid media type. Must be image, audio, or video")
  | Some k =>
      match nonempty (rq_url mr) with
      | None => throw (BadRequestError "Media URL is required")
      | Some url =>
          if 1000 <? strlen url
          then throw (BadRequestError
                        "Media URL must not exceed 1000 characters")
          else mret {| media_type := k; media_url := url;
                       media_metadata := rq_metadata mr |}
      end
  end.

(** POST /api/messages, lines 130-238.  [newId] is the identifier
    [Message.create] assigns; [t_create] and [t_last] are the two clock
    readings of lines 194 and 202. *)
Definition post_message (currentUserId : string)
    (req : CreateMessageRequest) (newId : string) (t_create t_last : Z)
  : M Response :=
  match nonempty (rq_chatId req) with
  | None => throw (BadRequestError "chatId is required")
  | Some chat_id =>
      _ ← when_ (negb (isValid chat_id))
            (BadRequestError "Invalid chat ID format");
      let trimmedContent :=
        match rq_content req with Some c => trim c | None => "" end in
      _ ← when_ (String.eqb trimmedContent ""
                 && negb (bool_decide (is_Some (rq_media req))))
            (BadRequestError "Either content or media must be provided");
      _ ← when_ (negb (String.eqb trimmedContent "")
                 && (5000 <? strlen trimmedContent))
            (BadRequestError "Content must not exceed 5000 characters");
      stored_media ← match rq_media req return M (option Media) with
                     | Some mr => checked ← validate_media mr;
                                  mret (Some checked)
                     | None => mret None
                     end;
      chat ← Chat_findById chat_id;
      match chat with
      | None => throw (NotFoundError "Chat not found")
      | Some c =>
          let isParticipant :=
            existsb (fun p => String.eqb p currentUserId) (participants c) in
          _ ← when_ (negb isParticipant)
                (ForbiddenError "You are not a participant of this chat");
          let document :=
            {| _id := newId; m_chatId := chat_id;
               m_senderId := currentUserId; m_content := trimmedContent;
               m_media := stored_media; m_editedAt := None;
               m_deletedFor := []; m_timestamp := t_create |} in
          newMessage ← Message_create document;
          _ ← Chat_findByIdAndUpdate chat_id
                {| lm_content := if String.eqb trimmedContent ""
                                 then "[Media]" else trimmedContent;
                   lm_senderId := currentUserId;
                   lm_timestamp := t_last |};
          _ ← broadcast (broadcastNewMessage
                 {| bn_messageId := _id newMessage;
                    bn_chatId := m_chatId newMessage;
                    bn_senderId := m_senderId newMessage;
                    bn_content := m_content newMessage;
                    bn_timestamp := toISOString (m_timestamp newMessage) |});
          mret (MessageSent newMessage)
      end
  end.

(** PATCH /api/messages/:messageId, lines 481-562.  [body_content] is
    [req.body.content] when it is a string; [date_now] and [t_edit] are
    the clock readings of lines 523 and 534. *)
Definition patch_message (currentUserId messageId : string)
    (body_content : option string) (date_now t_edit : Z) : M Response :=
  _ ← when_ (negb (isValid messageId))
        (BadRequestError "Invalid message ID format");
  match nonempty body_content with
  | None => throw (BadRequestError "content is required")
  | Some text =>
      let trimmedContent := trim text in
      _ ← when_ (String.eqb trimmedContent "")
            (BadRequestError "content cannot be empty");
      _ ← when_ (5000 <? strlen trimmedContent)
            (BadRequestError "Content must not exceed 5000 characters");
      found ← Message_findById messageId;
      match found with
      | None => throw (NotFoundError "Message not found")
      | Some message =>
          _ ← when_ (negb (String.eqb (m_senderId message) currentUserId))
                (ForbiddenError "You can only edit your own messages");
          let messageAge := date_now - m_timestamp message in
          _ ← when_ (fifteenMinutesInMs <? messageAge)
                (ForbiddenError
                   "Messages can only be edited within 15 minutes of sending");
          let message' := edited message trimmedContent t_edit in
          _ ← Message_save message';
          _ ← broadcast (broadcastEditedMessage
                 {| be_messageId := _id message';
                    be_chatId := m_chatId message';
                    be_content := m_content message';
                    be_editedAt := toISOString t_edit |});
          mret (MessageUpdated (_id message') (m_content message')
                  (m_editedAt message'))
      end
  end.

(** DELETE /api/messages/:messageId, lines 620-713.  [forAll] is the raw
    query parameter. *)
Definition delete_message (currentUserId messageId : string)
    (forAll : option string) (date_now : Z) : M Response :=
  _ ← when_ (negb (isValid messageId))
        (BadRequestError "Invalid message ID format");
  let deleteForAll := parse_forAll forAll in
  found ← Message_findById messageId;
  match found with
  | None => throw (NotFoundError "Message not found")
  | Some message =>
      chat ← Chat_findById (m_chatId message);
      match chat with
      | None => throw (NotFoundError "Chat not found")
      | Some c =>
          let isParticipant :=
            existsb (fun p => String.eqb p currentUserId) (participants c) in
          _ ← when_ (negb isParticipant)
                (ForbiddenError "You are not a participant of this chat");
          if deleteForAll then
            _ ← when_ (negb (String.eqb (m_senderId message) currentUserId))
                  (ForbiddenError
                     "Only the sender can delete message for everyone");
            let messageAge := date_now - m_timestamp message in
            _ ← when_ (twentyFourHoursInMs <? messageAge)
                  (ForbiddenError
       "Messages can only be deleted for everyone within 24 hours of sending");
            _ ← Message_findByIdAndDelete messageId;
            _ ← broadcast (broadcastDeletedMessage
                   {| bd_messageId := messageId;
                      bd_chatId := m_chatId message |});
            mret MessageDeletedOk
          else
            _ ← (if existsb (String.eqb currentUserId) (m_deletedFor message)
                 then mret tt
                 else Message_save
                        {| _id := _id message; m_chatId := m_chatId message;
                           m_senderId := m_senderId message;
                           m_content := m_content message;
                           m_media := m_media message;
                           m_editedAt := m_editedAt message;
                           m_deletedFor :=
                             m_deletedFor message ++ [currentUserId];
                           m_timestamp := m_timestamp message |});
            mret MessageDeletedOk
      end
  end.

(** A PATCH request that gets past the checks of lines 490-508. *)
Definition passes_validation (messageId : string)
    (body_content : option string) : bool :=
  isValid messageId
  && match nonempty body_content with
     | Some text =>
         negb (String.eqb (trim text) "")
         && negb (5000 <? strlen (trim text))
     | None => false
     end.

Definition validation_error (messageId : string)
    (body_content : option string) : string :=
  if negb (isValid messageId) then "Invalid message ID format"
  else match nonempty body_content with
       | None => "content is required"
       | Some text =>
           if String.eqb (trim text) "" then "content cannot be empty"
           else "Content must not exceed 5000 characters"
       end.

(** The payload of the create broadcast, as a function of the stored
    message. *)
Definition new_payload (m : Message) : NewMessagePayload :=
  {| bn_messageId := _id m; bn_chatId := m_chatId m;
     bn_senderId := m_senderId m; bn_content := m_content m;
     bn_timestamp := toISOString (m_timestamp m) |}.

(** What a POST run leaves: on success the new message is appended to
    the collection, and the journal shows the create, the update of the
    chat and then the broadcast call; on failure nothing. *)
Definition post_outcome (w : World) (res : (HttpError + Response) * World)
  : Prop :=
  match fst res with
  | inr (MessageSent m) =>
      messages (snd res) = messages w ++ [m]
      /\ exists lm,
           new_entries w (snd res)
           = [Created m; ChatUpdated (m_chatId m) lm]
             ++ calls w (broadcastNewMessage (new_payload m))
  | inr _ => False
  | inl _ => snd res = w
  end.

End Handlers.

End MessagesRoute.

(* --------------------------------------------------------------------- *)
(** ** A concrete runtime and store for the routes                        *)
(* --------------------------------------------------------------------- *)

Module Sample.

Import MessagesRoute.

Definition is_space (c : ascii) : bool :=
  match nat_of_ascii c with
  | 9%nat | 10%nat | 11%nat | 12%nat | 13%nat | 32%nat => true
  | _ => false
  end.

Fixpoint drop_spaces (l : list ascii) : list ascii :=
  match l with
  | c :: rest => if is_space c then drop_spaces rest else l
  | [] => []
  end.

(** [trim] on ASCII text. *)
Definition ascii_trim (s : string) : string :=
  string_of_list_ascii
    (rev (drop_spaces (rev (drop_spaces (list_ascii_of_string s))))).

Definition is_hex (c : ascii) : bool :=
  let n := nat_of_ascii c in
  ((48 <=? n) && (n <=? 57) || (65 <=? n) && (n <=? 70)
   || (97 <=? n) && (n <=? 102))%nat.

(** [ObjectId.isValid] on the textual form: 24 hexadecimal digits. *)
Definition hex24 (s : string) : bool :=
  Nat.eqb (String.length s) 24
  && forallb is_hex (list_ascii_of_string s).

(** Dates are shown by their millisecond value; how a date is rendered
    plays no role below. *)
Definition show_date (t : Z) : string := pretty t.

Definition msg1 : Message :=
  {| _id := "65a4f0c2e1b2c3d4e5f60001";
     m_chatId := "65a4f0c2e1b2c3d4e5f600c1";
     m_senderId := "65a4f0c2e1b2c3d4e5f600a1";
     m_content := "hi"; m_media := None; m_editedAt := None;
     m_deletedFor := []; m_timestamp := 1700000000000 |}.

Definition chat1 : Chat :=
  {| c_id := "65a4f0c2e1b2c3d4e5f600c1";
     participants := ["65a4f0c2e1b2c3d4e5f600a1";
                      "65a4f0c2e1b2c3d4e5f600b2"];
     lastMessage := None |}.

Definition world1 (handler : bool) : World :=
  {| messages := [msg1]; chats := [chat1]; socketHandler := handler;
     journal := [] |}.

Definition userA : string := "65a4f0c2e1b2c3d4e5f600a1".
Definition userB : string := "65a4f0c2e1b2c3d4e5f600b2".

End Sample.

(* --------------------------------------------------------------------- *)
(** ** client/src/utils/socket.ts: [getSocketUrl]                         *)
(* --------------------------------------------------------------------- *)

Module SocketUrl.

(** The two variables of [import.meta.env] the function reads. *)
Record Env := {
  VITE_API_URL : option string;
  VITE_API_BASE_URL : option string
}.

(** Truthiness of an optional string. *)
Definition truthy (o : option string) : option string :=
  match o with
  | Some s => if String.eqb s "" then None else Some s
  | None => None
  end.

(** [s.replace(/\/$/, '')]: one slash at the very end is removed. *)
Fixpoint strip_trailing_slash (s : string) : string :=
  match s with
  | EmptyString => EmptyString
  | String c rest =>
      match rest with
      | EmptyString => if Ascii.eqb c "/" then EmptyString else s
      | String _ _ => String c (strip_trailing_slash rest)
      end
  end.

Fixpoint skip (n : nat) (s : string) : string :=
  match n, s with
  | O, _ => s
  | S k, String _ rest => skip k rest
  | S _, EmptyString => EmptyString
  end.

(** [s.replace(pat, '')] with a string pattern: the first occurrence of
    [pat] is removed. *)
Fixpoint remove_first (pat s : string) : string :=
  if String.prefix pat s then skip (String.length pat) s
  else match s with
       | EmptyString => EmptyString
       | String c rest => String c (remove_first pat rest)
       end.

(** Whether [pat] occurs in [s]. *)
Fixpoint occurs (pat s : string) : bool :=
  String.prefix pat s
  || match s with
     | EmptyString => false
     | String _ rest => occurs pat rest
     end.

Fixpoint ends_with_slash (s : string) : bool :=
  match s with
  | EmptyString => false
  | String c rest =>
      match rest with
      | EmptyString => Ascii.eqb c "/"
      | String _ _ => ends_with_slash rest
      end
  end.

(** [getSocketUrl()], lines 4-15. *)
Definition getSocketUrl (env : Env) : string :=
  let configured :=
    match truthy (VITE_API_URL env) with
    | Some u => Some u
    | None => VITE_API_BASE_URL env
    end in
  let base :=
    strip_trailing_slash
      (match truthy configured with
       | Some u => u
       | None => "http://localhost:5000"
       end) in
  remove_first "/api" base.

End SocketUrl.

(* --------------------------------------------------------------------- *)
(** ** client/src/pages/MainChat.tsx: history pages, presence, chat list  *)
(* --------------------------------------------------------------------- *)

Module ChatPage.

Import MainChat.

(** The state [loadMessages] and its callers read and write. *)
Record Page := {
  selectedChatId : option string;
  messages : Messages;
  hasMoreMessages : bool;
  messagesOffset : Z;
  messagesLoading : bool
}.

(** [loadMessages(chatId, offset)], lines 47-73, in its three moments:
    the call, the response (a page, newest message first) and the
    failure. *)
Definition loadMessages_start (st : Page) : Page :=
  {| selectedChatId := selectedChatId st; messages := messages st;
     hasMoreMessages := hasMoreMessages st;
     messagesOffset := messagesOffset st; messagesLoading := true |}.

Definition loadMessages_resolve (offset : Z)
    (page : list MessageWithSenderResponse) (st : Page) : Page :=
  {| selectedChatId := selectedChatId st;
     messages := if offset =? 0 then rev page else rev page ++ messages st;
     hasMoreMessages := Nat.eqb (length page) 50;
     messagesOffset := offset + Z.of_nat (length page);
     messagesLoading := false |}.

Definition loadMessages_reject (st : Page) : Page :=
  {| selectedChatId := selectedChatId st; messages := messages st;
     hasMoreMessages := hasMoreMessages st;
     messagesOffset := messagesOffset st; messagesLoading := false |}.

(** [handleChatSelect(chatId)], lines 75-84, up to the request it
    starts (the typing set it also empties lives in [Typing]). *)
Definition handleChatSelect (chat : string) (st : Page) : Page :=
  loadMessages_start
    {| selectedChatId := Some chat; messages := [];
       hasMoreMessages := hasMoreMessages st; messagesOffset := 0;
       messagesLoading := messagesLoading st |}.

(** [handleLoadMoreMessages()], lines 86-90: the request it makes, if
    any. *)
Definition handleLoadMoreMessages (st : Page) : option (string * Z) :=
  match selectedChatId st with
  | Some chat =>
      if negb (String.eqb chat "") && hasMoreMessages st
         && negb (messagesLoading st)
      then Some (chat, messagesOffset st)
      else None
  | None => None
  end.

(** A scroll to the top answered by [page]. *)
Definition load_more (page : list MessageWithSenderResponse) (st : Page)
  : Page :=
  match handleLoadMoreMessages st with
  | Some (_, offset) => loadMessages_resolve offset page (loadMessages_start st)
  | None => st
  end.

(** Opening [chat] and scrolling up through [pages], each answered in
    turn. *)
Definition load_pages (chat : string)
    (pages : list (list MessageWithSenderResponse)) (st : Page) : Page :=
  match pages with
  | [] => st
  | first :: rest =>
      fold_left (fun acc page => load_more page acc) rest
        (loadMessages_resolve 0 first (handleChatSelect chat st))
  end.

(** The [setOnlineUsers] updater of the presence handler, lines
    245-255. *)
Definition onUserStatus (status : SocketUserStatus) (prev : gset string)
  : gset string :=
  match us_status status with
  | online => prev ∪ {[us_userId status]}
  | offline => prev ∖ {[us_userId status]}
  end.

(** The status of the latest event about [u], if there is one. *)
Fixpoint last_status (u : string) (events : list SocketUserStatus)
    (acc : option PresenceStatus) : option PresenceStatus :=
  match events with
  | [] => acc
  | e :: rest =>
      last_status u rest
        (if String.eqb (us_userId e) u then Some (us_status e) else acc)
  end.

(** A chat of the list, as far as the page reads and writes it. *)
Record Preview := {
  pv_content : string;
  pv_senderId : string;
  pv_timestamp : string
}.

Record ChatResponseData := {
  chat_id : string;
  chat_participants : list Sender;
  chat_lastMessage : option Preview;
  unreadCount : gmap string Z
}.

(** [chat.unreadCount[user.id] || 0] *)
Definition unread_of (u : string) (chat : ChatResponseData) : Z :=
  default 0 (unreadCount chat !! u).

(** The [setChats] updater of the new-message handler, lines 221-241. *)
Definition chats_onNewMessage (u : User) (message : MessageResponse)
    (prev : list ChatResponseData) : list ChatResponseData :=
  map (fun chat =>
         if String.eqb (chat_id chat) (chatId message)
         then {| chat_id := chat_id chat;
                 chat_participants := chat_participants chat;
                 chat_lastMessage :=
                   Some {| pv_content := content message;
                           pv_senderId := senderId message;
                           pv_timestamp := timestamp message |};
                 unreadCount :=
                   if negb (String.eqb (senderId message) (user_id u))
                   then <[user_id u := unread_of (user_id u) chat + 1]>
                          (unreadCount chat)
                   else unreadCount chat |}
         else chat) prev.

(** The [setChats] updater after a confirmed send, lines 158-171. *)
Definition chats_onSent (u : User) (selected : string)
    (data : MessageResponse) (prev : list ChatResponseData)
  : list ChatResponseData :=
  map (fun chat =>
         if String.eqb (chat_id chat) selected
         then {| chat_id := chat_id chat;
                 chat_participants := chat_participants chat;
                 chat_lastMessage :=
                   Some {| pv_content := content data;
                           pv_senderId := user_id u;
                           pv_timestamp := timestamp data |};
                 unreadCount := unreadCount chat |}
         else chat) prev.

(** [getOtherParticipant(chat)], lines 332-334. *)
Definition getOtherParticipant (u : User) (chat : ChatResponseData)
  : option Sender :=
  List.find (fun p => negb (String.eqb (sender_id p) (user_id u)))
    (chat_participants chat).

(** How one entry relates to itself after an edit event. *)
Definition edited_from (e : EditedMessageData)
    (before after : MessageWithSenderResponse) : Prop :=
  w_id after = w_id before /\ w_chatId after = w_chatId before
  /\ w_senderId after = w_senderId before
  /\ w_sender after = w_sender before /\ w_media after = w_media before
  /\ w_deletedFor after = w_deletedFor before
  /\ w_timestamp after = w_timestamp before
  /\ if String.eqb (w_id before) (ed_messageId e)
     then w_content after = ed_content e
          /\ w_editedAt after = Some (ed_editedAt e)
     else after = before.

(** How one chat of the list relates to itself after [n] deliveries of
    [message] to the new-message handler of user [u]. *)
Definition delivered (u : User) (message : MessageResponse) (n : nat)
    (before after : ChatResponseData) : Prop :=
  chat_id after = chat_id before
  /\ chat_participants after = chat_participants before
  /\ if String.eqb (chat_id before) (chatId message) && negb (Nat.eqb n 0)
     then chat_lastMessage after
          = Some {| pv_content := content message;
                    pv_senderId := senderId message;
                    pv_timestamp := timestamp message |}
          /\ (forall v, v <> user_id u ->
                unreadCount after !! v = unreadCount before !! v)
          /\ unread_of (user_id u) after
             = if String.eqb (senderId message) (user_id u)
               then unread_of (user_id u) before
               else unread_of (user_id u) before + Z.of_nat n
     else after = before.

End ChatPage.

(* --------------------------------------------------------------------- *)
(** ** client/src/pages/MainChat.tsx: teardown of the typing timers       *)
(* --------------------------------------------------------------------- *)

Module TypingTeardown.

Import Typing.

(** The end of the effect cleanup, lines 315-317:
    [timeouts.forEach((timeout) => clearTimeout(timeout))] and then
    [timeouts.clear()].  The typing set is not written. *)
Definition cleanup (s : State) : State :=
  let cleared :=
    fold_left (fun acc entry => clearTimeout (snd entry) acc)
      (map_to_list (typingTimeoutRef s)) s in
  {| typingUsers := typingUsers cleared; typingTimeoutRef := ∅;
     armed := armed cleared; nextHandle := nextHandle cleared;
     now := now cleared; autoCleared := autoCleared cleared |}.

(** [setTypingUsers(new Set())] of [handleChatSelect], line 80. *)
Definition reset_typing (s : State) : State :=
  {| typingUsers := ∅; typingTimeoutRef := typingTimeoutRef s;
     armed := armed s; nextHandle := nextHandle s; now := now s;
     autoCleared := autoCleared s |}.

(** A re-run of the effect (a dependency changed while the chat stays
    open): the cleanup, and then the events and the time that pass under
    the handler the new run registers, which reads and writes the same
    state and ref. *)
Definition rerun (sel : option string) (later : list Step) (s : State)
  : State :=
  run sel later (cleanup s).

(** A step that brings no event about [u] for the open chat. *)
Definition quiet_about (sel : option string) (u : string) (st : Step)
  : Prop :=
  match st with
  | Recv event => accepts sel u event = false
  | Wait _ => True
  end.

End TypingTeardown.

(* --------------------------------------------------------------------- *)
(** ** client/src/components/ChatList.tsx: [MessageComposer]              *)
(* --------------------------------------------------------------------- *)

Module MessageComposer.

(** A [File], as far as the component looks at it. *)
Record File := {
  file_name : string;
  file_type : string;
  file_size : Z
}.

(** The calls the component makes on its three callback props. *)
Inductive Call :=
| OnTyping
| OnStopTyping
| OnSendMessage (text : string) (file : option File).

(** A timer of the runtime; every timer armed here runs
    [() => onStopTyping()]. *)
Record Timer := {
  handle : nat;
  due : Z
}.

(** The component's state and ref, the runtime's armed timers and clock,
    and the calls made so far. *)
Record State := {
  message : string;
  selectedFile : option File;
  isSending : bool;
  typingTimeoutRef : option nat;
  armed : list Timer;
  nextHandle : nat;
  now : Z;
  calls : list Call
}.

Definition initial (t0 : Z) : State :=
  {| message := ""; selectedFile := None; isSending := false;
     typingTimeoutRef := None; armed := []; nextHandle := 1%nat;
     now := t0; calls := [] |}.

(** The delay passed to [setTimeout] in [handleMessageChange]. *)
Definition stop_delay : Z := 3000.

Definition call (c : Call) (s : State) : State :=
  {| message := message s; selectedFile := selectedFile s;
     isSending := isSending s; typingTimeoutRef := typingTimeoutRef s;
     armed := armed s; nextHandle := nextHandle s; now := now s;
     calls := calls s ++ [c] |}.

Definition clearTimeout (h : nat) (s : State) : State :=
  {| message := message s; selectedFile := selectedFile s;
     isSending := isSending s; typingTimeoutRef := typingTimeoutRef s;
     armed := List.filter (fun t => negb (Nat.eqb (handle t) h)) (armed s);
     nextHandle := nextHandle s; now := now s; calls := calls s |}.

(** [handleMessageChange(value)]. *)
Definition handleMessageChange (value : string) (s : State) : State :=
  let s1 := {| message := value; selectedFile := selectedFile s;
               isSending := isSending s;
               typingTimeoutRef := typingTimeoutRef s;
               armed := armed s; nextHandle := nextHandle s; now := now s;
               calls := calls s |} in
  let s2 := match typingTimeoutRef s1 with
            | Some h => clearTimeout h s1
            | None => s1
            end in
  if (0 <? String.length value)%nat then
    let s3 := call OnTyping s2 in
    {| message := message s3; selectedFile := selectedFile s3;
       isSending := isSending s3;
       typingTimeoutRef := Some (nextHandle s3);
       armed := armed s3 ++ [{| handle := nextHandle s3;
                                due := now s3 + stop_delay |}];
       nextHandle := S (nextHandle s3); now := now s3;
       calls := calls s3 |}
  else call OnStopTyping s2.

(** [d] milliseconds pass: the timers that have come due run, in arming
    order, and leave the queue. *)
Definition elapse (d : Z) (s : State) : State :=
  let t := now s + Z.max 0 d in
  let fired := List.filter (fun tm => due tm <=? t) (armed s) in
  {| message := message s; selectedFile := selectedFile s;
     isSending := isSending s; typingTimeoutRef := typingTimeoutRef s;
     armed := List.filter (fun tm => negb (due tm <=? t)) (armed s);
     nextHandle := nextHandle s; now := t;
     calls := calls s ++ map (fun _ => OnStopTyping) fired |}.

(** The size limit of [handleFileSelect], by MIME type. *)
Definition maxSize (f : File) : Z :=
  if String.prefix "video/" (file_type f) then 100 * 1024 * 1024
  else if String.prefix "audio/" (file_type f) then 2 * 1024 * 1024
  else 10 * 1024 * 1024.

(** [handleFileSelect(e)] for the chosen file, if any (the preview is
    not modelled), and [handleRemoveFile()]. *)
Definition handleFileSelect (chosen : option File) (s : State) : State :=
  match chosen with
  | None => s
  | Some f =>
      if maxSize f <? file_size f then s
      else {| message := message s; selectedFile := Some f;
              isSending := isSending s;
              typingTimeoutRef := typingTimeoutRef s; armed := armed s;
              nextHandle := nextHandle s; now := now s; calls := calls s |}
  end.

Definition handleRemoveFile (s : State) : State :=
  {| message := message s; selectedFile := None; isSending := isSending s;
     typingTimeoutRef := typingTimeoutRef s; armed := armed s;
     nextHandle := nextHandle s; now := now s; calls := calls s |}.

Section Send.

(** [String.prototype.trim]. *)
Variable trim : string -> string.

(** [handleSend()] up to the awaited call, and its continuation when the
    call has returned ([ok]) or thrown. *)
Definition handleSend (disabled : bool) (s : State) : State :=
  if (String.eqb (trim (message s)) ""
      && negb (bool_decide (is_Some (selectedFile s))))
     || isSending s || disabled
  then s
  else
    let s1 := {| message := message s; selectedFile := selectedFile s;
                 isSending := true;
                 typingTimeoutRef := typingTimeoutRef s; armed := armed s;
                 nextHandle := nextHandle s; now := now s;
                 calls := calls s |} in
    call (OnSendMessage (trim (message s1)) (selectedFile s1))
      (call OnStopTyping s1).

Definition handleSend_settled (ok : bool) (s : State) : State :=
  {| message := if ok then "" else message s;
     selectedFile := if ok then None else selectedFile s;
     isSending := false;
     typingTimeoutRef := typingTimeoutRef s; armed := armed s;
     nextHandle := nextHandle s; now := now s; calls := calls s |}.

(** What can happen to a mounted composer. *)
Inductive Step :=
| Change (value : string)
| Wait (d : Z)
| SelectFile (chosen : option File)
| RemoveFile
| Send (disabled : bool)
| Settled (ok : bool).

Definition step (st : Step) (s : State) : State :=
  match st with
  | Change value => handleMessageChange value s
  | Wait d => elapse d s
  | SelectFile chosen => handleFileSelect chosen s
  | RemoveFile => handleRemoveFile s
  | Send disabled => handleSend disabled s
  | Settled ok => handleSend_settled ok s
  end.

Definition run (steps : list Step) (s : State) : State :=
  fold_left (fun acc st => step st acc) steps s.

End Send.

(** At most one stop timer is armed, and it is the one the ref holds. *)
Definition one_timer (s : State) : Prop :=
  armed s = []
  \/ exists t, armed s = [t] /\ typingTimeoutRef s = Some (handle t)
               /\ now s < due t.

(** Whatever is selected or was sent respects the size limit. *)
Definition within_limit (o : option File) : Prop :=
  match o with
  | Some f => file_size f <= maxSize f
  | None => True
  end.

Definition sent_within_limit (c : Call) : Prop :=
  match c with
  | OnSendMessage _ file => within_limit file
  | _ => True
  end.

End MessageComposer.

(* --------------------------------------------------------------------- *)
(** ** client/src/pages/MainChat.tsx: the composer's typing callbacks     *)
(* --------------------------------------------------------------------- *)

Module TypingRelay.

Import MessageComposer.

(** [handleTyping()] and [handleStopTyping()], lines 180-190. *)
Definition handleTyping (selectedChatId : option string)
    (st : SocketService.State) : SocketService.State :=
  match selectedChatId with
  | Some chat =>
      if String.eqb chat "" then st else SocketService.emitTyping chat st
  | None => st
  end.

Definition handleStopTyping (selectedChatId : option string)
    (st : SocketService.State) : SocketService.State :=
  match selectedChatId with
  | Some chat =>
      if String.eqb chat "" then st
      else SocketService.emitStopTyping chat st
  | None => st
  end.

(** The props [onTyping] and [onStopTyping] of the composer as the page
    passes them, lines 455-456; [onSendMessage] does not use the
    socket. *)
Definition relay (selectedChatId : option string) (c : Call)
    (st : SocketService.State) : SocketService.State :=
  match c with
  | OnTyping => handleTyping selectedChatId st
  | OnStopTyping => handleStopTyping selectedChatId st
  | OnSendMessage _ _ => st
  end.

Definition relay_all (selectedChatId : option string) (cs : list Call)
    (st : SocketService.State) : SocketService.State :=
  fold_left (fun acc c => relay selectedChatId c acc) cs st.

(** The frame a call of the composer stands for. *)
Definition frames (s : nat) (chat : string) (c : Call)
  : list SocketManager.Effect :=
  match c with
  | OnTyping =>
      [SocketManager.SocketEmit s "user:typing"
         (Some (SocketManager.ChatPayload chat))]
  | OnStopTyping =>
      [SocketManager.SocketEmit s "user:stop-typing"
         (Some (SocketManager.ChatPayload chat))]
  | OnSendMessage _ _ => []
  end.

End TypingRelay.

(* --------------------------------------------------------------------- *)
(** ** The server's message routes: GET /api/messages                     *)
(* --------------------------------------------------------------------- *)

Module MessagesQuery.

Import MessagesRoute.

(** [Number(raw)] for a query parameter, as far as the handler looks at
    it: an integer, or something [Number.isInteger] rejects. *)
Inductive JsNumber :=
| Integer (n : Z)
| NotInteger.

(** The query string: [chatId] when it is a string, and [Number(limit)]
    and [Number(offset)] when the parameter is given. *)
Record ListQuery := {
  q_chatId : option string;
  q_limit : option JsNumber;
  q_offset : option JsNumber
}.

(** The response body.  The documents are listed as stored; the
    [sender] that [populate] adds to each is not modelled. *)
Record MessageList := {
  total : Z;
  count : Z;
  limit : Z;
  offset : Z;
  listed : list Message
}.

(** The filter of both queries, [{chatId, deletedFor: {$ne: user}}]. *)
Definition matches (chat user : string) (m : Message) : bool :=
  String.eqb (m_chatId m) chat
  && negb (existsb (String.eqb user) (m_deletedFor m)).

(** The document a soft delete saves, lines 689-690 of the DELETE
    handler: the caller is pushed onto [deletedFor]. *)
Definition soft_deleted (user : string) (m : Message) : Message :=
  {| _id := _id m; m_chatId := m_chatId m; m_senderId := m_senderId m;
     m_content := m_content m; m_media := m_media m;
     m_editedAt := m_editedAt m;
     m_deletedFor := m_deletedFor m ++ [user];
     m_timestamp := m_timestamp m |}.

Definition Message_countDocuments (chat user : string) : M Z :=
  fun w =>
    (inr (Z.of_nat (length (List.filter (matches chat user) (messages w)))),
     w).

Definition parse_limit (raw : option JsNumber) : M Z :=
  match raw with
  | None => mret 50
  | Some (Integer n) =>
      if (n <? 1) || (100 <? n)
      then throw (BadRequestError
                    "limit must be an integer between 1 and 100")
      else mret n
  | Some NotInteger =>
      throw (BadRequestError "limit must be an integer between 1 and 100")
  end.

Definition parse_offset (raw : option JsNumber) : M Z :=
  match raw with
  | None => mret 0
  | Some (Integer n) =>
      if n <? 0
      then throw (BadRequestError "offset must be a non-negative integer")
      else mret n
  | Some NotInteger =>
      throw (BadRequestError "offset must be a non-negative integer")
  end.

Section Handler.

Variable isValid : string -> bool.

(** [.sort({timestamp: -1})] of the database; the order it gives to
    messages of equal timestamp is not fixed. *)
Variable sort_desc : list Message -> list Message.

(** [Message.find(filter).sort({timestamp: -1}).skip(offset).limit(limit)] *)
Definition Message_find (chat user : string) (skip lim : Z)
  : M (list Message) :=
  fun w =>
    (inr (take (Z.to_nat lim)
            (drop (Z.to_nat skip)
               (sort_desc (List.filter (matches chat user) (messages w))))),
     w).

(** GET /api/messages, lines 307-418. *)
Definition get_messages (currentUserId : string) (q : ListQuery)
  : M MessageList :=
  match nonempty (q_chatId q) with
  | None => throw (BadRequestError "chatId query parameter is required")
  | Some chat_id =>
      _ ← when_ (negb (isValid chat_id))
            (BadRequestError "Invalid chat ID format");
      lim ← parse_limit (q_limit q);
      skip ← parse_offset (q_offset q);
      chat ← Chat_findById chat_id;
      match chat with
      | None => throw (NotFoundError "Chat not found")
      | Some c =>
          let isParticipant :=
            existsb (fun p => String.eqb p currentUserId) (participants c) in
          _ ← when_ (negb isParticipant)
                (ForbiddenError "You are not a participant of this chat");
          n ← Message_countDocuments chat_id currentUserId;
          found ← Message_find chat_id currentUserId skip lim;
          mret {| total := n; count := Z.of_nat (length found);
                  limit := lim; offset := skip; listed := found |}
      end
  end.

End Handler.

(** A database sort for the examples: insertion, newest first. *)
Fixpoint insert_desc (m : Message) (l : list Message) : list Message :=
  match l with
  | [] => [m]
  | x :: rest =>
      if m_timestamp x <=? m_timestamp m then m :: l
      else x :: insert_desc m rest
  end.

Definition newest_first (l : list Message) : list Message :=
  fold_right insert_desc [] l.

(** Newest first: every message is at least as recent as those after
    it. *)
Definition descending (l : list Message) : Prop :=
  StronglySorted (fun a b => m_timestamp b <= m_timestamp a) l.

(** [n] Cyrillic letters: two bytes each in UTF-8, one code unit each
    in UTF-16. *)
Definition cyrillic (n : nat) : string := String.concat "" (repeat "я" n).

Definition msg2 : Message :=
  {| _id := "65a4f0c2e1b2c3d4e5f60002";
     m_chatId := "65a4f0c2e1b2c3d4e5f600c1";
     m_senderId := "65a4f0c2e1b2c3d4e5f600b2";
     m_content := "hello"; m_media := None; m_editedAt := None;
     m_deletedFor := []; m_timestamp := 1700000030000 |}.

Definition world2 : World :=
  {| messages := [Sample.msg1; msg2]; chats := [Sample.chat1];
     socketHandler := true; journal := [] |}.

End MessagesQuery.

(* ===================================================================== *)
(** * Part II.  Properties                                                *)
(* ===================================================================== *)

(** ** The connection manager *)

Section ManagerFacts.

Import SocketManager.

Lemma socket_connected_some (w : World) :
  socket_connected w = true ->
  exists s, socket w = Some s /\ connected w !! s = Some true.
Proof.
  unfold socket_connected. destruct (socket w) as [s|]; [|discriminate].
  destruct (connected w !! s) as [[|]|] eqn:E; simpl; try discriminate.
  intros _. exists s. split; [reflexivity | exact E].
Qed.

Lemma connect_when_connected (w : World) (s : nat) :
  socket w = Some s -> socket_connected w = true -> connect w = (Ok s, w).
Proof. intros Hs Hc. unfold connect. rewrite Hs, Hc. reflexivity. Qed.

Lemma connect_without_token (w : World) :
  socket_connected w = false ->
  truthy_token (accessToken w) = None ->
  connect w = (Throw "No authentication token available", w).
Proof.
  intros Hc Ht. unfold connect. rewrite Hc, Ht.
  destruct (socket w); reflexivity.
Qed.

Lemma connect_opens (w : World) (tok : string) :
  socket_connected w = false ->
  truthy_token (accessToken w) = Some tok ->
  connect w =
    (Ok (nextSocket w),
     set_socket (Some (nextSocket w))
       (snd (io tok (set_intentional false w)))).
Proof.
  intros Hc Ht. unfold connect. rewrite Hc, Ht.
  destruct (socket w); reflexivity.
Qed.

Lemma connect_attempts (w : World) :
  reconnectAttempts (snd (connect w)) = reconnectAttempts w.
Proof.
  unfold connect.
  destruct (socket w), (socket_connected w),
    (truthy_token (accessToken w)); reflexivity.
Qed.

Lemma on_disconnect_intentional (reason : string) (w : World) :
  isIntentionalDisconnect w = true -> on_disconnect reason w = w.
Proof.
  intros H. unfold on_disconnect. rewrite H.
  rewrite andb_false_r. reflexivity.
Qed.

Lemma disconnect_some (w : World) (s : nat) :
  socket w = Some s ->
  disconnect w =
    {| socket := None; reconnectAttempts := reconnectAttempts w;
       isIntentionalDisconnect := true;
       connected := <[s := false]> (connected w);
       nextSocket := nextSocket w; accessToken := accessToken w;
       pendingReconnects := pendingReconnects w;
       effects := effects w ++ [SocketDisconnect s] |}.
Proof.
  intros Hs. unfold disconnect. rewrite Hs.
  unfold socket_disconnect.
  destruct (default false _); reflexivity.
Qed.

Lemma disconnect_none (w : World) : socket w = None -> disconnect w = w.
Proof. intros Hs. unfold disconnect. rewrite Hs. reflexivity. Qed.

Lemma on_connect_error_below (w : World) :
  reconnectAttempts w + 1 < maxReconnectAttempts ->
  on_connect_error w = set_attempts (reconnectAttempts w + 1) w.
Proof.
  intros H. unfold on_connect_error. simpl.
  destruct (Z.leb_spec maxReconnectAttempts (reconnectAttempts w + 1));
    [lia | reflexivity].
Qed.

Lemma on_connect_error_cap (w : World) :
  maxReconnectAttempts <= reconnectAttempts w + 1 ->
  on_connect_error w = disconnect (set_attempts (reconnectAttempts w + 1) w).
Proof.
  intros H. unfold on_connect_error. simpl.
  destruct (Z.leb_spec maxReconnectAttempts (reconnectAttempts w + 1));
    [reflexivity | lia].
Qed.

(** Below the cap, failures only count. *)
Lemma failures_below (n : nat) (w : World) :
  reconnectAttempts w + Z.of_nat n < maxReconnectAttempts ->
  failures n w = set_attempts (reconnectAttempts w + Z.of_nat n) w.
Proof.
  revert w. induction n as [|n IH]; intros w H.
  - simpl. rewrite Z.add_0_r. destruct w; reflexivity.
  - cbn [failures]. rewrite on_connect_error_below by lia.
    rewrite IH by (simpl; lia).
    unfold set_attempts; simpl. f_equal. lia.
Qed.

End ManagerFacts.

Section ManagerHistory.

Import SocketManager.

Lemma flagged_connect (w : World) :
  flagged_or_unused w -> flagged_or_unused (snd (connect w)).
Proof.
  intros H. unfold connect.
  destruct (socket w) as [s|] eqn:Es; destruct (socket_connected w);
    destruct (truthy_token (accessToken w)); simpl;
    try exact H; intros E; discriminate E.
Qed.

Lemma flagged_disconnect (w : World) :
  flagged_or_unused w -> flagged_or_unused (disconnect w).
Proof.
  intros H. destruct (socket w) as [s|] eqn:Es.
  - rewrite (disconnect_some w s Es). intros _. now left.
  - rewrite (disconnect_none w Es). exact H.
Qed.

Lemma flagged_on_disconnect (reason : string) (w : World) :
  flagged_or_unused w -> flagged_or_unused (on_disconnect reason w).
Proof.
  unfold flagged_or_unused, on_disconnect. intros H.
  destruct (_ && _); simpl; exact H.
Qed.

Lemma flagged_history (tok : option string) (l : list Action) :
  flagged_or_unused (history tok l).
Proof.
  unfold history.
  assert (H0 : flagged_or_unused (fresh tok)) by (intros _; now right).
  revert H0. generalize (fresh tok). induction l as [|a l IH]; intros w H;
    [exact H|].
  simpl. apply IH. destruct a; simpl.
  - now apply flagged_connect.
  - now apply flagged_disconnect.
  - assert (E : forall e, flagged_or_unused (log e w)) by (intros e; exact H).
    unfold emit. destruct (socket w), (socket_connected w); apply E.
  - exact H.
  - unfold deliver_disconnect. apply flagged_on_disconnect. exact H.
  - unfold deliver_connect_error, on_connect_error. simpl.
    destruct (_ <=? _); [|exact H].
    apply flagged_disconnect. exact H.
  - exact H.
  - unfold run_reconnect_timer. destruct (pendingReconnects w); [exact H|].
    apply flagged_connect. exact H.
  - exact H.
Qed.

End ManagerHistory.

Section ManagerClaims.

Import SocketManager.

(** C4.  [connect()] is idempotent and fails fast: with a connected
    socket it returns that socket and changes nothing (so no [io] call is
    made); calling it again once the returned socket has connected gives
    the same socket; with no connected socket and no stored credential it
    throws, and whenever no credential is stored the manager, its sockets
    and the effect log are exactly as before. *)
Theorem connect_idempotent_fail_fast (w : World) :
  (socket_connected w = true ->
     exists s, socket w = Some s /\ connect w = (Ok s, w))
  /\ (forall s w1, connect w = (Ok s, w1) ->
        connect (deliver_connect s w1) = (Ok s, deliver_connect s w1))
  /\ (socket_connected w = false ->
      truthy_token (accessToken w) = None ->
        connect w = (Throw "No authentication token available", w))
  /\ (truthy_token (accessToken w) = None -> snd (connect w) = w).
Proof.
  split; [|split; [|split]].
  - intros Hc. destruct (socket_connected_some w Hc) as (s & Hs & _).
    exists s. split; [exact Hs | now apply connect_when_connected].
  - intros s w1 H.
    assert (Hs : socket w1 = Some s).
    { unfold connect in H.
      destruct (socket w) as [s0|] eqn:Es;
        destruct (socket_connected w) eqn:Ec;
        destruct (truthy_token (accessToken w)) eqn:Et;
        simpl in H; inversion H; subst; try reflexivity; exact Es. }
    apply connect_when_connected.
    + exact Hs.
    + unfold socket_connected, deliver_connect. simpl. rewrite Hs.
      rewrite lookup_insert_eq. reflexivity.
  - apply connect_without_token.
  - intros Ht. destruct (socket_connected w) eqn:Ec.
    + destruct (socket_connected_some w Ec) as (s & Hs & _).
      rewrite (connect_when_connected w s Hs Ec). reflexivity.
    + rewrite (connect_without_token w Ec Ht). reflexivity.
Qed.

Lemma connect_idempotent_fail_fast_witness :
  connect (fresh None)
    = (Throw "No authentication token available", fresh None)
  /\ snd (connect (fresh (Some ""))) = fresh (Some "")
  /\ (let w := deliver_connect 1 (snd (connect (fresh (Some "jwt")))) in
      exists s, socket w = Some s /\ connect w = (Ok s, w)).
Proof.
  split; [|split].
  - apply (proj1 (proj2 (proj2
             (connect_idempotent_fail_fast (fresh None))))); reflexivity.
  - apply (proj2 (proj2 (proj2
             (connect_idempotent_fail_fast (fresh (Some ""))))));
      reflexivity.
  - apply (proj1 (connect_idempotent_fail_fast
                    (deliver_connect 1
                       (snd (connect (fresh (Some "jwt"))))))).
    vm_compute. reflexivity.
Defined.

(** C7.  [emit] with no connected socket only logs a warning: the result
    is the same world with one [ConsoleWarn] entry, nothing is sent and
    no connection is opened; with a connected socket the event and its
    payload are passed to that socket as they are.  [emit] has no other
    outcome, so it cannot throw.  [emitTyping] and [emitStopTyping] are
    [emit] at ['user:typing'] and ['user:stop-typing'] with [{chatId}]. *)
Theorem emit_without_connection (event : string) (data : option Payload)
    (w : World) :
  (socket_connected w = false ->
     emit event data w = log (ConsoleWarn event) w
     /\ List.filter is_network (effects (emit event data w))
        = List.filter is_network (effects w))
  /\ (forall s, socket w = Some s -> socket_connected w = true ->
        emit event data w = log (SocketEmit s event data) w)
  /\ (forall chat st,
        SocketService.emitTyping chat st
        = SocketService.with_manager
            (emit "user:typing" (Some (ChatPayload chat))
               (SocketService.manager st)) st
        /\ SocketService.emitStopTyping chat st
           = SocketService.with_manager
               (emit "user:stop-typing" (Some (ChatPayload chat))
                  (SocketService.manager st)) st).
Proof.
  split; [|split].
  - intros Hc.
    assert (E : emit event data w = log (ConsoleWarn event) w).
    { unfold emit. rewrite Hc. destruct (socket w); reflexivity. }
    split; [exact E|]. rewrite E. simpl.
    rewrite List.filter_app. simpl. apply app_nil_r.
  - intros s Hs Hc. unfold emit. rewrite Hs, Hc. reflexivity.
  - intros chat st. split; reflexivity.
Qed.

Lemma emit_without_connection_witness :
  emit "user:typing" (Some (ChatPayload "c1")) (fresh (Some "jwt"))
    = log (ConsoleWarn "user:typing") (fresh (Some "jwt"))
  /\ (let w := deliver_connect 1 (snd (connect (fresh (Some "jwt")))) in
      emit "user:stop-typing" (Some (ChatPayload "c1")) w
        = log (SocketEmit 1 "user:stop-typing" (Some (ChatPayload "c1"))) w).
Proof.
  split.
  - apply (proj1 (emit_without_connection "user:typing"
                    (Some (ChatPayload "c1")) (fresh (Some "jwt")))).
    reflexivity.
  - apply (proj1 (proj2 (emit_without_connection "user:stop-typing"
                    (Some (ChatPayload "c1"))
                    (deliver_connect 1
                       (snd (connect (fresh (Some "jwt")))))))).
    + reflexivity.
    + vm_compute. reflexivity.
Defined.

End ManagerClaims.

Section ReconnectCap.

Import SocketManager.

(** Once the socket is gone, further failure events change nothing but
    the counter. *)
Lemma failures_after_teardown (k : nat) (w : World) :
  socket w = None ->
  socket (failures k w) = None
  /\ isIntentionalDisconnect (failures k w) = isIntentionalDisconnect w
  /\ effects (failures k w) = effects w
  /\ pendingReconnects (failures k w) = pendingReconnects w.
Proof.
  revert w. induction k as [|k IH]; intros w Hs; [easy|].
  cbn [failures].
  assert (E : on_connect_error w = set_attempts (reconnectAttempts w + 1) w).
  { unfold on_connect_error.
    destruct (_ <=? _); [|reflexivity].
    apply disconnect_none. exact Hs. }
  rewrite E. destruct (IH (set_attempts (reconnectAttempts w + 1) w) Hs)
    as (H1 & H2 & H3 & H4).
  repeat split; assumption.
Qed.

(** The cap.  Counting from zero, the fifth consecutive
    ['connect_error'] tears the socket down: before it the socket is kept
    and nothing is logged; after it the socket is [null], [isConnected()]
    is false, the intentional flag is set, the only effect is the
    [socket.disconnect()] call, no timer was armed, no ['disconnect']
    event whatever its reason arms one, and later failure events change
    none of this. *)
Lemma cap_tears_socket_down (w : World) (s : nat) :
  socket w = Some s ->
  reconnectAttempts w = 0 ->
  let w' := failures (Z.to_nat maxReconnectAttempts) w in
  (forall k, (k < Z.to_nat maxReconnectAttempts)%nat ->
     socket (failures k w) = Some s /\ effects (failures k w) = effects w)
  /\ socket w' = None
  /\ isConnected w' = false
  /\ isIntentionalDisconnect w' = true
  /\ effects w' = effects w ++ [SocketDisconnect s]
  /\ pendingReconnects w' = pendingReconnects w
  /\ (forall reason, on_disconnect reason w' = w')
  /\ (forall k, socket (failures k w') = None
                /\ effects (failures k w') = effects w'
                /\ pendingReconnects (failures k w') = pendingReconnects w').
Proof.
  intros Hs H0 w'.
  assert (Hbelow : forall k, (k < 5)%nat ->
            failures k w = set_attempts (Z.of_nat k) w).
  { intros k Hk. rewrite failures_below; rewrite H0.
    - reflexivity.
    - unfold maxReconnectAttempts. lia. }
  assert (Ew' : w' = disconnect (set_attempts 5 w)).
  { subst w'. change (Z.to_nat maxReconnectAttempts) with 5%nat.
    change 5%nat with (4 + 1)%nat. 
    assert (Hsplit : forall a b x, failures (a + b) x
                                   = failures b (failures a x)).
    { induction a as [|a IHa]; intros b x; [reflexivity|].
      simpl. apply IHa. }
    rewrite Hsplit. rewrite Hbelow by lia. cbn [failures].
    rewrite on_connect_error_cap by (simpl; unfold maxReconnectAttempts; lia).
    reflexivity. }
  assert (Ew'' : w' =
    {| socket := None; reconnectAttempts := 5;
       isIntentionalDisconnect := true;
       connected := <[s := false]> (connected w);
       nextSocket := nextSocket w; accessToken := accessToken w;
       pendingReconnects := pendingReconnects w;
       effects := effects w ++ [SocketDisconnect s] |}).
  { rewrite Ew'. rewrite (disconnect_some _ s) by exact Hs. reflexivity. }
  split; [|split; [|split; [|split; [|split; [|split; [|split]]]]]].
  - intros k Hk. change (Z.to_nat maxReconnectAttempts) with 5%nat in Hk.
    rewrite Hbelow by exact Hk. simpl. split; [exact Hs | reflexivity].
  - rewrite Ew''. reflexivity.
  - rewrite Ew''. reflexivity.
  - rewrite Ew''. reflexivity.
  - rewrite Ew''. reflexivity.
  - rewrite Ew''. reflexivity.
  - intros reason. apply on_disconnect_intentional. rewrite Ew''. reflexivity.
  - intros k.
    destruct (failures_after_teardown k w') as (H1 & _ & H3 & H4).
    + rewrite Ew''. reflexivity.
    + repeat split; assumption.
Qed.

(** C2.  A manual [connect()] does not reset the attempt counter.
    Whenever [connect()] opens a socket, the counter after the call is
    the counter before it; only the ['connect'] and ['reconnect']
    handlers assign zero.  So once the cap was reached, and whenever the
    counter stands at the cap minus one or more, the first
    ['connect_error'] on the socket the manual call opened tears that
    socket down: the socket is [null], [isConnected()] is false, the
    intentional flag is set and [socket.disconnect()] was called, after
    one failure instead of five. *)
Theorem manual_connect_keeps_stale_counter (w : World) (tok : string) :
  socket_connected w = false ->
  truthy_token (accessToken w) = Some tok ->
  let s := nextSocket w in
  let w1 := snd (connect w) in
  fst (connect w) = Ok s
  /\ socket w1 = Some s
  /\ isIntentionalDisconnect w1 = false
  /\ reconnectAttempts w1 = reconnectAttempts w
  /\ (maxReconnectAttempts <= reconnectAttempts w + 1 ->
      let w2 := deliver_connect_error s w1 in
      socket w2 = None /\ isConnected w2 = false
      /\ isIntentionalDisconnect w2 = true
      /\ reconnectAttempts w2 = reconnectAttempts w + 1
      /\ effects w2 = effects w1 ++ [SocketDisconnect s]).
Proof.
  intros Hc Ht s w1. subst s w1. rewrite (connect_opens w tok Hc Ht).
  simpl. split; [reflexivity|]. split; [reflexivity|].
  split; [reflexivity|]. split; [reflexivity|].
  intros Hcap. unfold deliver_connect_error.
  rewrite on_connect_error_cap by (simpl; exact Hcap).
  rewrite (disconnect_some _ (nextSocket w)) by reflexivity.
  unfold isConnected, socket_connected. simpl.
  repeat split; reflexivity.
Qed.

Lemma manual_connect_keeps_stale_counter_witness :
  let w0 := snd (connect (fresh (Some "jwt"))) in
  let w := failures (Z.to_nat maxReconnectAttempts) w0 in
  socket w = None
  /\ fst (connect w) = Ok 2%nat
  /\ reconnectAttempts (snd (connect w)) = maxReconnectAttempts
  /\ socket (deliver_connect_error 2 (snd (connect w))) = None
  /\ isIntentionalDisconnect (deliver_connect_error 2 (snd (connect w)))
     = true.
Proof.
  intros w0 w.
  destruct (manual_connect_keeps_stale_counter w "jwt" eq_refl eq_refl)
    as (H1 & _ & _ & H4 & H5).
  destruct H5 as (H6 & _ & H8 & _); [vm_compute; discriminate|].
  split; [reflexivity|]. split; [exact H1|].
  split; [rewrite H4; reflexivity|]. split; [exact H6 | exact H8].
Defined.

End ReconnectCap.

(** ** The event service *)

Section ServiceClaims.

Import SocketService.

Lemma dispatch_no_handlers (ev : WireEvent) (st : State) :
  messageHandlers st = [] -> userStatusHandlers st = [] ->
  typingHandlers st = [] -> messageEditedHandlers st = [] ->
  messageDeletedHandlers st = [] ->
  dispatch ev st = [].
Proof.
  intros H1 H2 H3 H4 H5. destruct ev; simpl;
    rewrite ?H1, ?H2, ?H3, ?H4, ?H5; reflexivity.
Qed.

Lemma concat_repeat_nil {A : Type} (n : nat) :
  concat (repeat (@nil A) n) = [].
Proof. induction n as [|n IH]; simpl; [reflexivity | exact IH]. Qed.

(** C8 (as amended).  After [disconnect()] the socket is [null] and the
    five handler sets are empty, so no event on any socket reaches a
    registered callback.  If a socket existed at the call, the intentional
    flag is set and a ['disconnect'] event arms no reconnect timer,
    whatever its reason; if none existed, the manager is left as it
    was.  For a manager with any history of calls and events, the flag is
    then set unless no socket was ever opened. *)
Theorem service_disconnect_tears_down (st : State) :
  let st' := disconnect st in
  SocketManager.socket (manager st') = None
  /\ messageHandlers st' = []
  /\ messageEditedHandlers st' = []
  /\ messageDeletedHandlers st' = []
  /\ userStatusHandlers st' = []
  /\ typingHandlers st' = []
  /\ (forall s ev, receive s ev st' = [])
  /\ (forall s0, SocketManager.socket (manager st) = Some s0 ->
        SocketManager.isIntentionalDisconnect (manager st') = true
        /\ forall reason,
             SocketManager.on_disconnect reason (manager st') = manager st')
  /\ (SocketManager.socket (manager st) = None -> manager st' = manager st)
  /\ (forall tok l, manager st = SocketManager.history tok l ->
        SocketManager.isIntentionalDisconnect (manager st') = true
        \/ SocketManager.nextSocket (manager st') = 1%nat).
Proof.
  intros st'. subst st'. simpl.
  assert (Hnone : SocketManager.socket
                    (SocketManager.disconnect (manager st)) = None).
  { unfold SocketManager.disconnect.
    destruct (SocketManager.socket (manager st)) eqn:E; [reflexivity|exact E]. }
  split; [|split; [|split; [|split; [|split; [|split; [|split; [|split;
    [|split]]]]]]]]; try reflexivity.
  - exact Hnone.
  - intros s ev. unfold receive.
    rewrite dispatch_no_handlers by reflexivity.
    destruct (default false _); [apply concat_repeat_nil | reflexivity].
  - intros s0 Hs.
    assert (F : SocketManager.isIntentionalDisconnect
                  (SocketManager.disconnect (manager st)) = true).
    { rewrite (disconnect_some _ s0 Hs). reflexivity. }
    split; [exact F|]. intros reason.
    apply on_disconnect_intentional. exact F.
  - apply disconnect_none.
  - intros tok l E.
    apply (flagged_disconnect (manager st)); [|exact Hnone].
    rewrite E. apply flagged_history.
Qed.

Lemma service_disconnect_tears_down_witness :
  let st := onNewMessage 7 (snd (initialize (fresh (Some "jwt")))) in
  SocketManager.socket (manager st) = Some 1%nat
  /\ messageHandlers st = [7%nat]
  /\ SocketManager.isIntentionalDisconnect (manager (disconnect st)) = true
  /\ messageHandlers (disconnect st) = [].
Proof.
  intros st.
  pose proof (service_disconnect_tears_down st)
    as (_ & H2 & _ & _ & _ & _ & _ & H8 & _ & _).
  destruct (H8 1%nat eq_refl) as [F _].
  repeat split; first [exact F | exact H2 | reflexivity].
Defined.

(** C8, counterexample.  On a service that never opened a socket,
    [disconnect()] empties the handler sets but leaves the intentional
    flag unset. *)
Lemma disconnect_before_connect_leaves_flag :
  let st := disconnect (onNewMessage 7 (fresh (Some "jwt"))) in
  messageHandlers st = []
  /\ SocketManager.socket (manager st) = None
  /\ SocketManager.isIntentionalDisconnect (manager st) = false
  /\ SocketManager.isIntentionalDisconnect (manager st) <> true.
Proof. vm_compute. repeat split; congruence. Qed.

End ServiceClaims.

(** ** Pushed messages *)

Section PushPath.

Import SocketService.

Lemma to_message_media (d : NewMessageData) :
  media (to_message d) = nm_media d.
Proof. unfold to_message; simpl. destruct (nm_media d); reflexivity. Qed.

Lemma In_concat_repeat {A : Type} (x : A) (l : list A) (n : nat) :
  In x (concat (repeat l n)) <-> (0 < n)%nat /\ In x l.
Proof.
  induction n as [|n IH]; simpl.
  - split; [contradiction | intros [H _]; lia].
  - rewrite in_app_iff, IH. split.
    + intros [H|[_ H]]; (split; [lia | exact H]).
    + intros [_ H]. left. exact H.
Qed.

(** What a callback run on socket [s] amounts to: the socket is
    connected, [initialize] has attached its listeners to it, and the
    listener of the event makes the call. *)
Lemma In_receive (s : nat) (ev : WireEvent) (st : State) (i : Invocation) :
  In i (receive s ev st)
  <-> SocketManager.connected (manager st) !! s = Some true
      /\ (0 < default 0%nat (listeners st !! s))%nat
      /\ In i (dispatch ev st).
Proof.
  unfold receive.
  destruct (SocketManager.connected (manager st) !! s) as [[|]|]; simpl.
  - rewrite In_concat_repeat. tauto.
  - split; [contradiction | intros [[=] _]].
  - split; [contradiction | intros [[=] _]].
Qed.

(** C10.  A ['message:new'] event that arrives on a connected socket to
    which [initialize] has attached its listeners is handed to every
    registered new-message callback, and to nothing else.  The message a
    callback receives has [editedAt] [null], an empty [deletedFor] and
    the event's media ([null] when the event has none); its id, chat,
    sender, content and timestamp are those of the event.  A successful
    [initialize] attaches the listeners to the manager's socket and
    keeps the registered callbacks. *)
Theorem pushed_message_is_unedited_undeleted (s : nat)
    (d : NewMessageData) (st : State) :
  Forall (presented_as_new d) (receive s (MessageNew d) st)
  /\ (forall h m,
        In (CallMessage h m) (receive s (MessageNew d) st) ->
        In h (messageHandlers st))
  /\ (forall h,
        In h (messageHandlers st) ->
        SocketManager.connected (manager st) !! s = Some true ->
        (0 < default 0%nat (listeners st !! s))%nat ->
        exists m,
          In (CallMessage h m) (receive s (MessageNew d) st)
          /\ presented_as_new d (CallMessage h m))
  /\ (fst (initialize st) = SocketManager.Ok tt ->
      exists s0,
        SocketManager.socket (manager (snd (initialize st))) = Some s0
        /\ (0 < default 0%nat (listeners (snd (initialize st)) !! s0))%nat
        /\ messageHandlers (snd (initialize st)) = messageHandlers st).
Proof.
  assert (Hnew : forall h, presented_as_new d (CallMessage h (to_message d))).
  { intros h. unfold presented_as_new. rewrite to_message_media.
    repeat split; reflexivity. }
  split; [|split; [|split]].
  - apply List.Forall_forall. intros i Hi.
    apply In_receive in Hi. destruct Hi as (_ & _ & Hi). simpl in Hi.
    apply in_map_iff in Hi. destruct Hi as (h & <- & _). apply Hnew.
  - intros h m Hi. apply In_receive in Hi. destruct Hi as (_ & _ & Hi).
    simpl in Hi. apply in_map_iff in Hi.
    destruct Hi as (h' & [= <- _] & Hh). exact Hh.
  - intros h Hh Hc Hl. exists (to_message d). split; [|apply Hnew].
    apply In_receive. split; [exact Hc|]. split; [exact Hl|].
    simpl. apply in_map_iff. exists h. split; [reflexivity | exact Hh].
  - unfold initialize.
    destruct (SocketManager.connect (manager st)) as [[s0|msg] m] eqn:Ec;
      simpl; [|discriminate].
    intros _. exists s0.
    assert (Hs : SocketManager.socket m = Some s0).
    { unfold SocketManager.connect in Ec.
      destruct (SocketManager.socket (manager st)) as [s1|] eqn:Es;
        destruct (SocketManager.socket_connected (manager st));
        try (injection Ec as <- <-; exact Es);
        destruct (SocketManager.truthy_token _); try discriminate;
        injection Ec as <- <-; reflexivity. }
    split; [exact Hs|]. split; [|reflexivity].
    rewrite lookup_insert_eq. simpl. lia.
Qed.

Lemma pushed_message_is_unedited_undeleted_witness :
  let st0 := onNewMessage 7 (snd (initialize (fresh (Some "jwt")))) in
  let st := with_manager (SocketManager.deliver_connect 1 (manager st0)) st0 in
  let d := {| nm_messageId := "m1"; nm_chatId := "c1"; nm_senderId := "u2";
              nm_content := "hi"; nm_timestamp := "2024-01-15T10:30:00.000Z";
              nm_media := None |} in
  exists m,
    In (CallMessage 7 m) (receive 1 (MessageNew d) st)
    /\ editedAt m = None /\ deletedFor m = [] /\ media m = None
    /\ id m = "m1" /\ content m = "hi".
Proof.
  intros st0 st d.
  destruct (pushed_message_is_unedited_undeleted 1 d st) as (_ & _ & H & _).
  destruct (H 7%nat) as (m & Hin & He & Hd & Hm & Hi & _ & _ & Hc & _).
  - simpl. left. reflexivity.
  - reflexivity.
  - vm_compute. lia.
  - exists m. repeat split; assumption.
Defined.

(** On a concrete state the event reaches the registered callback
    once. *)
Example pushed_message_reaches_handler :
  let st0 := onNewMessage 7 (snd (initialize (fresh (Some "jwt")))) in
  let st := with_manager (SocketManager.deliver_connect 1 (manager st0)) st0 in
  let d := {| nm_messageId := "m1"; nm_chatId := "c1"; nm_senderId := "u2";
              nm_content := "hi"; nm_timestamp := "2024-01-15T10:30:00.000Z";
              nm_media := None |} in
  receive 1 (MessageNew d) st = [CallMessage 7 (to_message d)].
Proof. vm_compute. reflexivity. Qed.

End PushPath.

(** ** The message list *)

Section MessageList.

Import MainChat.

Lemma existsb_app_last (i : string) (prev : Messages)
    (m : MessageWithSenderResponse) :
  existsb (fun x => String.eqb (w_id x) i) (prev ++ [m])
  = existsb (fun x => String.eqb (w_id x) i) prev || String.eqb (w_id m) i.
Proof. rewrite existsb_app. simpl. rewrite orb_false_r. reflexivity. Qed.

Lemma entries_with_app (i : string) (a b : Messages) :
  entries_with i (a ++ b) = (entries_with i a + entries_with i b)%nat.
Proof.
  unfold entries_with. rewrite List.filter_app, length_app. reflexivity.
Qed.

Lemma entries_with_zero (i : string) (l : Messages) :
  entries_with i l = 0%nat <->
  existsb (fun x => String.eqb (w_id x) i) l = false.
Proof.
  unfold entries_with. induction l as [|x l IH]; simpl; [easy|].
  destruct (String.eqb (w_id x) i) eqn:E; simpl.
  - split; discriminate.
  - exact IH.
Qed.

Lemma onNewMessage_present (message : MessageResponse) (prev : Messages) :
  existsb (fun m => String.eqb (w_id m) (id message)) prev = true ->
  onNewMessage message prev = prev.
Proof. intros H. unfold onNewMessage. rewrite H. reflexivity. Qed.

Lemma onNewMessage_absent (message : MessageResponse) (prev : Messages) :
  existsb (fun m => String.eqb (w_id m) (id message)) prev = false ->
  onNewMessage message prev = prev ++ [messageWithSender message].
Proof. intros H. unfold onNewMessage. rewrite H. reflexivity. Qed.

(** C3.  The new-message updater is idempotent: with the id already in
    the list it returns the list itself, so a second delivery of the same
    message changes nothing; and when the id was not in the list before
    the first delivery, exactly one entry carries it after the second. *)
Theorem onNewMessage_idempotent (message : MessageResponse)
    (prev : Messages) :
  (existsb (fun m => String.eqb (w_id m) (id message)) prev = true ->
     onNewMessage message prev = prev)
  /\ onNewMessage message (onNewMessage message prev)
     = onNewMessage message prev
  /\ (entries_with (id message) prev = 0%nat ->
      entries_with (id message)
        (onNewMessage message (onNewMessage message prev)) = 1%nat).
Proof.
  assert (Hidem : onNewMessage message (onNewMessage message prev)
                  = onNewMessage message prev).
  { destruct (existsb (fun m => String.eqb (w_id m) (id message)) prev)
      eqn:E.
    - rewrite (onNewMessage_present _ _ E).
      apply onNewMessage_present. exact E.
    - rewrite (onNewMessage_absent _ _ E).
      apply onNewMessage_present.
      rewrite existsb_app_last. simpl.
      rewrite String.eqb_refl. apply orb_true_r. }
  split; [apply onNewMessage_present|]. split; [exact Hidem|].
  intros H0. rewrite Hidem.
  rewrite onNewMessage_absent by (apply entries_with_zero; exact H0).
  rewrite entries_with_app, H0. unfold entries_with. simpl.
  rewrite String.eqb_refl. reflexivity.
Qed.

End MessageList.

Section OptimisticSend.

Import MainChat.

Lemma onNewMessage_idempotent_witness :
  let message := SocketService.to_message
                   {| nm_messageId := "m1"; nm_chatId := "c1";
                      nm_senderId := "u2"; nm_content := "hi";
                      nm_timestamp := "2024-01-15T10:30:00.000Z";
                      nm_media := None |} in
  onNewMessage message [messageWithSender message]
    = [messageWithSender message]
  /\ entries_with "m1" (onNewMessage message (onNewMessage message []))
     = 1%nat.
Proof.
  intros message. split.
  - apply (proj1 (onNewMessage_idempotent message
                    [messageWithSender message])). reflexivity.
  - apply (proj2 (proj2 (onNewMessage_idempotent message []))). reflexivity.
Defined.

Lemma replace_temp_absent (tmp_id : string) (data : MessageResponse)
    (u : User) (prev : Messages) :
  existsb (fun m => String.eqb (w_id m) tmp_id) prev = false ->
  replace_temp tmp_id data u prev = prev.
Proof.
  unfold replace_temp. induction prev as [|x prev IH]; simpl; [easy|].
  intros H. apply orb_false_iff in H. destruct H as [Hx Hp].
  rewrite Hx, (IH Hp). reflexivity.
Qed.

Lemma replace_temp_app (tmp_id : string) (data : MessageResponse)
    (u : User) (a b : Messages) :
  replace_temp tmp_id data u (a ++ b)
  = replace_temp tmp_id data u a ++ replace_temp tmp_id data u b.
Proof. unfold replace_temp. apply map_app. Qed.

(** A send whose REST response comes before the echo settles on one
    entry, the confirmed one. *)
Lemma send_rest_then_echo (chat : string) (u : User) (text : string)
    (date_now : Z) (iso_now : string) (data : MessageResponse)
    (d : NewMessageData) (prev : Messages) :
  existsb (fun m => String.eqb (w_id m) (tempId date_now)) prev = false ->
  nm_messageId d = id data ->
  send_and_settle chat u text date_now iso_now
    [RestResponse data; PushedEcho d] prev
  = prev ++ [confirmed_entry data u].
Proof.
  intros Htmp Hid. unfold send_and_settle, append_temp.
  cbn [fold_left apply_arrival].
  set (tmp := tempMessage chat u text date_now iso_now).
  assert (Etmp : w_id tmp = tempId date_now) by reflexivity.
  assert (Eecho : id (SocketService.to_message d) = id data) by exact Hid.
  rewrite replace_temp_app, (replace_temp_absent _ _ _ _ Htmp).
  unfold replace_temp. cbn [map]. rewrite Etmp, String.eqb_refl.
  apply onNewMessage_present. rewrite existsb_app_last, Eecho.
  change (w_id (confirmed_entry data u)) with (id data).
  rewrite String.eqb_refl. apply orb_true_r.
Qed.

(** A send whose echo comes before the REST response ends with two
    entries that carry the confirmed id: the echo is appended because the
    list holds only the temporary id, and the response then turns the
    temporary entry into a second copy. *)
Lemma send_echo_then_rest (chat : string) (u : User) (text : string)
    (date_now : Z) (iso_now : string) (data : MessageResponse)
    (d : NewMessageData) (prev : Messages) :
  existsb (fun m => String.eqb (w_id m) (tempId date_now)) prev = false ->
  existsb (fun m => String.eqb (w_id m) (id data)) prev = false ->
  String.eqb (tempId date_now) (id data) = false ->
  nm_messageId d = id data ->
  send_and_settle chat u text date_now iso_now
    [PushedEcho d; RestResponse data] prev
  = prev ++ [confirmed_entry data u;
             messageWithSender (SocketService.to_message d)].
Proof.
  intros Htmp Hreal Hne Hid. unfold send_and_settle, append_temp.
  cbn [fold_left apply_arrival].
  set (tmp := tempMessage chat u text date_now iso_now).
  assert (Etmp : w_id tmp = tempId date_now) by reflexivity.
  assert (Eecho : id (SocketService.to_message d) = id data) by exact Hid.
  rewrite onNewMessage_absent.
  - rewrite <- app_assoc. rewrite replace_temp_app.
    rewrite (replace_temp_absent _ _ _ _ Htmp).
    unfold replace_temp. cbn [map app].
    rewrite Etmp, String.eqb_refl.
    change (w_id (messageWithSender (SocketService.to_message d)))
      with (id (SocketService.to_message d)).
    rewrite Eecho.
    assert (E : String.eqb (id data) (tempId date_now) = false).
    { rewrite String.eqb_sym. exact Hne. }
    rewrite E. reflexivity.
  - rewrite existsb_app_last, Etmp, Eecho, Hreal, Hne. reflexivity.
Qed.

(** C1, at the failing input.  One send of "hi" into an empty list.  If
    the REST response arrives first the list ends with the single
    confirmed entry; if the pushed echo arrives first it ends with two
    entries carrying the confirmed id [m1]. *)
Theorem send_echo_first_leaves_duplicate :
  let settle := send_and_settle "c1" sample_user "hi" 1700000000000
                  "2023-11-14T22:13:20.000Z" in
  settle [RestResponse sample_data; PushedEcho sample_echo] []
    = [confirmed_entry sample_data sample_user]
  /\ settle [PushedEcho sample_echo; RestResponse sample_data] []
     = [confirmed_entry sample_data sample_user;
        messageWithSender (SocketService.to_message sample_echo)]
  /\ entries_with "m1"
       (settle [PushedEcho sample_echo; RestResponse sample_data] [])
     = 2%nat.
Proof. vm_compute. repeat split; reflexivity. Qed.

End OptimisticSend.

(** ** The typing set *)

Section TypingFacts.

Import Typing.

Lemma NoDup_map_filter {A B : Type} (f : A -> B) (p : A -> bool)
    (l : list A) :
  List.NoDup (map f l) -> List.NoDup (map f (List.filter p l)).
Proof.
  induction l as [|x l IH]; simpl; intros H; [constructor|].
  inversion H as [|? ? Hx Hl]; subst.
  destruct (p x); simpl; [|now apply IH].
  constructor; [|now apply IH].
  intros Hin. apply Hx. apply in_map_iff in Hin.
  destruct Hin as (y & Ey & Hy). apply filter_In in Hy.
  apply in_map_iff. exists y. tauto.
Qed.

Lemma NoDup_map_same {A B : Type} (f : A -> B) (l : list A) (a b : A) :
  List.NoDup (map f l) -> In a l -> In b l -> f a = f b -> a = b.
Proof.
  induction l as [|x l IH]; simpl; intros H Ha Hb E; [contradiction|].
  inversion H as [|? ? Hx Hl]; subst.
  destruct Ha as [->|Ha], Hb as [->|Hb]; try reflexivity.
  - exfalso. apply Hx. rewrite E. now apply in_map.
  - exfalso. apply Hx. rewrite <- E. now apply in_map.
  - now apply IH.
Qed.

(** The state after the callbacks of the timers [ds] have run. *)
Lemma expire_fold (ds : list Timer) (s : State) :
  let s' := fold_left (fun acc tm => expire (timer_user tm) acc) ds s in
  armed s' = armed s /\ nextHandle s' = nextHandle s /\ now s' = now s
  /\ autoCleared s' = autoCleared s ++ map timer_user ds
  /\ (forall v, v ∈ typingUsers s' <->
                v ∈ typingUsers s /\ ~ In v (map timer_user ds))
  /\ (forall v, In v (map timer_user ds) -> typingTimeoutRef s' !! v = None)
  /\ (forall v, ~ In v (map timer_user ds) ->
                typingTimeoutRef s' !! v = typingTimeoutRef s !! v).
Proof.
  revert s. induction ds as [|tm ds IH]; intros s; simpl.
  - rewrite app_nil_r. repeat split; try tauto.
  - destruct (IH (expire (timer_user tm) s))
      as (H1 & H2 & H3 & H4 & H5 & H6 & H7).
    simpl in *. split; [exact H1|]. split; [exact H2|]. split; [exact H3|].
    split; [rewrite H4, <- app_assoc; reflexivity|].
    split; [|split].
    + intros v. rewrite H5. rewrite elem_of_difference, elem_of_singleton.
      intuition congruence.
    + intros v [<-|Hin].
      * destruct (in_dec string_dec (timer_user tm) (map timer_user ds))
          as [Hd|Hd]; [now apply H6|].
        rewrite (H7 _ Hd). apply lookup_delete_eq.
      * now apply H6.
    + intros v Hv. rewrite H7 by tauto.
      apply lookup_delete_ne. intros E. apply Hv. left. exact E.
Qed.

Lemma Inv_initial (t0 : Z) : Inv (fun _ => None) (initial t0).
Proof.
  constructor; simpl.
  - constructor.
  - contradiction.
  - intros u h H. rewrite lookup_empty in H. discriminate.
  - intros u H. exfalso. revert H. apply not_elem_of_empty.
Qed.

(** With the invariant, no timer armed for [u] survives the
    [clearTimeout] of the handle stored for [u]. *)
Lemma cleared_for (L : string -> option Z) (s : State) (u : string) :
  Inv L s ->
  List.filter (fun tm => String.eqb (timer_user tm) u)
    (match typingTimeoutRef s !! u with
     | Some h => List.filter (fun t => negb (Nat.eqb (handle t) h)) (armed s)
     | None => armed s
     end) = [].
Proof.
  intros I.
  match goal with |- List.filter ?p ?l = [] =>
    destruct (List.filter p l) as [|tm rest] eqn:E; [reflexivity|];
    assert (Hin : In tm (List.filter p l)) by (rewrite E; now left)
  end.
  exfalso. apply filter_In in Hin. destruct Hin as [Hin Hu].
  apply String.eqb_eq in Hu.
  destruct (typingTimeoutRef s !! u) as [h|] eqn:R.
  - apply filter_In in Hin. destruct Hin as [Hin Hh].
    destruct (inv_armed L s I tm Hin) as (_ & _ & Href & _).
    rewrite Hu, R in Href. inversion Href; subst h.
    rewrite Nat.eqb_refl in Hh. discriminate.
  - destruct (inv_armed L s I tm Hin) as (_ & _ & Href & _).
    rewrite Hu, R in Href. discriminate.
Qed.

(** Timers of other users are not touched by that [clearTimeout]. *)
Lemma kept_for_others (L : string -> option Z) (s : State) (u : string)
    (tm : Timer) :
  Inv L s -> In tm (armed s) -> timer_user tm <> u ->
  In tm (match typingTimeoutRef s !! u with
         | Some h =>
             List.filter (fun t => negb (Nat.eqb (handle t) h)) (armed s)
         | None => armed s
         end).
Proof.
  intros I Hin Hne.
  destruct (typingTimeoutRef s !! u) as [h|] eqn:R; [|exact Hin].
  apply filter_In. split; [exact Hin|].
  destruct (Nat.eqb (handle tm) h) eqn:E; [|reflexivity].
  exfalso. apply Nat.eqb_eq in E.
  destruct (inv_ref L s I u h R) as (tu & Htu & Hh & Hu).
  assert (tm = tu).
  { apply (NoDup_map_same handle (armed s)); try assumption.
    - exact (inv_handles L s I).
    - congruence. }
  subst tu. contradiction.
Qed.

(** The handler, case by case. *)
Lemma onTyping_ignored (sel : option string) (event : SocketTypingEvent)
    (s : State) :
  chat_open sel event = false -> onTyping sel event s = s.
Proof.
  unfold chat_open, onTyping. destruct sel as [c|]; [|reflexivity].
  intros ->. reflexivity.
Qed.

Lemma onTyping_start (sel : option string) (event : SocketTypingEvent)
    (s : State) :
  chat_open sel event = true -> ty_isTyping event = true ->
  onTyping sel event s =
    {| typingUsers := typingUsers s ∪ {[ty_userId event]};
       typingTimeoutRef :=
         <[ty_userId event := nextHandle s]> (typingTimeoutRef s);
       armed := after_clear (ty_userId event) s
                ++ [new_timer (ty_userId event) s];
       nextHandle := S (nextHandle s); now := now s;
       autoCleared := autoCleared s |}.
Proof.
  unfold chat_open, onTyping, after_clear, new_timer.
  destruct sel as [c|]; [|discriminate].
  intros -> ->. simpl.
  destruct (typingTimeoutRef s !! ty_userId event); reflexivity.
Qed.

Lemma onTyping_stop (sel : option string) (event : SocketTypingEvent)
    (s : State) :
  chat_open sel event = true -> ty_isTyping event = false ->
  onTyping sel event s =
    {| typingUsers := typingUsers s ∖ {[ty_userId event]};
       typingTimeoutRef := delete (ty_userId event) (typingTimeoutRef s);
       armed := after_clear (ty_userId event) s;
       nextHandle := nextHandle s; now := now s;
       autoCleared := autoCleared s |}.
Proof.
  unfold chat_open, onTyping, after_clear.
  destruct sel as [c|]; [|discriminate].
  intros -> ->. simpl.
  destruct (typingTimeoutRef s !! ty_userId event) eqn:R; [reflexivity|].
  unfold set_typing. rewrite (delete_id _ _ R). reflexivity.
Qed.

Lemma accepts_split (sel : option string) (u : string)
    (event : SocketTypingEvent) :
  accepts sel u event
  = chat_open sel event && String.eqb (ty_userId event) u.
Proof. unfold accepts, chat_open. destruct sel; reflexivity. Qed.

Lemma in_after_clear (u : string) (s : State) (tm : Timer) :
  In tm (after_clear u s) -> In tm (armed s).
Proof.
  unfold after_clear. destruct (typingTimeoutRef s !! u); [|easy].
  intros H. apply filter_In in H. tauto.
Qed.

Lemma after_clear_not_user (L : string -> option Z) (u : string)
    (s : State) (tm : Timer) :
  Inv L s -> In tm (after_clear u s) -> timer_user tm <> u.
Proof.
  intros I Hin E.
  assert (H : In tm (List.filter
                       (fun t => String.eqb (timer_user t) u)
                       (after_clear u s))).
  { apply filter_In. split; [exact Hin|]. now apply String.eqb_eq. }
  unfold after_clear in H. rewrite (cleared_for L s u I) in H. exact H.
Qed.

Lemma NoDup_after_clear (L : string -> option Z) (u : string) (s : State) :
  Inv L s -> List.NoDup (map handle (after_clear u s)).
Proof.
  intros I. unfold after_clear.
  destruct (typingTimeoutRef s !! u).
  - apply NoDup_map_filter. exact (inv_handles L s I).
  - exact (inv_handles L s I).
Qed.

(** The handler keeps the invariant, with the signal times updated. *)
Lemma Inv_onTyping (sel : option string) (event : SocketTypingEvent)
    (L : string -> option Z) (s : State) :
  Inv L s ->
  Inv (fun u => if accepts sel u event
                then (if ty_isTyping event then Some (now s) else None)
                else L u)
      (onTyping sel event s).
Proof.
  intros I. set (eu := ty_userId event).
  assert (Hacc : forall v, v <> eu -> accepts sel v event = false).
  { intros v Hv. rewrite accepts_split.
    assert (X : String.eqb (ty_userId event) v = false).
    { apply String.eqb_neq. subst eu. congruence. }
    rewrite X. apply andb_false_r. }
  destruct (chat_open sel event) eqn:Hopen.
  2:{ rewrite onTyping_ignored by exact Hopen.
      assert (E : forall v, accepts sel v event = false).
      { intros v. rewrite accepts_split, Hopen. reflexivity. }
      destruct I as [I1 I2 I3 I4]. constructor; try assumption.
      intros tm Hin. rewrite E. now apply I2. }
  assert (Heu : accepts sel eu event = true).
  { rewrite accepts_split, Hopen. simpl. apply String.eqb_refl. }
  destruct (ty_isTyping event) eqn:Hty.
  - rewrite onTyping_start by assumption. fold eu.
    constructor; simpl.
    + rewrite map_app. simpl. apply List.NoDup_app.
      * apply (NoDup_after_clear L eu s I).
      * constructor; [intros [] | constructor].
      * intros h Hh [Hn|[]].
        apply in_map_iff in Hh. destruct Hh as (tm & Eh & Hin).
        apply in_after_clear in Hin.
        destruct (inv_armed L s I tm Hin) as (Hlt & _). lia.
    + intros tm Hin. apply in_app_iff in Hin. destruct Hin as [Hin|[<-|[]]].
      * pose proof (after_clear_not_user L eu s tm I Hin) as Hne.
        apply in_after_clear in Hin.
        destruct (inv_armed L s I tm Hin) as (Hh & Hd & Hr & HL).
        rewrite (Hacc _ Hne).
        rewrite lookup_insert_ne by congruence.
        repeat split; try assumption. lia.
      * simpl. rewrite Heu, lookup_insert_eq. unfold expiry.
        repeat split; try lia. f_equal. lia.
    + intros v h Hv. destruct (String.eqb_spec eu v) as [E|E].
      * subst v. rewrite lookup_insert_eq in Hv. inversion Hv; subst h.
        exists (new_timer eu s). split; [|split; reflexivity].
        apply in_app_iff. right. now left.
      * rewrite lookup_insert_ne in Hv by exact E.
        destruct (inv_ref L s I v h Hv) as (tm & Hin & Eh & Eu).
        exists tm. split; [|tauto]. apply in_app_iff. left.
        apply (kept_for_others L s eu tm I Hin). congruence.
    + intros v Hv. destruct (String.eqb_spec eu v) as [E|E].
      * exists (new_timer eu s). split; [|exact E].
        apply in_app_iff. right. now left.
      * apply elem_of_union in Hv. destruct Hv as [Hv|Hv].
        2:{ apply elem_of_singleton in Hv. congruence. }
        destruct (inv_typing L s I v Hv) as (tm & Hin & Eu).
        exists tm. split; [|exact Eu]. apply in_app_iff. left.
        apply (kept_for_others L s eu tm I Hin). congruence.
  - rewrite onTyping_stop by assumption. fold eu.
    constructor; simpl.
    + apply (NoDup_after_clear L eu s I).
    + intros tm Hin.
      pose proof (after_clear_not_user L eu s tm I Hin) as Hne.
      apply in_after_clear in Hin.
      destruct (inv_armed L s I tm Hin) as (Hh & Hd & Hr & HL).
      rewrite (Hacc _ Hne). rewrite lookup_delete_ne by congruence.
      repeat split; assumption.
    + intros v h Hv. apply lookup_delete_Some in Hv. destruct Hv as [E Hv].
      destruct (inv_ref L s I v h Hv) as (tm & Hin & Eh & Eu).
      exists tm. split; [|tauto].
      apply (kept_for_others L s eu tm I Hin). congruence.
    + intros v Hv. apply elem_of_difference in Hv. destruct Hv as [Hv Hn].
      rewrite elem_of_singleton in Hn.
      destruct (inv_typing L s I v Hv) as (tm & Hin & Eu).
      exists tm. split; [|exact Eu].
      apply (kept_for_others L s eu tm I Hin). congruence.
Qed.

Lemma elapse_fields (d : Z) (s : State) :
  armed (elapse d s)
    = List.filter (fun tm => negb (is_due (now s + Z.max 0 d) tm)) (armed s)
  /\ nextHandle (elapse d s) = nextHandle s
  /\ now (elapse d s) = now s + Z.max 0 d
  /\ autoCleared (elapse d s)
     = autoCleared s ++ map timer_user (due_timers d s)
  /\ (forall v, v ∈ typingUsers (elapse d s) <->
                v ∈ typingUsers s
                /\ ~ In v (map timer_user (due_timers d s)))
  /\ (forall v, In v (map timer_user (due_timers d s)) ->
                typingTimeoutRef (elapse d s) !! v = None)
  /\ (forall v, ~ In v (map timer_user (due_timers d s)) ->
                typingTimeoutRef (elapse d s) !! v
                = typingTimeoutRef s !! v).
Proof.
  unfold elapse, due_timers.
  match goal with
  | |- context [fold_left ?f ?ds ?s1] =>
      pose proof (expire_fold ds s1) as H
  end.
  cbn zeta in H. cbn [armed nextHandle now autoCleared typingUsers
                      typingTimeoutRef] in H.
  exact H.
Qed.

(** A timer that stays armed and a timer that comes due never belong to
    the same user. *)
Lemma due_user_not_kept (L : string -> option Z) (d : Z) (s : State)
    (tm : Timer) :
  Inv L s -> In tm (armed s) ->
  is_due (now s + Z.max 0 d) tm = false ->
  ~ In (timer_user tm) (map timer_user (due_timers d s)).
Proof.
  intros I Hin Hnd Hu. apply in_map_iff in Hu.
  destruct Hu as (tm' & Eu & Hin'). unfold due_timers in Hin'.
  apply filter_In in Hin'. destruct Hin' as [Hin' Hd].
  destruct (inv_armed L s I tm Hin) as (_ & _ & R & _).
  destruct (inv_armed L s I tm' Hin') as (_ & _ & R' & _).
  rewrite Eu, R in R'.
  assert (tm = tm').
  { apply (NoDup_map_same handle (armed s)); try assumption.
    - exact (inv_handles L s I).
    - congruence. }
  subst tm'. congruence.
Qed.

Lemma Inv_elapse (L : string -> option Z) (d : Z) (s : State) :
  Inv L s -> Inv L (elapse d s).
Proof.
  intros I.
  destruct (elapse_fields d s) as (Ea & En & Et & _ & Hty & Hr1 & Hr2).
  assert (Hkeep : forall tm, In tm (armed s) ->
            ~ In (timer_user tm) (map timer_user (due_timers d s)) ->
            In tm (armed (elapse d s))).
  { intros tm Hin Hn. rewrite Ea. apply filter_In. split; [exact Hin|].
    destruct (is_due (now s + Z.max 0 d) tm) eqn:Ed; [|reflexivity].
    exfalso. apply Hn. apply in_map. unfold due_timers.
    apply filter_In. tauto. }
  constructor.
  - rewrite Ea. apply NoDup_map_filter. exact (inv_handles L s I).
  - intros tm Hin. rewrite Ea in Hin. apply filter_In in Hin.
    destruct Hin as [Hin Hnd]. apply negb_true_iff in Hnd.
    destruct (inv_armed L s I tm Hin) as (Hh & _ & R & HL).
    rewrite En, Et.
    rewrite (Hr2 _ (due_user_not_kept L d s tm I Hin Hnd)).
    unfold is_due in Hnd. apply Z.leb_gt in Hnd.
    repeat split; assumption.
  - intros u h Hu.
    destruct (in_dec string_dec u (map timer_user (due_timers d s)))
      as [Hd|Hd].
    + rewrite (Hr1 _ Hd) in Hu. discriminate.
    + rewrite (Hr2 _ Hd) in Hu.
      destruct (inv_ref L s I u h Hu) as (tm & Hin & Eh & Eu).
      exists tm. split; [|tauto]. apply Hkeep; [exact Hin|].
      rewrite Eu. exact Hd.
  - intros u Hu. apply Hty in Hu. destruct Hu as [Hu Hd].
    destruct (inv_typing L s I u Hu) as (tm & Hin & Eu).
    exists tm. split; [|exact Eu]. apply Hkeep; [exact Hin|].
    rewrite Eu. exact Hd.
Qed.

(** Along any run the invariant holds for the signal times computed by
    [last_signal]. *)
Lemma Inv_run (sel : option string) (steps : list Step)
    (L : string -> option Z) (s : State) :
  Inv L s ->
  Inv (fun u => last_signal sel u steps (now s) (L u)) (run sel steps s)
  /\ now s <= now (run sel steps s).
Proof.
  revert L s. induction steps as [|st steps IH]; intros L s I.
  - simpl. split; [|lia]. destruct I; constructor; assumption.
  - destruct st as [event|d]; cbn [run fold_left step last_signal].
    + pose proof (Inv_onTyping sel event L s I) as I'.
      assert (En : now (onTyping sel event s) = now s).
      { destruct (chat_open sel event) eqn:Ho.
        - destruct (ty_isTyping event) eqn:Ht.
          + rewrite onTyping_start by assumption. reflexivity.
          + rewrite onTyping_stop by assumption. reflexivity.
        - rewrite onTyping_ignored by assumption. reflexivity. }
      destruct (IH _ _ I') as [I'' Hle]. rewrite En in I'', Hle.
      split; [exact I''|exact Hle].
    + pose proof (Inv_elapse L d s I) as I'.
      destruct (elapse_fields d s) as (_ & _ & Et & _).
      destruct (IH _ _ I') as [I'' Hle]. rewrite Et in I'', Hle.
      split; [exact I''|]. unfold run in Hle. lia.
Qed.

Lemma filter_none {A : Type} (p : A -> bool) (l : list A) :
  (forall x, In x l -> p x = false) -> List.filter p l = [].
Proof.
  induction l as [|x l IH]; simpl; intros H; [reflexivity|].
  rewrite (H x) by now left. apply IH. intros y Hy. apply H. now right.
Qed.

Lemma users_filter (u : string) (l : list Timer) :
  List.filter (String.eqb u) (map timer_user l)
  = map timer_user
      (List.filter (fun tm => String.eqb (timer_user tm) u) l).
Proof.
  induction l as [|x l IH]; simpl; [reflexivity|].
  rewrite (String.eqb_sym u). destruct (String.eqb (timer_user x) u); simpl;
    rewrite IH; reflexivity.
Qed.

Lemma filter_swap {A : Type} (p q : A -> bool) (l : list A) :
  List.filter p (List.filter q l) = List.filter q (List.filter p l).
Proof.
  induction l as [|x l IH]; simpl; [reflexivity|].
  destruct (p x) eqn:Ep, (q x) eqn:Eq; simpl; rewrite ?Ep, ?Eq, IH;
    reflexivity.
Qed.

(** After an accepted [isTyping = true] event exactly one timer is armed
    for the user, the new one. *)
Lemma armed_for_after_start (L : string -> option Z)
    (sel : option string) (event : SocketTypingEvent) (s : State) :
  Inv L s -> chat_open sel event = true -> ty_isTyping event = true ->
  armed_for (ty_userId event) (onTyping sel event s)
  = [new_timer (ty_userId event) s].
Proof.
  intros I Ho Ht. rewrite onTyping_start by assumption.
  unfold armed_for. simpl. rewrite List.filter_app.
  unfold after_clear. rewrite (cleared_for L s _ I). simpl.
  rewrite String.eqb_refl. reflexivity.
Qed.

Lemma armed_for_after_stop (L : string -> option Z)
    (sel : option string) (event : SocketTypingEvent) (s : State) :
  Inv L s -> chat_open sel event = true -> ty_isTyping event = false ->
  armed_for (ty_userId event) (onTyping sel event s) = [].
Proof.
  intros I Ho Ht. rewrite onTyping_stop by assumption.
  unfold armed_for. simpl. unfold after_clear. apply (cleared_for L s _ I).
Qed.

(** The timers of [u] that come due within [d]. *)
Lemma due_users (u : string) (d : Z) (s : State) :
  List.filter (String.eqb u) (map timer_user (due_timers d s))
  = map timer_user
      (List.filter (is_due (now s + Z.max 0 d)) (armed_for u s)).
Proof.
  rewrite users_filter. unfold due_timers, armed_for.
  rewrite filter_swap. reflexivity.
Qed.

Lemma auto_clears_elapse (u : string) (d : Z) (s : State) :
  auto_clears u (elapse d s)
  = (auto_clears u s
     + length (List.filter (is_due (now s + Z.max 0 d)) (armed_for u s)))%nat.
Proof.
  unfold auto_clears.
  destruct (elapse_fields d s) as (_ & _ & _ & Ec & _).
  rewrite Ec, List.filter_app, length_app, due_users, length_map.
  reflexivity.
Qed.

Lemma typing_elapse (u : string) (d : Z) (s : State) :
  u ∈ typingUsers (elapse d s) <->
  u ∈ typingUsers s
  /\ List.filter (is_due (now s + Z.max 0 d)) (armed_for u s) = [].
Proof.
  destruct (elapse_fields d s) as (_ & _ & _ & _ & Hty & _).
  rewrite Hty. split; intros [H1 H2]; (split; [exact H1|]).
  - destruct (List.filter _ (armed_for u s)) as [|tm r] eqn:E;
      [reflexivity|]. exfalso. apply H2.
    assert (Hin : In tm (List.filter (is_due (now s + Z.max 0 d))
                           (armed_for u s))) by (rewrite E; now left).
    apply filter_In in Hin. destruct Hin as [Hin Hd].
    apply filter_In in Hin. destruct Hin as [Hin Hu].
    apply String.eqb_eq in Hu. rewrite <- Hu. apply in_map.
    unfold due_timers. apply filter_In. tauto.
  - intros Hin. apply in_map_iff in Hin. destruct Hin as (tm & Eu & Hin).
    unfold due_timers in Hin. apply filter_In in Hin.
    assert (X : In tm (List.filter (is_due (now s + Z.max 0 d))
                         (armed_for u s))).
    { apply filter_In. split; [|tauto]. apply filter_In.
      split; [tauto|]. now apply String.eqb_eq. }
    rewrite H2 in X. exact X.
Qed.

Lemma armed_for_elapse (u : string) (d : Z) (s : State) :
  armed_for u (elapse d s)
  = List.filter (fun tm => negb (is_due (now s + Z.max 0 d) tm))
      (armed_for u s).
Proof.
  unfold armed_for. destruct (elapse_fields d s) as (Ea & _).
  rewrite Ea. apply filter_swap.
Qed.

(** Within one run of the effect.  In every state [s] the typing handler
    and the clock can reach from the initial one, for every user [u]:
    - if [u] is in the typing set, [u]'s latest accepted typing signal is
      less than 5000 ms old;
    - an accepted [isTyping = true] event puts [u] in the set, removes the
      timer armed before for [u] and leaves exactly one armed timer for
      [u], due 5000 ms later and recorded in the timer map;
    - an accepted [isTyping = false] event removes [u] at once and leaves
      no timer and no map entry for [u];
    - after an accepted [isTyping = true] event, [u] stays in the set
      while less than 5000 ms pass, and once 5000 ms or more have passed
      with no further event [u] is out of the set, the expiry callback
      has run exactly once for [u], and no timer is left for [u]. *)
Theorem typing_expires_after_five_seconds (sel : option string) (t0 : Z)
    (steps : list Step) (u : string) :
  let s := run sel steps (initial t0) in
  (u ∈ typingUsers s ->
     exists t, last_signal sel u steps t0 None = Some t
               /\ now s < t + expiry)
  /\ (forall event,
        chat_open sel event = true -> ty_userId event = u ->
        ty_isTyping event = true ->
        let s' := onTyping sel event s in
        (u ∈ typingUsers s')
        /\ armed_for u s' = [{| handle := nextHandle s;
                                due := now s + expiry; timer_user := u |}]
        /\ typingTimeoutRef s' !! u = Some (nextHandle s))
  /\ (forall event,
        chat_open sel event = true -> ty_userId event = u ->
        ty_isTyping event = false ->
        let s' := onTyping sel event s in
        (u ∉ typingUsers s') /\ armed_for u s' = []
        /\ typingTimeoutRef s' !! u = None)
  /\ (forall event d,
        chat_open sel event = true -> ty_userId event = u ->
        ty_isTyping event = true ->
        let s'' := elapse d (onTyping sel event s) in
        (d < expiry ->
           (u ∈ typingUsers s'') /\ auto_clears u s'' = auto_clears u s)
        /\ (expiry <= d ->
              (u ∉ typingUsers s'')
              /\ auto_clears u s'' = S (auto_clears u s)
              /\ armed_for u s'' = [])).
Proof.
  intros s.
  destruct (Inv_run sel steps (fun _ => None) (initial t0) (Inv_initial t0))
    as [I _].
  fold s in I. cbn [now initial] in I. clearbody s.
  split; [|split; [|split]].
  - intros Hu. destruct (inv_typing _ _ I u Hu) as (tm & Hin & Eu).
    destruct (inv_armed _ _ I tm Hin) as (_ & Hd & _ & HL).
    exists (due tm - expiry). rewrite Eu in HL. split; [exact HL|].
    lia.
  - intros event Ho <- Ht s'. subst s'.
    rewrite (armed_for_after_start _ sel event s I Ho Ht).
    rewrite onTyping_start by assumption. simpl.
    rewrite lookup_insert_eq.
    split; [|split; reflexivity].
    apply elem_of_union. right. now apply elem_of_singleton.
  - intros event Ho <- Ht s'. subst s'.
    rewrite (armed_for_after_stop _ sel event s I Ho Ht).
    rewrite onTyping_stop by assumption. simpl.
    rewrite lookup_delete_eq.
    split; [|split; reflexivity].
    intros H. apply elem_of_difference in H. destruct H as [_ H].
    apply H. now apply elem_of_singleton.
  - intros event d Ho <- Ht s''. subst s''.
    pose proof (armed_for_after_start _ sel event s I Ho Ht) as Ea.
    assert (En : now (onTyping sel event s) = now s).
    { rewrite onTyping_start by assumption. reflexivity. }
    assert (Hin : ty_userId event ∈ typingUsers (onTyping sel event s)).
    { rewrite onTyping_start by assumption. simpl.
      apply elem_of_union. right. now apply elem_of_singleton. }
    split.
    + intros Hd.
      assert (E : List.filter
                    (is_due (now (onTyping sel event s) + Z.max 0 d))
                    (armed_for (ty_userId event) (onTyping sel event s))
                  = []).
      { rewrite Ea, En. simpl. unfold is_due. simpl.
        destruct (Z.leb_spec (now s + expiry) (now s + Z.max 0 d));
          [unfold expiry in *; lia | reflexivity]. }
      split.
      * apply typing_elapse. split; [exact Hin | exact E].
      * rewrite auto_clears_elapse, E. simpl. rewrite Nat.add_0_r.
        unfold auto_clears. rewrite onTyping_start by assumption.
        reflexivity.
    + intros Hd.
      assert (E : List.filter
                    (is_due (now (onTyping sel event s) + Z.max 0 d))
                    (armed_for (ty_userId event) (onTyping sel event s))
                  = [new_timer (ty_userId event) s]).
      { rewrite Ea, En. simpl. unfold is_due. simpl.
        destruct (Z.leb_spec (now s + expiry) (now s + Z.max 0 d));
          [reflexivity | unfold expiry in *; lia]. }
      split; [|split].
      * intros H. apply typing_elapse in H. destruct H as [_ H].
        rewrite E in H. discriminate.
      * rewrite auto_clears_elapse, E. simpl.
        unfold auto_clears. rewrite onTyping_start by assumption.
        simpl. lia.
      * rewrite armed_for_elapse, Ea, En. simpl. unfold is_due. simpl.
        destruct (Z.leb_spec (now s + expiry) (now s + Z.max 0 d));
          [reflexivity | unfold expiry in *; lia].
Qed.

Lemma typing_expires_after_five_seconds_witness :
  let sel := Some "c1" in
  let steps := [Recv (typing_on "u2"); Wait 3000; Recv (typing_on "u2");
                Wait 4999] in
  let s := run sel steps (initial 0) in
  (exists t, last_signal sel "u2" steps 0 None = Some t
             /\ now s < t + expiry)
  /\ ("u2" ∉ typingUsers (elapse 5000 (onTyping sel (typing_on "u2") s)))
  /\ auto_clears "u2" (elapse 5000 (onTyping sel (typing_on "u2") s))
     = S (auto_clears "u2" s).
Proof.
  intros sel steps s.
  pose proof (typing_expires_after_five_seconds sel 0 steps "u2")
    as (H1 & _ & _ & H4).
  split.
  - apply H1. apply (bool_decide_unpack _). vm_compute. exact I.
  - destruct (H4 (typing_on "u2") 5000 eq_refl eq_refl eq_refl)
      as [_ H5].
    destruct H5 as (Ha & Hb & _); [unfold expiry; lia|].
    split; [exact Ha | exact Hb].
Defined.

End TypingFacts.

(** ** The REST message routes *)

Section RouteFacts.

Import MessagesRoute.

Variable isValid : string -> bool.
Variable trim : string -> string.
Variable toISOString : Z -> string.

Lemma new_entries_same (w : World) : new_entries w w = [].
Proof. unfold new_entries. apply drop_all. Qed.

Lemma new_entries_app (w w' : World) (l : list Entry) :
  journal w' = journal w ++ l -> new_entries w w' = l.
Proof. intros E. unfold new_entries. rewrite E. apply drop_app_length. Qed.

Lemma new_broadcasts_same (w : World) : new_broadcasts w w = [].
Proof. unfold new_broadcasts. rewrite new_entries_same. reflexivity. Qed.

Lemma find_message_id (i : string) (ms : list Message) (m : Message) :
  find_message i ms = Some m -> _id m = i.
Proof.
  unfold find_message. intros H. apply find_some in H.
  apply String.eqb_eq. tauto.
Qed.

(** What PATCH does on each path. *)
Lemma patch_message_cases (user messageId : string)
    (body_content : option string) (date_now t_edit : Z) (w : World) :
  patch_message isValid trim toISOString user messageId body_content
    date_now t_edit w
  = if negb (passes_validation isValid trim messageId body_content)
    then (inl (BadRequestError
                 (validation_error isValid trim messageId body_content)), w)
    else
      match find_message messageId (messages w), nonempty body_content with
      | Some m, Some text =>
          if negb (String.eqb (m_senderId m) user)
          then (inl (ForbiddenError "You can only edit your own messages"), w)
          else if fifteenMinutesInMs <? date_now - m_timestamp m
          then (inl (ForbiddenError
                  "Messages can only be edited within 15 minutes of sending"),
                w)
          else
            (inr (MessageUpdated (_id m) (trim text) (Some t_edit)),
             {| messages :=
                  map (fun x => if String.eqb (_id x) (_id m)
                                then edited m (trim text) t_edit else x)
                      (messages w);
                chats := chats w;
                socketHandler := socketHandler w;
                journal :=
                  (journal w ++ [Saved (edited m (trim text) t_edit)])
                  ++ calls w (broadcastEditedMessage
                                {| be_messageId := _id m;
                                   be_chatId := m_chatId m;
                                   be_content := trim text;
                                   be_editedAt := toISOString t_edit |})
             |})
      | _, _ => (inl (NotFoundError "Message not found"), w)
      end.
Proof.
  unfold passes_validation, validation_error, patch_message, edited.
  unfold mbind, M_bind, mret, M_ret, when_, throw.
  destruct (isValid messageId); simpl; [|reflexivity].
  destruct (nonempty body_content) as [text|]; simpl; [|reflexivity].
  destruct (String.eqb (trim text) ""); simpl; [reflexivity|].
  destruct (5000 <? strlen (trim text)); simpl; [reflexivity|].
  destruct (find_message messageId (messages w)) as [m|]; simpl;
    [|reflexivity].
  destruct (String.eqb (m_senderId m) user); simpl; [|reflexivity].
  destruct (fifteenMinutesInMs <? date_now - m_timestamp m); simpl;
    [reflexivity|].
  unfold broadcast, record, with_messages, calls. simpl.
  destruct (socketHandler w); simpl; [reflexivity|].
  rewrite app_nil_r. reflexivity.
Qed.

Lemma find_message_replaced (m m' : Message) (ms : list Message) :
  _id m' = _id m ->
  find_message (_id m) ms = Some m ->
  find_message (_id m)
    (map (fun x => if String.eqb (_id x) (_id m) then m' else x) ms)
  = Some m'.
Proof.
  intros E. unfold find_message. induction ms as [|x ms IH]; simpl;
    [discriminate|].
  destruct (String.eqb (_id x) (_id m)) eqn:Ex; simpl.
  - intros _. rewrite E, String.eqb_refl. reflexivity.
  - rewrite Ex. exact IH.
Qed.

Lemma find_message_deleted (i : string) (ms : list Message) :
  find_message i
    (List.filter (fun x => negb (String.eqb (_id x) i)) ms) = None.
Proof.
  unfold find_message. induction ms as [|x ms IH]; simpl; [reflexivity|].
  destruct (String.eqb (_id x) i) eqn:Ex; simpl; [exact IH|].
  rewrite Ex. exact IH.
Qed.

(** C6 (as amended).  PATCH succeeds only for the sender of a message at
    most 15 minutes old; it then stores the trimmed content and the edit
    time on that message, leaves the chats alone and, when a socket
    handler is registered, makes exactly one [broadcastEditedMessage]
    call with the message id, chat id, new content and edit time (none
    when no handler is registered).  Every failure leaves the world as
    it was, so nothing is stored or broadcast.  For a request that passes
    body validation and names an existing message, the request fails with
    a Forbidden error when the caller is not the sender or the message is
    older than 15 minutes, and succeeds otherwise. *)
Theorem patch_message_sender_window (user messageId : string)
    (body_content : option string) (date_now t_edit : Z) (w : World) :
  let res := patch_message isValid trim toISOString user messageId
               body_content date_now t_edit w in
  (forall resp, fst res = inr resp ->
     exists m text,
       find_message messageId (messages w) = Some m
       /\ nonempty body_content = Some text
       /\ m_senderId m = user
       /\ date_now - m_timestamp m <= fifteenMinutesInMs
       /\ resp = MessageUpdated messageId (trim text) (Some t_edit)
       /\ find_message messageId (messages (snd res))
          = Some (edited m (trim text) t_edit)
       /\ chats (snd res) = chats w
       /\ new_broadcasts w (snd res)
          = if socketHandler w
            then [broadcastEditedMessage
                    {| be_messageId := messageId;
                       be_chatId := m_chatId m;
                       be_content := trim text;
                       be_editedAt := toISOString t_edit |}]
            else [])
  /\ (forall e, fst res = inl e -> snd res = w)
  /\ (forall m,
        passes_validation isValid trim messageId body_content = true ->
        find_message messageId (messages w) = Some m ->
        (m_senderId m <> user
           \/ fifteenMinutesInMs < date_now - m_timestamp m ->
         exists msg, fst res = inl (ForbiddenError msg) /\ snd res = w)
        /\ (m_senderId m = user ->
            date_now - m_timestamp m <= fifteenMinutesInMs ->
            exists resp, fst res = inr resp)).
Proof.
  intros res. subst res. rewrite patch_message_cases.
  destruct (passes_validation isValid trim messageId body_content) eqn:Hv;
    simpl.
  2:{ split; [intros ? [=]|]. split; [reflexivity|]. discriminate. }
  assert (Hn : exists text, nonempty body_content = Some text).
  { unfold passes_validation in Hv.
    destruct (nonempty body_content) as [text|]; [eauto|].
    rewrite andb_false_r in Hv. discriminate. }
  destruct Hn as [text Hn]. rewrite Hn.
  destruct (find_message messageId (messages w)) as [m|] eqn:Hf; simpl.
  2:{ split; [intros ? [=]|]. split; [reflexivity|]. discriminate. }
  pose proof (find_message_id _ _ _ Hf) as Hid.
  destruct (String.eqb_spec (m_senderId m) user) as [Hs|Hs]; simpl.
  2:{ split; [intros ? [=]|]. split; [reflexivity|].
      intros m0 _ [= <-]. split; [eauto|]. intros; contradiction. }
  destruct (Z.ltb_spec fifteenMinutesInMs (date_now - m_timestamp m))
    as [Ha|Ha]; simpl.
  { split; [intros ? [=]|]. split; [reflexivity|].
    intros m0 _ [= <-]. split; [eauto|]. intros; lia. }
  split; [|split].
  - intros resp [= <-]. exists m, text.
    split; [reflexivity|]. split; [reflexivity|].
    split; [exact Hs|]. split; [exact Ha|].
    split; [rewrite Hid; reflexivity|].
    split; [|split; [reflexivity|]].
    + rewrite <- Hid. apply find_message_replaced; [reflexivity|].
      rewrite Hid. exact Hf.
    + rewrite Hid. unfold new_broadcasts.
      erewrite new_entries_app
        by (simpl; rewrite <- app_assoc; reflexivity).
      unfold calls. destruct (socketHandler w); reflexivity.
  - intros e [=].
  - intros m0 _ [= <-]. split.
    + intros [Hc|Hc]; [contradiction | lia].
    + intros _ _. eauto.
Qed.

Lemma post_message_outcome (user : string) (req : CreateMessageRequest)
    (newId : string) (t_create t_last : Z) (w : World) :
  post_outcome toISOString w
    (post_message isValid trim toISOString user req newId t_create t_last w).
Proof.
  unfold post_outcome, post_message.
  unfold mbind, M_bind, mret, M_ret, when_, throw.
  destruct (nonempty (rq_chatId req)) as [chat_id|]; simpl; [|reflexivity].
  destruct (isValid chat_id); simpl; [|reflexivity].
  set (text := match rq_content req with Some c => trim c | None => "" end).
  destruct (String.eqb text "" && _); simpl; [reflexivity|].
  destruct (negb (String.eqb text "") && _); simpl; [reflexivity|].
  assert (Hm : forall k : option Media -> M Response,
            (forall sm w0, messages w0 = messages w -> chats w0 = chats w ->
               socketHandler w0 = socketHandler w ->
               journal w0 = journal w ->
               post_outcome toISOString w (k sm w0)) ->
            post_outcome toISOString w
              (match
                 match rq_media req return M (option Media) with
                 | Some mr =>
                     fun w0 =>
                       match validate_media mr w0 with
                       | (inl e, w') => (inl e, w')
                       | (inr a, w') => (inr (Some a), w')
                       end
                 | None => fun w0 => (inr None, w0)
                 end w
               with
               | (inl e, w') => (inl e, w')
               | (inr a, w') => k a w'
               end)).
  { intros k Hk. destruct (rq_media req) as [mr|]; [|now apply Hk].
    unfold validate_media, throw, mret, M_ret.
    destruct (rq_type mr ≫= parse_kind); [|reflexivity].
    destruct (nonempty (rq_url mr)); [|reflexivity].
    destruct (1000 <? strlen _); [reflexivity|]. now apply Hk. }
  apply (Hm (fun stored_media w0 => _)). clear Hm.
  intros sm w0 H1 H2 H3 H4.
  assert (w0 = w) by (destruct w0, w; simpl in *; congruence). subst w0.
  unfold Chat_findById. simpl.
  destruct (find_chat chat_id (chats w)) as [c|]; simpl; [|reflexivity].
  destruct (existsb _ (participants c)); simpl; [|reflexivity].
  unfold post_outcome, broadcast, calls, record, with_messages, with_chats,
    new_payload. simpl.
  destruct (socketHandler w) eqn:Hh; simpl.
  - split; [reflexivity|]. eexists. apply new_entries_app. simpl.
    rewrite <- !app_assoc. reflexivity.
  - split; [reflexivity|]. eexists. apply new_entries_app. simpl.
    rewrite <- !app_assoc. reflexivity.
Qed.

End RouteFacts.

(** ** The routes on concrete requests *)

Section RouteExamples.

Import MessagesRoute Sample.

Lemma patch_message_sender_window_witness :
  (exists msg,
     fst (patch_message hex24 ascii_trim show_date userB (_id msg1)
            (Some "hi!") 1700000060000 1700000060001 (world1 true))
     = inl (ForbiddenError msg)
     /\ snd (patch_message hex24 ascii_trim show_date userB (_id msg1)
               (Some "hi!") 1700000060000 1700000060001 (world1 true))
        = world1 true)
  /\ (exists resp,
        fst (patch_message hex24 ascii_trim show_date userA (_id msg1)
               (Some " hi! ") 1700000060000 1700000060001 (world1 true))
        = inr resp).
Proof.
  pose proof (patch_message_sender_window hex24 ascii_trim show_date
                userB (_id msg1) (Some "hi!") 1700000060000 1700000060001
                (world1 true)) as (_ & _ & HB).
  pose proof (patch_message_sender_window hex24 ascii_trim show_date
                userA (_id msg1) (Some " hi! ") 1700000060000
                1700000060001 (world1 true)) as (_ & _ & HA).
  split.
  - destruct (HB msg1 eq_refl eq_refl) as [H _]. apply H.
    left. discriminate.
  - destruct (HA msg1 eq_refl eq_refl) as [_ H]. apply H.
    + reflexivity.
    + vm_compute. discriminate.
Defined.

(** C6, counterexample.  With no socket handler registered the sender's
    edit within the window succeeds and nothing is broadcast; and an edit
    by another participant whose content is blank is refused as a bad
    request, not as forbidden. *)
Lemma patch_message_without_broadcast_or_forbidden :
  (let res := patch_message hex24 ascii_trim show_date userA (_id msg1)
                (Some "hi!") 1700000060000 1700000060001 (world1 false) in
   fst res = inr (MessageUpdated (_id msg1) "hi!" (Some 1700000060001))
   /\ new_broadcasts (world1 false) (snd res) = []
   /\ new_entries (world1 false) (snd res)
      = [Saved (edited msg1 "hi!" 1700000060001)])
  /\ (let res := patch_message hex24 ascii_trim show_date userB (_id msg1)
                   (Some "   ") 1700000060000 1700000060001 (world1 true) in
      fst res = inl (BadRequestError "content cannot be empty")
      /\ forall msg, fst res <> inl (ForbiddenError msg)).
Proof.
  split.
  - vm_compute. repeat split; reflexivity.
  - split; [vm_compute; reflexivity|].
    intros msg. vm_compute. discriminate.
Qed.

(** The three routes on [world1]: a soft delete by the other participant
    broadcasts nothing, a hard delete by the sender broadcasts once. *)
Example delete_message_soft_and_hard :
  new_broadcasts (world1 true)
    (snd (delete_message hex24 userB (_id msg1) None 1700000060000
            (world1 true))) = []
  /\ new_broadcasts (world1 true)
       (snd (delete_message hex24 userA (_id msg1) (Some "true")
               1700000060000 (world1 true)))
     = [broadcastDeletedMessage
          {| bd_messageId := _id msg1; bd_chatId := m_chatId msg1 |}].
Proof. vm_compute. split; reflexivity. Qed.

End RouteExamples.

(** ** More on the connection manager *)

Section ManagerMore.

Import SocketManager.

(** X1.  [disconnect()] twice is [disconnect()] once; after it
    [isConnected()] is false and every [emit] only logs its warning. *)
Theorem disconnect_idempotent (w : World) :
  disconnect (disconnect w) = disconnect w
  /\ isConnected (disconnect w) = false
  /\ forall event data,
       emit event data (disconnect w)
       = log (ConsoleWarn event) (disconnect w).
Proof.
  assert (Hs : socket (disconnect w) = None).
  { destruct (socket w) as [s|] eqn:E.
    - rewrite (disconnect_some w s E). reflexivity.
    - rewrite (disconnect_none w E). exact E. }
  split; [now apply disconnect_none|].
  split.
  - unfold isConnected, socket_connected. rewrite Hs. reflexivity.
  - intros event data. unfold emit. rewrite Hs. reflexivity.
Qed.

(** X2.  A reconnect timer armed by a server-side close is not cancelled
    by [disconnect()]: with a token stored, when the timer runs after the
    caller has disconnected, a new socket is opened and the intentional
    flag is cleared again. *)
Theorem reconnect_timer_outlives_disconnect (w : World) (s : nat)
    (tok : string) :
  socket w = Some s ->
  isIntentionalDisconnect w = false ->
  truthy_token (accessToken w) = Some tok ->
  let closed := deliver_disconnect s "io server disconnect" w in
  let w' := run_reconnect_timer (disconnect closed) in
  pendingReconnects closed = S (pendingReconnects w)
  /\ socket (disconnect closed) = None
  /\ isIntentionalDisconnect (disconnect closed) = true
  /\ socket w' = Some (nextSocket w)
  /\ isIntentionalDisconnect w' = false
  /\ effects w'
     = effects w ++ [SetTimeout reconnectDelay; SocketDisconnect s;
                     IoOpen (nextSocket w) tok].
Proof.
  intros Hs Hf Ht closed w'.
  assert (Ec : closed =
    {| socket := Some s; reconnectAttempts := reconnectAttempts w;
       isIntentionalDisconnect := false;
       connected := <[s := false]> (connected w);
       nextSocket := nextSocket w; accessToken := accessToken w;
       pendingReconnects := S (pendingReconnects w);
       effects := effects w ++ [SetTimeout reconnectDelay] |}).
  { subst closed. unfold deliver_disconnect, on_disconnect. simpl.
    rewrite Hf. simpl. unfold set_pending, log, set_connected. simpl.
    rewrite Hs, Hf. reflexivity. }
  assert (Ed : disconnect closed =
    {| socket := None; reconnectAttempts := reconnectAttempts w;
       isIntentionalDisconnect := true;
       connected := <[s := false]> (<[s := false]> (connected w));
       nextSocket := nextSocket w; accessToken := accessToken w;
       pendingReconnects := S (pendingReconnects w);
       effects := (effects w ++ [SetTimeout reconnectDelay])
                  ++ [SocketDisconnect s] |}).
  { rewrite (disconnect_some closed s) by (rewrite Ec; reflexivity).
    rewrite Ec. reflexivity. }
  subst w'. rewrite Ed. unfold run_reconnect_timer. simpl.
  rewrite connect_opens with (tok := tok); [|reflexivity|exact Ht].
  rewrite Ec. simpl. rewrite <- !app_assoc.
  repeat split; reflexivity.
Qed.

Lemma reconnect_timer_outlives_disconnect_witness :
  let w := deliver_connect 1 (snd (connect (fresh (Some "jwt")))) in
  let w' := run_reconnect_timer
              (disconnect (deliver_disconnect 1 "io server disconnect" w)) in
  socket w' = Some 2%nat /\ isIntentionalDisconnect w' = false.
Proof.
  intros w w'.
  pose proof (reconnect_timer_outlives_disconnect w 1 "jwt"
                eq_refl eq_refl eq_refl) as (_ & _ & _ & H4 & H5 & _).
  split; [exact H4 | exact H5].
Defined.

(** X3.  [connect()] never touches the attempt counter, the armed timers
    or the token, and logs at most the one [io] call.  In particular,
    called while the held socket has not connected yet, it opens a second
    socket and leaves the first one as it is: nothing is disconnected. *)
Theorem connect_opens_beside_pending_socket (w : World) :
  reconnectAttempts (snd (connect w)) = reconnectAttempts w
  /\ pendingReconnects (snd (connect w)) = pendingReconnects w
  /\ accessToken (snd (connect w)) = accessToken w
  /\ (effects (snd (connect w)) = effects w
      \/ exists tok,
           effects (snd (connect w))
           = effects w ++ [IoOpen (nextSocket w) tok])
  /\ (forall s tok,
        socket w = Some s -> socket_connected w = false ->
        truthy_token (accessToken w) = Some tok ->
        fst (connect w) = Ok (nextSocket w)
        /\ socket (snd (connect w)) = Some (nextSocket w)
        /\ effects (snd (connect w))
           = effects w ++ [IoOpen (nextSocket w) tok]
        /\ (s <> nextSocket w ->
            connected (snd (connect w)) !! s = connected w !! s)).
Proof.
  split; [apply connect_attempts|].
  assert (H : forall tok, socket_connected w = false ->
            truthy_token (accessToken w) = Some tok ->
            connect w =
              (Ok (nextSocket w),
               {| socket := Some (nextSocket w);
                  reconnectAttempts := reconnectAttempts w;
                  isIntentionalDisconnect := false;
                  connected := <[nextSocket w := false]> (connected w);
                  nextSocket := S (nextSocket w);
                  accessToken := accessToken w;
                  pendingReconnects := pendingReconnects w;
                  effects := effects w ++ [IoOpen (nextSocket w) tok] |})).
  { intros tok Hc Ht. rewrite (connect_opens w tok Hc Ht). reflexivity. }
  destruct (socket_connected w) eqn:Hc.
  - destruct (socket_connected_some w Hc) as (s & Hs & _).
    rewrite (connect_when_connected w s Hs Hc). simpl.
    split; [reflexivity|]. split; [reflexivity|]. split; [now left|].
    intros ? ? ? [=].
  - destruct (truthy_token (accessToken w)) as [tok|] eqn:Ht.
    + rewrite (H tok eq_refl eq_refl). simpl.
      split; [reflexivity|]. split; [reflexivity|].
      split; [right; eauto|].
      intros s tok' _ _ [= <-].
      split; [reflexivity|]. split; [reflexivity|]. split; [reflexivity|].
      intros Hne. apply lookup_insert_ne. congruence.
    + rewrite (connect_without_token w Hc Ht). simpl.
      split; [reflexivity|]. split; [reflexivity|]. split; [now left|].
      intros ? ? ? ? [=].
Qed.

Lemma connect_opens_beside_pending_socket_witness :
  let w := snd (connect (fresh (Some "jwt"))) in
  fst (connect w) = Ok 2%nat
  /\ effects (snd (connect w)) = [IoOpen 1 "jwt"; IoOpen 2 "jwt"].
Proof.
  intros w.
  pose proof (connect_opens_beside_pending_socket w)
    as (_ & _ & _ & _ & H).
  destruct (H 1%nat "jwt" eq_refl eq_refl eq_refl) as (H1 & _ & H3 & _).
  split; [exact H1 | exact H3].
Defined.

End ManagerMore.

(** ** The socket URL *)

Section SocketUrlFacts.

Import SocketUrl.

Lemma remove_first_absent (pat s : string) :
  occurs pat s = false -> remove_first pat s = s.
Proof.
  induction s as [|c s IH]; simpl; intros H.
  - destruct pat; simpl in *; [discriminate H | reflexivity].
  - apply orb_false_iff in H. destruct H as [Hp Ho].
    rewrite Hp, (IH Ho). reflexivity.
Qed.

Lemma strip_append_slash (u : string) :
  strip_trailing_slash (u +:+ "/") = u.
Proof.
  induction u as [|c u IH]; [reflexivity|].
  destruct u as [|d u]; [reflexivity|].
  change (String c (strip_trailing_slash (String d u +:+ "/"))
          = String c (String d u)).
  rewrite IH. reflexivity.
Qed.

Lemma strip_no_slash (u : string) :
  ends_with_slash u = false -> strip_trailing_slash u = u.
Proof.
  induction u as [|c u IH]; [reflexivity|].
  destruct u as [|d u].
  - simpl. intros ->. reflexivity.
  - intros H.
    change (String c (strip_trailing_slash (String d u))
            = String c (String d u)).
    rewrite (IH H). reflexivity.
Qed.

Lemma ends_with_slash_append (u v : string) :
  v <> "" -> ends_with_slash (u +:+ v) = ends_with_slash v.
Proof.
  intros Hv. induction u as [|c u IH]; [reflexivity|].
  destruct u as [|d u].
  - destruct v; [contradiction | reflexivity].
  - change (ends_with_slash (String d u +:+ v) = ends_with_slash v).
    exact IH.
Qed.

(** The first occurrence of ["/api"] in [u +:+ "/api" +:+ r] is the one
    written out, when [u] holds none: an occurrence cannot start inside
    [u] and end in the appended text. *)
Lemma remove_first_api (u r : string) :
  occurs "/api" u = false ->
  remove_first "/api" (u +:+ "/api" +:+ r) = u +:+ r.
Proof.
  induction u as [|c u IH].
  { intros _. destruct r; reflexivity. }
  intros H. cbn [occurs] in H. apply orb_false_iff in H.
  destruct H as [Hp Ho].
  change (String c u +:+ "/api" +:+ r)
    with (String c (u +:+ "/api" +:+ r)).
  change (String c u +:+ r) with (String c (u +:+ r)).
  assert (Hn : String.prefix "/api" (String c (u +:+ "/api" +:+ r)) = false).
  { assert (Ec : forall a x y, String a x +:+ y = String a (x +:+ y))
      by reflexivity.
    assert (En : forall y : string, "" +:+ y = y) by reflexivity.
    cbn [String.prefix] in Hp |- *.
    destruct (ascii_dec "/" c); [|reflexivity].
    destruct u as [|c1 u]; rewrite ?Ec, ?En; cbn [String.prefix] in Hp |- *;
      [reflexivity|].
    destruct (ascii_dec "a" c1); [|reflexivity].
    destruct u as [|c2 u]; rewrite ?Ec, ?En; cbn [String.prefix] in Hp |- *;
      [reflexivity|].
    destruct (ascii_dec "p" c2); [|reflexivity].
    destruct u as [|c3 u]; rewrite ?Ec, ?En; cbn [String.prefix] in Hp |- *;
      [reflexivity|].
    destruct (ascii_dec "i" c3); [destruct u; discriminate Hp | reflexivity]. }
  cbn [remove_first]. rewrite Hn, (IH Ho). reflexivity.
Qed.

(** X4.  The socket URL.  With neither variable set (or both empty) it is
    ["http://localhost:5000"]; a non-empty [VITE_API_URL] wins over
    [VITE_API_BASE_URL].  For a configured address [u] that holds no
    ["/api"] and does not end in a slash, the four spellings [u], [u/],
    [u/api] and [u/api/] all give [u]. *)
Theorem getSocketUrl_strips_api (base_url : option string) (u : string) :
  (forall e, truthy (VITE_API_URL e) = None ->
             truthy (VITE_API_BASE_URL e) = None ->
             getSocketUrl e = "http://localhost:5000")
  /\ (u <> "" -> occurs "/api" u = false -> ends_with_slash u = false ->
      forall spelled,
        In spelled [u; u +:+ "/"; u +:+ "/api"; u +:+ "/api/"] ->
        getSocketUrl {| VITE_API_URL := Some spelled;
                        VITE_API_BASE_URL := base_url |} = u).
Proof.
  split.
  - intros e H1 H2. unfold getSocketUrl. rewrite H1.
    assert (E : truthy (VITE_API_BASE_URL e) = None) by exact H2.
    destruct (VITE_API_BASE_URL e) as [b|]; simpl in *.
    + destruct (String.eqb b ""); [reflexivity | discriminate].
    + reflexivity.
  - intros Hne Hocc Hslash spelled Hin.
    assert (Hnonempty : forall v, String.eqb (u +:+ v) "" = false).
    { intros v. destruct u; [contradiction | reflexivity]. }
    assert (Hu : String.eqb u "" = false).
    { destruct u; [contradiction | reflexivity]. }
    assert (Eapi : remove_first "/api" (u +:+ "/api") = u).
    { pose proof (remove_first_api u "" Hocc) as E.
      change ("/api" +:+ "") with "/api" in E. rewrite E.
      clear. induction u as [|c u IH]; [reflexivity|].
      change (String c (u +:+ "") = String c u). rewrite IH. reflexivity. }
    unfold getSocketUrl. simpl in Hin.
    destruct Hin as [<-|[<-|[<-|[<-|[]]]]]; cbn [truthy VITE_API_URL].
    + rewrite Hu. cbn [truthy]. rewrite Hu.
      rewrite (strip_no_slash u Hslash). now apply remove_first_absent.
    + rewrite Hnonempty. cbn [truthy]. rewrite Hnonempty.
      rewrite strip_append_slash. now apply remove_first_absent.
    + rewrite Hnonempty. cbn [truthy]. rewrite Hnonempty.
      rewrite strip_no_slash
        by (rewrite ends_with_slash_append; [reflexivity | discriminate]).
      exact Eapi.
    + rewrite Hnonempty. cbn [truthy]. rewrite Hnonempty.
      replace (u +:+ "/api/") with ((u +:+ "/api") +:+ "/").
      2:{ clear. induction u as [|c u IH]; [reflexivity|].
          change (String c ((u +:+ "/api") +:+ "/")
                  = String c (u +:+ "/api/")).
          rewrite IH. reflexivity. }
      rewrite strip_append_slash. exact Eapi.
Qed.

Lemma getSocketUrl_strips_api_witness :
  getSocketUrl {| VITE_API_URL := Some "https://chat.example.org/api/";
                  VITE_API_BASE_URL := None |}
  = "https://chat.example.org".
Proof.
  apply (proj2 (getSocketUrl_strips_api None "https://chat.example.org")).
  - discriminate.
  - reflexivity.
  - reflexivity.
  - simpl. tauto.
Defined.

End SocketUrlFacts.

(** ** More on the event service *)

Section ServiceMore.

Import SocketService.

Lemma set_delete_absent (h : nat) (s : HandlerSet) :
  existsb (Nat.eqb h) s = false -> set_delete h s = s.
Proof.
  unfold set_delete. induction s as [|x s IH]; simpl; [reflexivity|].
  intros H. apply orb_false_iff in H. destruct H as [Hx Hs].
  rewrite Hx. simpl. rewrite (IH Hs). reflexivity.
Qed.

Lemma set_delete_gone (h : nat) (s : HandlerSet) : ~ In h (set_delete h s).
Proof.
  unfold set_delete. intros H. apply filter_In in H. destruct H as [_ H].
  rewrite Nat.eqb_refl in H. discriminate.
Qed.

(** X5.  Subscribing and unsubscribing.  Registering a callback that is
    already registered changes nothing; the unsubscribe closure undoes a
    first registration exactly; once it has run, no ['message:new'] event
    on any socket calls that callback, and the other callbacks are
    registered as before. *)
Theorem unsubscribe_undoes_subscribe (h : nat) (st : State) :
  onNewMessage h (onNewMessage h st) = onNewMessage h st
  /\ (~ In h (messageHandlers st) ->
      offNewMessage h (onNewMessage h st) = st)
  /\ (forall s d m,
        ~ In (CallMessage h m)
             (receive s (MessageNew d) (offNewMessage h st)))
  /\ (forall h', h' <> h ->
        (In h' (messageHandlers (offNewMessage h st))
         <-> In h' (messageHandlers st))).
Proof.
  assert (Hin : forall s, existsb (Nat.eqb h) (set_add h s) = true).
  { intros s. unfold set_add. destruct (existsb (Nat.eqb h) s) eqn:E;
      [exact E|]. rewrite existsb_app. simpl.
    rewrite Nat.eqb_refl. apply orb_true_r. }
  split; [|split; [|split]].
  - unfold onNewMessage. simpl. f_equal.
    unfold set_add at 1. rewrite Hin. reflexivity.
  - intros Hn.
    assert (E : existsb (Nat.eqb h) (messageHandlers st) = false).
    { destruct (existsb _ _) eqn:E; [|reflexivity]. exfalso. apply Hn.
      apply existsb_exists in E. destruct E as (x & Hx & Ex).
      apply Nat.eqb_eq in Ex. subst x. exact Hx. }
    unfold offNewMessage, onNewMessage. simpl. unfold set_add. rewrite E.
    unfold set_delete. rewrite List.filter_app. simpl.
    rewrite Nat.eqb_refl. simpl. rewrite app_nil_r.
    fold (set_delete h (messageHandlers st)).
    rewrite (set_delete_absent h _ E). destruct st; reflexivity.
  - intros s d m H. unfold receive in H.
    destruct (default false _); [|exact H].
    apply in_concat in H. destruct H as (l & Hl & Hm).
    apply repeat_spec in Hl. subst l. simpl in Hm.
    apply in_map_iff in Hm. destruct Hm as (x & Ex & Hx).
    inversion Ex; subst x. exact (set_delete_gone h _ Hx).
  - intros h' Hne. simpl. unfold set_delete. rewrite filter_In.
    split; [tauto|]. intros H. split; [exact H|].
    apply negb_true_iff. apply Nat.eqb_neq. congruence.
Qed.

Lemma unsubscribe_undoes_subscribe_witness :
  offNewMessage 7 (onNewMessage 7 (fresh (Some "jwt")))
  = fresh (Some "jwt").
Proof.
  apply (proj1 (proj2 (unsubscribe_undoes_subscribe 7 (fresh (Some "jwt"))))).
  simpl. tauto.
Defined.

(** What a presence subscriber is handed for the wire data [d]. *)
(** X6.  Presence events are normalised.  A ['user:online'] event that
    arrives on a connected socket to which [initialize] has attached its
    listeners is handed to every registered presence callback, and to
    nothing else; whatever [status] its wire data carries, the callback
    receives status [online] with the event's user id and timestamp.
    The same holds of ['user:offline'] with status [offline]. *)
Theorem presence_status_from_event_name (s : nat) (d : SocketUserStatus)
    (st : State) :
  let shown status :=
    {| us_userId := us_userId d; us_status := status;
       us_timestamp := us_timestamp d |} in
  (forall i, In i (receive s (UserOnline d) st) ->
     exists h, In h (userStatusHandlers st)
               /\ i = CallUserStatus h (shown online))
  /\ (forall i, In i (receive s (UserOffline d) st) ->
        exists h, In h (userStatusHandlers st)
                  /\ i = CallUserStatus h (shown offline))
  /\ (forall h,
        In h (userStatusHandlers st) ->
        SocketManager.connected (manager st) !! s = Some true ->
        (0 < default 0%nat (listeners st !! s))%nat ->
        In (CallUserStatus h (shown online)) (receive s (UserOnline d) st)
        /\ In (CallUserStatus h (shown offline))
             (receive s (UserOffline d) st)).
Proof.
  intros shown. split; [|split].
  - intros i Hi. apply In_receive in Hi. destruct Hi as (_ & _ & Hi).
    simpl in Hi. apply in_map_iff in Hi. destruct Hi as (h & <- & Hh).
    exists h. split; [exact Hh | reflexivity].
  - intros i Hi. apply In_receive in Hi. destruct Hi as (_ & _ & Hi).
    simpl in Hi. apply in_map_iff in Hi. destruct Hi as (h & <- & Hh).
    exists h. split; [exact Hh | reflexivity].
  - intros h Hh Hc Hl.
    split; apply In_receive; (split; [exact Hc|]); (split; [exact Hl|]);
      simpl; apply in_map_iff; exists h; (split; [reflexivity | exact Hh]).
Qed.

Lemma presence_status_from_event_name_witness :
  let st0 := onUserStatus 3 (snd (initialize (fresh (Some "jwt")))) in
  let st := with_manager (SocketManager.deliver_connect 1 (manager st0)) st0 in
  let d := {| us_userId := "u2"; us_status := offline;
              us_timestamp := "2024-01-15T10:30:00.000Z" |} in
  In (CallUserStatus 3
        {| us_userId := "u2"; us_status := online;
           us_timestamp := "2024-01-15T10:30:00.000Z" |})
     (receive 1 (UserOnline d) st).
Proof.
  intros st0 st d.
  destruct (presence_status_from_event_name 1 d st) as (_ & _ & H).
  destruct (H 3%nat) as [Hon _].
  - simpl. left. reflexivity.
  - reflexivity.
  - vm_compute. lia.
  - exact Hon.
Defined.

(** X7.  [initialize()] does not check whether it already ran: called
    while the socket is connected it succeeds, leaves the manager as it
    is and attaches its listeners to the same socket once more, so every
    later event on that socket reaches each registered callback one more
    time than before. *)
Theorem initialize_again_doubles_delivery (st : State) (s : nat) :
  SocketManager.socket (manager st) = Some s ->
  SocketManager.socket_connected (manager st) = true ->
  fst (initialize st) = SocketManager.Ok tt
  /\ manager (snd (initialize st)) = manager st
  /\ messageHandlers (snd (initialize st)) = messageHandlers st
  /\ forall ev,
       receive s ev (snd (initialize st))
       = dispatch ev st ++ receive s ev st.
Proof.
  intros Hs Hc. unfold initialize.
  rewrite (connect_when_connected _ s Hs Hc). simpl.
  split; [reflexivity|]. split; [reflexivity|]. split; [reflexivity|].
  intros ev. unfold receive. simpl.
  assert (Hcon : SocketManager.connected (manager st) !! s = Some true).
  { destruct (socket_connected_some _ Hc) as (s' & Hs' & Hc').
    congruence. }
  rewrite Hcon. simpl. rewrite lookup_insert_eq. simpl.
  assert (E : forall ev0,
            dispatch ev0
              {| manager := manager st;
                 messageHandlers := messageHandlers st;
                 userStatusHandlers := userStatusHandlers st;
                 typingHandlers := typingHandlers st;
                 messageEditedHandlers := messageEditedHandlers st;
                 messageDeletedHandlers := messageDeletedHandlers st;
                 listeners :=
                   <[s := S (default 0%nat (listeners st !! s))]>
                     (listeners st) |}
            = dispatch ev0 st) by (intros []; reflexivity).
  rewrite E. reflexivity.
Qed.

Lemma initialize_again_doubles_delivery_witness :
  let st0 := onNewMessage 7 (snd (initialize (fresh (Some "jwt")))) in
  let st := with_manager (SocketManager.deliver_connect 1 (manager st0)) st0 in
  receive 1 (MessageNew MainChat.sample_echo) (snd (initialize st))
  = [CallMessage 7 (to_message MainChat.sample_echo);
     CallMessage 7 (to_message MainChat.sample_echo)].
Proof.
  intros st0 st.
  pose proof (initialize_again_doubles_delivery st 1 eq_refl eq_refl)
    as (_ & _ & _ & H).
  rewrite H. reflexivity.
Defined.

End ServiceMore.

(** ** History pages, presence and the chat list *)

Section ChatPageFacts.

Import MainChat ChatPage.

Lemma load_pages_snoc (chat : string)
    (pages : list (list MessageWithSenderResponse))
    (page : list MessageWithSenderResponse) (st : Page) :
  pages <> [] ->
  load_pages chat (pages ++ [page]) st
  = load_more page (load_pages chat pages st).
Proof.
  destruct pages as [|first rest]; [contradiction|]. intros _.
  simpl. rewrite fold_left_app. reflexivity.
Qed.

(** X8.  Paging keeps the history in order.  After a chat is opened and
    the user has scrolled up through pages that the server answered
    newest-first, every page but the last being full (50 messages), the
    list is the reverse of all pages put together (oldest message first),
    the offset is the number of messages loaded, nothing is loading, and
    more is offered exactly when the last page was full. *)
Theorem load_pages_chronological (chat : string)
    (fulls : list (list MessageWithSenderResponse))
    (last : list MessageWithSenderResponse) (st : Page) :
  chat <> "" ->
  Forall (fun page => length page = 50%nat) fulls ->
  let st' := load_pages chat (fulls ++ [last]) st in
  messages st' = rev (concat (fulls ++ [last]))
  /\ messagesOffset st' = Z.of_nat (length (concat (fulls ++ [last])))
  /\ hasMoreMessages st' = Nat.eqb (length last) 50
  /\ messagesLoading st' = false
  /\ selectedChatId st' = Some chat.
Proof.
  intros Hc. revert last.
  induction fulls as [|full fulls IH] using rev_ind; intros last Hf st'.
  - subst st'. simpl. rewrite app_nil_r.
    repeat split; reflexivity.
  - apply Forall_app in Hf. destruct Hf as [Hf Hfull].
    inversion Hfull as [|? ? Hlen _]; subst.
    destruct (IH full Hf) as (Hm & Ho & Hh & Hl & Hs).
    subst st'. rewrite load_pages_snoc by (destruct fulls; discriminate).
    set (mid := load_pages chat (fulls ++ [full]) st) in *.
    assert (Hreq : handleLoadMoreMessages mid
                   = Some (chat, messagesOffset mid)).
    { unfold handleLoadMoreMessages. rewrite Hs, Hh, Hl, Hlen.
      assert (E : String.eqb chat "" = false)
        by (apply String.eqb_neq; exact Hc).
      rewrite E. reflexivity. }
    unfold load_more. rewrite Hreq.
    assert (Hpos : (messagesOffset mid =? 0) = false).
    { rewrite Ho. rewrite concat_app, length_app. simpl.
      rewrite app_nil_r, Hlen. apply Z.eqb_neq. lia. }
    unfold loadMessages_resolve. simpl. rewrite Hpos, Hm, Ho.
    split; [|split; [|split; [|split]]]; try reflexivity.
    + rewrite (concat_app (fulls ++ [full]) [last]). simpl.
      rewrite app_nil_r, rev_app_distr. reflexivity.
    + rewrite (concat_app (fulls ++ [full]) [last]). simpl.
      rewrite app_nil_r, (length_app (concat (fulls ++ [full]))). lia.
    + exact Hs.
Qed.

Lemma load_pages_chronological_witness :
  let a := messageWithSender sample_data in
  let b := tempMessage "c1" sample_user "older" 1700000000000
             "2023-11-14T22:13:20.000Z" in
  messages
    (load_pages "c1" [repeat a 50; [b]]
       {| selectedChatId := None; messages := []; hasMoreMessages := false;
          messagesOffset := 0; messagesLoading := false |})
  = b :: repeat a 50.
Proof.
  intros a b.
  pose proof (load_pages_chronological "c1" [repeat a 50] [b]
                {| selectedChatId := None; messages := [];
                   hasMoreMessages := false; messagesOffset := 0;
                   messagesLoading := false |}) as H.
  destruct H as (Hm & _).
  - discriminate.
  - constructor; [reflexivity | constructor].
  - etransitivity; [exact Hm | reflexivity].
Defined.

Lemma last_status_some (u : string) (events : list SocketUserStatus)
    (x : PresenceStatus) :
  last_status u events (Some x) <> None.
Proof.
  revert x. induction events as [|e events IH]; intros x; simpl.
  - discriminate.
  - destruct (String.eqb (us_userId e) u); apply IH.
Qed.

(** X9.  Presence is last-writer-wins per user: after any sequence of
    presence events, a user is in the online set exactly when the latest
    event about that user said [online], or, with no event about the
    user, when the user was in the set before. *)
Theorem online_iff_last_status (events : list SocketUserStatus)
    (before : gset string) (u : string) :
  u ∈ fold_left (fun acc e => onUserStatus e acc) events before
  <-> match last_status u events None with
      | Some online => True
      | Some offline => False
      | None => u ∈ before
      end.
Proof.
  assert (G : forall acc prev,
    (match acc with
     | Some online => u ∈ prev
     | Some offline => u ∉ prev
     | None => True
     end) ->
    (u ∈ fold_left (fun a e => onUserStatus e a) events prev
     <-> match last_status u events acc with
         | Some online => True
         | Some offline => False
         | None => u ∈ prev
         end)).
  { induction events as [|e events IH]; intros acc prev Hacc; simpl.
    - destruct acc as [[|]|]; tauto.
    - destruct (String.eqb_spec (us_userId e) u) as [E|E].
      + rewrite (IH (Some (us_status e)) (onUserStatus e prev)).
        * pose proof (last_status_some u events (us_status e)) as Hn.
          destruct (last_status u events (Some (us_status e)))
            as [[|]|]; tauto.
        * unfold onUserStatus. destruct (us_status e).
          -- apply elem_of_union. right. apply elem_of_singleton.
             symmetry. exact E.
          -- rewrite elem_of_difference, elem_of_singleton.
             intros [_ Hn]. apply Hn. symmetry. exact E.
      + assert (Hsame : u ∈ onUserStatus e prev <-> u ∈ prev).
        { unfold onUserStatus. destruct (us_status e).
          - rewrite elem_of_union, elem_of_singleton.
            split; [intros [H|H]; [exact H | congruence] | tauto].
          - rewrite elem_of_difference, elem_of_singleton.
            split; [tauto | intros H; split; [exact H | congruence]]. }
        rewrite (IH acc (onUserStatus e prev)).
        * destruct (last_status u events acc) as [[|]|]; tauto.
        * destruct acc as [[|]|]; tauto. }
  apply (G None before). exact I.
Qed.

End ChatPageFacts.

(** ** Edits, deletions and rollbacks in the message list *)

Section MessageListMore.

Import MainChat ChatPage.

Lemma filter_id_absent (i : string) (l : Messages) :
  entries_with i l = 0%nat ->
  List.filter (fun m => negb (String.eqb (w_id m) i)) l = l.
Proof.
  intros H. apply entries_with_zero in H.
  induction l as [|x l IH]; simpl in *; [reflexivity|].
  apply orb_false_iff in H. destruct H as [Hx Hl].
  rewrite Hx. simpl. rewrite (IH Hl). reflexivity.
Qed.

(** X10.  A deleted message leaves the view: after the deleted handler no
    entry carries the id, a second delivery changes nothing, and a
    message that was pushed and then deleted leaves the list exactly as
    it was before the push. *)
Theorem deleted_message_leaves_view (d : DeletedMessageData)
    (prev : Messages) :
  entries_with (dl_messageId d) (onMessageDeleted d prev) = 0%nat
  /\ onMessageDeleted d (onMessageDeleted d prev) = onMessageDeleted d prev
  /\ (forall message,
        id message = dl_messageId d ->
        entries_with (id message) prev = 0%nat ->
        onMessageDeleted d (onNewMessage message prev) = prev).
Proof.
  assert (H0 : entries_with (dl_messageId d) (onMessageDeleted d prev)
               = 0%nat).
  { apply entries_with_zero. unfold onMessageDeleted.
    induction prev as [|x l IH]; simpl; [reflexivity|].
    destruct (String.eqb (w_id x) (dl_messageId d)) eqn:E; simpl.
    - exact IH.
    - rewrite E, IH. reflexivity. }
  split; [exact H0|]. split.
  - unfold onMessageDeleted at 1. apply filter_id_absent. exact H0.
  - intros message Hid Hz.
    rewrite onNewMessage_absent by (apply entries_with_zero; exact Hz).
    unfold onMessageDeleted. rewrite List.filter_app. simpl.
    rewrite Hid, String.eqb_refl. simpl. rewrite app_nil_r.
    apply filter_id_absent. rewrite <- Hid. exact Hz.
Qed.

Lemma deleted_message_leaves_view_witness :
  onMessageDeleted {| dl_messageId := "m1"; dl_chatId := "c1" |}
    (onNewMessage sample_data []) = [].
Proof.
  apply (proj2 (proj2 (deleted_message_leaves_view
                         {| dl_messageId := "m1"; dl_chatId := "c1" |} []))).
  - reflexivity.
  - reflexivity.
Defined.

(** X11.  An edit event rewrites the content and the edit time of the
    entries with its id and nothing else: the list keeps its length and
    order, every other field and every other entry is as before, an id
    that is not in the list changes nothing.  That includes an edit that
    arrives before its message: it is lost, and the message pushed
    afterwards is shown with its original content. *)
Theorem edited_message_rewrites_in_place (e : EditedMessageData)
    (prev : Messages) :
  Forall2 (edited_from e) prev (onMessageEdited e prev)
  /\ (entries_with (ed_messageId e) prev = 0%nat ->
      onMessageEdited e prev = prev)
  /\ (forall message,
        id message = ed_messageId e ->
        entries_with (id message) prev = 0%nat ->
        onNewMessage message (onMessageEdited e prev)
        = prev ++ [messageWithSender message]).
Proof.
  assert (Habs : entries_with (ed_messageId e) prev = 0%nat ->
                 onMessageEdited e prev = prev).
  { intros H. apply entries_with_zero in H. unfold onMessageEdited.
    induction prev as [|x l IH]; simpl in *; [reflexivity|].
    apply orb_false_iff in H. destruct H as [Hx Hl].
    rewrite Hx, (IH Hl). reflexivity. }
  split; [|split; [exact Habs|]].
  - unfold onMessageEdited. clear Habs.
    induction prev as [|x l IH]; simpl; constructor; [|exact IH].
    unfold edited_from.
    destruct (String.eqb (w_id x) (ed_messageId e)); simpl;
      repeat split; reflexivity.
  - intros message Hid Hz. rewrite Habs by (rewrite <- Hid; exact Hz).
    apply onNewMessage_absent. apply entries_with_zero. exact Hz.
Qed.

Lemma edited_message_rewrites_in_place_witness :
  let e := {| ed_messageId := "m1"; ed_chatId := "c1";
              ed_content := "hi!";
              ed_editedAt := "2023-11-14T22:14:00.000Z" |} in
  onNewMessage sample_data (onMessageEdited e [])
  = [messageWithSender sample_data].
Proof.
  intros e.
  apply (proj2 (proj2 (edited_message_rewrites_in_place e []))).
  - reflexivity.
  - reflexivity.
Defined.

(** X12.  An edit and a deletion give the same list in either order of
    arrival, whether or not they concern the same message. *)
Theorem edit_and_delete_commute (e : EditedMessageData)
    (d : DeletedMessageData) (prev : Messages) :
  onMessageDeleted d (onMessageEdited e prev)
  = onMessageEdited e (onMessageDeleted d prev).
Proof.
  unfold onMessageDeleted, onMessageEdited.
  induction prev as [|x l IH]; simpl; [reflexivity|].
  destruct (String.eqb (w_id x) (ed_messageId e)) eqn:Ee; simpl;
    destruct (String.eqb (w_id x) (dl_messageId d)) eqn:Ed; simpl;
    rewrite ?Ee, IH; reflexivity.
Qed.

(** X13.  A send that fails is rolled back: when no entry of the list
    carries the temporary id, removing it after the optimistic append
    gives the list back, and in any list the removal takes out exactly
    the entries with the temporary id. *)
Theorem failed_send_restores_list (tmp : MessageWithSenderResponse)
    (prev : Messages) :
  (entries_with (w_id tmp) prev = 0%nat ->
   drop_temp (w_id tmp) (append_temp tmp prev) = prev)
  /\ entries_with (w_id tmp) (drop_temp (w_id tmp) (append_temp tmp prev))
     = 0%nat
  /\ forall i, i <> w_id tmp ->
       entries_with i (drop_temp (w_id tmp) (append_temp tmp prev))
       = entries_with i prev.
Proof.
  unfold drop_temp, append_temp.
  assert (E : List.filter
                (fun m => negb (String.eqb (w_id m) (w_id tmp)))
                (prev ++ [tmp])
              = List.filter
                  (fun m => negb (String.eqb (w_id m) (w_id tmp))) prev).
  { rewrite List.filter_app. simpl. rewrite String.eqb_refl. simpl.
    apply app_nil_r. }
  rewrite E. clear E. split; [apply filter_id_absent|]. split.
  - apply entries_with_zero.
    induction prev as [|x l IH]; simpl; [reflexivity|].
    destruct (String.eqb (w_id x) (w_id tmp)) eqn:Ex; simpl;
      [exact IH|]. rewrite Ex, IH. reflexivity.
  - intros i Hi. unfold entries_with.
    induction prev as [|x l IH]; simpl; [reflexivity|].
    destruct (String.eqb (w_id x) (w_id tmp)) eqn:Ex; simpl.
    + apply String.eqb_eq in Ex.
      assert (Ei : String.eqb (w_id x) i = false)
        by (apply String.eqb_neq; congruence).
      rewrite Ei. exact IH.
    + destruct (String.eqb (w_id x) i); simpl; rewrite IH; reflexivity.
Qed.

Lemma failed_send_restores_list_witness :
  let tmp := tempMessage "c1" sample_user "hi" 1700000000000
               "2023-11-14T22:13:20.000Z" in
  drop_temp (w_id tmp)
    (append_temp tmp [messageWithSender sample_data])
  = [messageWithSender sample_data].
Proof.
  intros tmp.
  apply (proj1 (failed_send_restores_list tmp
                  [messageWithSender sample_data])).
  vm_compute. reflexivity.
Defined.

End MessageListMore.

(** ** The chat list under pushed messages *)

Section ChatListFacts.

Import MainChat ChatPage.

Lemma Forall2_compose {A : Type} (R1 R2 R3 : A -> A -> Prop)
    (l1 l2 l3 : list A) :
  (forall a b c, R1 a b -> R2 b c -> R3 a c) ->
  Forall2 R1 l1 l2 -> Forall2 R2 l2 l3 -> Forall2 R3 l1 l3.
Proof.
  intros H H12. revert l3. induction H12 as [|a b l1 l2 Hab _ IH];
    intros l3 H23; inversion H23; subst; constructor; eauto.
Qed.

Lemma delivered_once (u : User) (message : MessageResponse)
    (chats : list ChatResponseData) :
  Forall2 (delivered u message 1) chats (chats_onNewMessage u message chats).
Proof.
  unfold chats_onNewMessage.
  induction chats as [|c l IH]; simpl; constructor; [|exact IH].
  unfold delivered.
  destruct (String.eqb (chat_id c) (chatId message)); simpl;
    [|repeat split; reflexivity].
  split; [reflexivity|]. split; [reflexivity|]. split; [reflexivity|].
  destruct (String.eqb (senderId message) (user_id u)); simpl.
  - split; [reflexivity|]. reflexivity.
  - split.
    + intros v Hv. apply lookup_insert_ne. congruence.
    + unfold unread_of at 1. simpl. rewrite lookup_insert_eq. reflexivity.
Qed.

(** X14.  The unread counter counts deliveries, not messages.  [n]
    deliveries of one pushed message leave every other chat untouched
    and, in the chat of the message, set the preview to it, leave the
    counters of other users alone and raise the current user's counter
    by [n] when somebody else sent it (by nothing for an own message) -
    while the message list, which dedupes by id, holds the message
    once. *)
Theorem unread_counts_every_delivery (u : User) (message : MessageResponse)
    (n : nat) (chats : list ChatResponseData) (prev : Messages) :
  Forall2 (delivered u message n) chats
    (Nat.iter n (chats_onNewMessage u message) chats)
  /\ (entries_with (id message) prev = 0%nat -> n <> 0%nat ->
      entries_with (id message) (Nat.iter n (onNewMessage message) prev)
      = 1%nat).
Proof.
  split.
  - induction n as [|n IH].
    + simpl. induction chats as [|c l IHl]; constructor; [|exact IHl].
      unfold delivered. rewrite andb_false_r. repeat split; reflexivity.
    + cbn [Nat.iter].
      eapply (Forall2_compose (delivered u message n)
                (delivered u message 1));
        [|exact IH|apply delivered_once].
      clear. intros a b c (Hi1 & Hp1 & H1) (Hi2 & Hp2 & H2).
      unfold delivered.
      split; [congruence|]. split; [congruence|].
      rewrite Hi1 in H2. rewrite andb_true_r in H2.
      destruct (String.eqb (chat_id a) (chatId message)); simpl in *;
        [|congruence].
      destruct H2 as (Hl2 & Ho2 & Hu2).
      split; [exact Hl2|].
      destruct n as [|n]; simpl in H1.
      * subst b. split; [exact Ho2|]. rewrite Hu2.
        destruct (String.eqb (senderId message) (user_id u)); reflexivity.
      * destruct H1 as (_ & Ho1 & Hu1). split.
        -- intros v Hv. rewrite (Ho2 v Hv). apply Ho1. exact Hv.
        -- rewrite Hu2, Hu1.
           destruct (String.eqb (senderId message) (user_id u));
             [reflexivity | lia].
  - intros Hz Hn. destruct n as [|n]; [contradiction|].
    assert (H1 : entries_with (id message) (onNewMessage message prev)
                 = 1%nat).
    { rewrite onNewMessage_absent by (apply entries_with_zero; exact Hz).
      rewrite entries_with_app, Hz. unfold entries_with. simpl.
      rewrite String.eqb_refl. reflexivity. }
    assert (Hfix : forall k,
              Nat.iter (S k) (onNewMessage message) prev
              = onNewMessage message prev).
    { induction k as [|k IHk]; [reflexivity|].
      change (onNewMessage message
                (Nat.iter (S k) (onNewMessage message) prev)
              = onNewMessage message prev).
      rewrite IHk. apply onNewMessage_present.
      destruct (existsb _ (onNewMessage message prev)) eqn:E;
        [reflexivity|].
      apply entries_with_zero in E. rewrite H1 in E. discriminate. }
    rewrite Hfix. exact H1.
Qed.

Lemma unread_counts_every_delivery_witness :
  entries_with "m1" (Nat.iter 2 (onNewMessage sample_data) []) = 1%nat.
Proof.
  apply (proj2 (unread_counts_every_delivery sample_user sample_data 2
                  [] [])).
  - reflexivity.
  - discriminate.
Defined.

End ChatListFacts.

(** ** Teardown and independence of the typing timers *)

Section TypingMore.

Import Typing TypingTeardown.

Lemma clear_fold (entries : list (string * nat)) (s : State) :
  let s' := fold_left (fun acc entry => clearTimeout (snd entry) acc)
              entries s in
  typingUsers s' = typingUsers s /\ nextHandle s' = nextHandle s
  /\ now s' = now s /\ autoCleared s' = autoCleared s
  /\ armed s'
     = List.filter
         (fun t => negb (existsb (fun e => Nat.eqb (handle t) (snd e))
                           entries))
         (armed s).
Proof.
  revert s. induction entries as [|e entries IH]; intros s; simpl.
  - repeat split; try reflexivity.
    induction (armed s) as [|t l IHl]; simpl; [reflexivity|].
    rewrite <- IHl. reflexivity.
  - destruct (IH (clearTimeout (snd e) s)) as (H1 & H2 & H3 & H4 & H5).
    simpl in *. repeat split; try assumption.
    rewrite H5. clear. induction (armed s) as [|t l IHl]; simpl;
      [reflexivity|].
    destruct (Nat.eqb (handle t) (snd e)); simpl; rewrite IHl; reflexivity.
Qed.

(** X15.  The effect cleanup cancels every pending expiry and empties
    the timer map, but leaves the typing set as it is: in any state the
    handler and the clock can reach, after the cleanup no timer is armed,
    and however much time passes afterwards nobody is removed from the
    typing set and no expiry callback runs. *)
Theorem cleanup_cancels_every_expiry (sel : option string) (t0 : Z)
    (steps : list Step) (d : Z) :
  let s := run sel steps (initial t0) in
  armed (cleanup s) = []
  /\ typingTimeoutRef (cleanup s) = ∅
  /\ typingUsers (cleanup s) = typingUsers s
  /\ typingUsers (elapse d (cleanup s)) = typingUsers s
  /\ autoCleared (elapse d (cleanup s)) = autoCleared s.
Proof.
  intros s.
  destruct (Inv_run sel steps (fun _ => None) (initial t0) (Inv_initial t0))
    as [I _].
  fold s in I. clearbody s.
  destruct (clear_fold (map_to_list (typingTimeoutRef s)) s)
    as (H1 & H2 & H3 & H4 & H5).
  assert (Ha : armed (cleanup s) = []).
  { unfold cleanup. simpl. rewrite H5. apply filter_none.
    intros tm Hin. apply negb_false_iff. apply existsb_exists.
    destruct (inv_armed _ _ I tm Hin) as (_ & _ & Href & _).
    exists (timer_user tm, handle tm). split.
    - apply list_elem_of_In. apply elem_of_map_to_list. exact Href.
    - apply Nat.eqb_refl. }
  assert (Hu : typingUsers (cleanup s) = typingUsers s) by exact H1.
  assert (Hc : autoCleared (cleanup s) = autoCleared s) by exact H4.
  split; [exact Ha|]. split; [reflexivity|]. split; [exact Hu|].
  unfold elapse. rewrite Ha. simpl. split; [exact Hu | exact Hc].
Qed.

Lemma filter_filter_implied {A : Type} (p q : A -> bool) (l : list A) :
  (forall x, In x l -> p x = true -> q x = true) ->
  List.filter p (List.filter q l) = List.filter p l.
Proof.
  induction l as [|x l IH]; simpl; intros H; [reflexivity|].
  assert (IH' : List.filter p (List.filter q l) = List.filter p l).
  { apply IH. intros y Hy. apply H. now right. }
  destruct (p x) eqn:Ep.
  - rewrite (H x (or_introl eq_refl) Ep). simpl. rewrite Ep, IH'.
    reflexivity.
  - destruct (q x); simpl; rewrite ?Ep; exact IH'.
Qed.

(** X16.  Typing events of one user never touch another: in any reachable
    state, whatever event about [u] arrives, every other user is in the
    typing set exactly as before, with the same armed timer and the same
    entry in the timer map. *)
Theorem typing_event_leaves_others (sel : option string) (t0 : Z)
    (steps : list Step) (event : SocketTypingEvent) (v : string) :
  v <> ty_userId event ->
  let s := run sel steps (initial t0) in
  let s' := onTyping sel event s in
  (v ∈ typingUsers s' <-> v ∈ typingUsers s)
  /\ armed_for v s' = armed_for v s
  /\ typingTimeoutRef s' !! v = typingTimeoutRef s !! v.
Proof.
  intros Hv s s'.
  destruct (Inv_run sel steps (fun _ => None) (initial t0) (Inv_initial t0))
    as [I _].
  fold s in I. clearbody s. subst s'.
  assert (Hkeep : List.filter (fun tm => String.eqb (timer_user tm) v)
                    (after_clear (ty_userId event) s)
                  = armed_for v s).
  { unfold armed_for, after_clear.
    destruct (typingTimeoutRef s !! ty_userId event) as [h|] eqn:R;
      [|reflexivity].
    apply filter_filter_implied. intros tm Hin Hu.
    apply String.eqb_eq in Hu.
    pose proof (kept_for_others _ s (ty_userId event) tm I Hin) as K.
    rewrite R in K. assert (Hne : timer_user tm <> ty_userId event)
      by congruence.
    apply K in Hne. apply filter_In in Hne. tauto. }
  assert (Hvu : String.eqb (ty_userId event) v = false)
    by (apply String.eqb_neq; congruence).
  destruct (chat_open sel event) eqn:Ho.
  2:{ rewrite onTyping_ignored by exact Ho. tauto. }
  destruct (ty_isTyping event) eqn:Ht.
  - rewrite onTyping_start by assumption. unfold armed_for. simpl.
    split; [|split].
    + rewrite elem_of_union, elem_of_singleton. tauto.
    + rewrite List.filter_app. simpl. rewrite Hvu, app_nil_r. exact Hkeep.
    + apply lookup_insert_ne. congruence.
  - rewrite onTyping_stop by assumption. unfold armed_for. simpl.
    split; [|split].
    + rewrite elem_of_difference, elem_of_singleton. tauto.
    + exact Hkeep.
    + apply lookup_delete_ne. congruence.
Qed.

Lemma typing_event_leaves_others_witness :
  let s := run (Some "c1") [Recv (typing_on "u2")] (initial 0) in
  "u2" ∈ typingUsers
           (onTyping (Some "c1")
              {| ty_userId := "u3"; ty_chatId := "c1";
                 ty_isTyping := false |} s).
Proof.
  intros s.
  apply (proj1 (typing_event_leaves_others (Some "c1") 0
                  [Recv (typing_on "u2")]
                  {| ty_userId := "u3"; ty_chatId := "c1";
                     ty_isTyping := false |} "u2" ltac:(discriminate))).
  apply (bool_decide_unpack _). vm_compute. exact I.
Defined.

Lemma cleanup_disarms (sel : option string) (t0 : Z) (steps : list Step) :
  let s := run sel steps (initial t0) in
  armed (cleanup s) = [] /\ typingUsers (cleanup s) = typingUsers s
  /\ autoCleared (cleanup s) = autoCleared s.
Proof.
  intros s.
  destruct (Inv_run sel steps (fun _ => None) (initial t0) (Inv_initial t0))
    as [I _].
  fold s in I. clearbody s.
  destruct (clear_fold (map_to_list (typingTimeoutRef s)) s)
    as (H1 & _ & _ & H4 & H5).
  split; [|split; [exact H1 | exact H4]].
  unfold cleanup. simpl. rewrite H5. apply filter_none.
  intros tm Hin. apply negb_false_iff. apply existsb_exists.
  destruct (inv_armed _ _ I tm Hin) as (_ & _ & Href & _).
  exists (timer_user tm, handle tm). split.
  - apply list_elem_of_In. apply elem_of_map_to_list. exact Href.
  - apply Nat.eqb_refl.
Qed.

Lemma after_clear_none_for (u v : string) (s : State) :
  armed_for u s = [] ->
  List.filter (fun tm => String.eqb (timer_user tm) u) (after_clear v s)
  = [].
Proof.
  unfold armed_for, after_clear. intros H.
  destruct (typingTimeoutRef s !! v) as [h|]; [|exact H].
  rewrite filter_swap, H. reflexivity.
Qed.

(** One quiet step keeps a user who has no timer in the typing set. *)
Lemma stuck_step (sel : option string) (u : string) (st : Step)
    (s : State) :
  quiet_about sel u st ->
  u ∈ typingUsers s -> armed_for u s = [] ->
  u ∈ typingUsers (step sel st s) /\ armed_for u (step sel st s) = []
  /\ auto_clears u (step sel st s) = auto_clears u s.
Proof.
  intros Hq Hu Ha. destruct st as [event|d]; simpl in *.
  - destruct (chat_open sel event) eqn:Ho.
    + assert (Hne : ty_userId event <> u).
      { unfold accepts in Hq. unfold chat_open in Ho.
        destruct sel as [c|]; [|discriminate].
        rewrite Ho in Hq. simpl in Hq. apply String.eqb_neq. exact Hq. }
      assert (Hnew : String.eqb (ty_userId event) u = false)
        by (apply String.eqb_neq; exact Hne).
      destruct (ty_isTyping event) eqn:Ht.
      * rewrite (onTyping_start sel event s Ho Ht).
        unfold armed_for, auto_clears. simpl.
        split; [set_solver|]. split; [|reflexivity].
        rewrite List.filter_app, (after_clear_none_for u _ s Ha). simpl.
        rewrite Hnew. reflexivity.
      * rewrite (onTyping_stop sel event s Ho Ht).
        unfold armed_for, auto_clears. simpl.
        split; [set_solver|]. split; [|reflexivity].
        apply (after_clear_none_for u _ s Ha).
    + rewrite (onTyping_ignored sel event s Ho). auto.
  - split; [|split].
    + apply typing_elapse. rewrite Ha. split; [exact Hu | reflexivity].
    + rewrite armed_for_elapse, Ha. reflexivity.
    + rewrite auto_clears_elapse, Ha. simpl. lia.
Qed.

(** C5.  The typing set outlives the effect that owns its timers.  When
    the effect is re-run while the chat stays open, its cleanup cancels
    every expiry timer and leaves the typing set as it is.  A user who
    was shown as typing then stays in the set however much time passes
    and whatever arrives about other users or other chats: no timer is
    armed for the user and the expiry callback never runs for them.
    Only a new event about that user in the open chat changes this. *)
Theorem typing_outlives_effect_rerun (sel : option string) (t0 : Z)
    (steps later : list Step) (u : string) :
  let s := run sel steps (initial t0) in
  u ∈ typingUsers s ->
  Forall (quiet_about sel u) later ->
  let s' := rerun sel later s in
  u ∈ typingUsers s' /\ armed_for u s' = []
  /\ auto_clears u s' = auto_clears u s.
Proof.
  intros s Hu Hq s'. subst s'. unfold rerun.
  destruct (cleanup_disarms sel t0 steps) as (Ha & Ht & Hc).
  fold s in Ha, Ht, Hc.
  assert (G : forall x,
            u ∈ typingUsers x -> armed_for u x = [] ->
            u ∈ typingUsers (run sel later x)
            /\ armed_for u (run sel later x) = []
            /\ auto_clears u (run sel later x) = auto_clears u x).
  { clear Ha Ht Hc Hu. induction later as [|st rest IH]; intros x Hx Hax.
    - simpl. auto.
    - inversion Hq as [|? ? Hst Hrest]; subst.
      destruct (stuck_step sel u st x Hst Hx Hax) as (H1 & H2 & H3).
      destruct (IH Hrest _ H1 H2) as (H4 & H5 & H6).
      simpl. fold (run sel rest (step sel st x)).
      split; [exact H4|]. split; [exact H5|]. rewrite H6. exact H3. }
  destruct (G (cleanup s)) as (H1 & H2 & H3).
  - rewrite Ht. exact Hu.
  - unfold armed_for. rewrite Ha. reflexivity.
  - split; [exact H1|]. split; [exact H2|].
    rewrite H3. unfold auto_clears. rewrite Hc. reflexivity.
Qed.

Lemma typing_outlives_effect_rerun_witness :
  let sel := Some "c1" in
  let steps := [Recv (typing_on "u2"); Wait 1000] in
  let later := [Wait 60000; Recv (typing_on "u3"); Wait 60000] in
  let s' := rerun sel later (run sel steps (initial 0)) in
  "u2" ∈ typingUsers s' /\ now s' = 121000
  /\ auto_clears "u2" s' = 0%nat.
Proof.
  intros sel steps later s'.
  destruct (typing_outlives_effect_rerun sel 0 steps later "u2")
    as (H1 & _ & H3).
  - apply (bool_decide_unpack _). vm_compute. exact I.
  - repeat constructor.
  - split; [exact H1|]. split; [vm_compute; reflexivity|].
    etransitivity; [exact H3|]. vm_compute. reflexivity.
Defined.

End TypingMore.

(** ** The composer's typing signals and file limits *)

Section ComposerFacts.

Import MessageComposer.

Variable trim : string -> string.

Lemma change_nonempty (value : string) (s : State) :
  value <> "" -> one_timer s ->
  handleMessageChange value s =
    {| message := value; selectedFile := selectedFile s;
       isSending := isSending s;
       typingTimeoutRef := Some (nextHandle s);
       armed := [{| handle := nextHandle s; due := now s + stop_delay |}];
       nextHandle := S (nextHandle s); now := now s;
       calls := calls s ++ [OnTyping] |}.
Proof.
  intros Hv H. unfold handleMessageChange.
  assert (E : (0 <? String.length value)%nat = true)
    by (destruct value; [contradiction | reflexivity]).
  rewrite E. destruct H as [Ea|(t & Ea & R & _)].
  - destruct (typingTimeoutRef s); simpl; rewrite Ea; reflexivity.
  - rewrite R. simpl. rewrite Ea. simpl. rewrite Nat.eqb_refl. reflexivity.
Qed.

Lemma change_empty (s : State) :
  one_timer s ->
  handleMessageChange "" s =
    {| message := ""; selectedFile := selectedFile s;
       isSending := isSending s;
       typingTimeoutRef := typingTimeoutRef s;
       armed := []; nextHandle := nextHandle s; now := now s;
       calls := calls s ++ [OnStopTyping] |}.
Proof.
  intros H. unfold handleMessageChange. simpl.
  destruct H as [Ea|(t & Ea & R & _)].
  - destruct (typingTimeoutRef s); unfold call; simpl; rewrite Ea;
      reflexivity.
  - rewrite R. unfold call. simpl. rewrite Ea. simpl.
    rewrite Nat.eqb_refl. reflexivity.
Qed.

Lemma one_timer_step (st : Step) (s : State) :
  one_timer s -> one_timer (step trim st s).
Proof.
  intros H. destruct st as [value|d|chosen| |disabled|ok]; simpl.
  - destruct (string_dec value "") as [->|Hv].
    + rewrite (change_empty s H). left. reflexivity.
    + rewrite (change_nonempty value s Hv H). right.
      eexists. split; [reflexivity|]. split; [reflexivity|].
      simpl. unfold stop_delay. lia.
  - unfold elapse. destruct H as [E|(t & E & R & Hd)].
    + left. simpl. rewrite E. reflexivity.
    + simpl. rewrite E. simpl.
      destruct (Z.leb_spec (due t) (now s + Z.max 0 d)); simpl.
      * now left.
      * right. exists t. repeat split; assumption.
  - unfold handleFileSelect. destruct chosen as [f|]; [|exact H].
    destruct (maxSize f <? file_size f); exact H.
  - exact H.
  - unfold handleSend. destruct (_ || _); exact H.
  - exact H.
Qed.

Lemma one_timer_run (steps : list Step) (s : State) :
  one_timer s -> one_timer (run trim steps s).
Proof.
  revert s. induction steps as [|st steps IH]; intros s H; [exact H|].
  simpl. apply IH. apply one_timer_step. exact H.
Qed.

(** X17.  The composer's typing signals are debounced by one timer.  In
    any state the composer can reach at most one stop timer is armed.  A
    change to non-empty text calls [onTyping] once and leaves exactly one
    timer, due 3000 ms later; if nothing else happens, [onStopTyping] has
    not been called before 3000 ms have passed and has been called
    exactly once after.  A change to empty text calls [onStopTyping] at
    once and leaves no timer. *)
Theorem composer_stops_typing_once (t0 : Z) (steps : list Step)
    (value : string) (d : Z) :
  let s := run trim steps (initial t0) in
  one_timer s
  /\ (value <> "" ->
      let s1 := handleMessageChange value s in
      calls s1 = calls s ++ [OnTyping]
      /\ armed s1 = [{| handle := nextHandle s; due := now s + stop_delay |}]
      /\ (d < stop_delay -> calls (elapse d s1) = calls s1)
      /\ (stop_delay <= d ->
          calls (elapse d s1) = calls s1 ++ [OnStopTyping]
          /\ armed (elapse d s1) = []))
  /\ (calls (handleMessageChange "" s) = calls s ++ [OnStopTyping]
      /\ armed (handleMessageChange "" s) = []).
Proof.
  intros s.
  assert (H : one_timer s).
  { apply one_timer_run. left. reflexivity. }
  clearbody s. split; [exact H|]. split.
  - intros Hv s1. subst s1. rewrite (change_nonempty value s Hv H).
    split; [reflexivity|]. split; [reflexivity|].
    unfold elapse. simpl. split.
    + intros Hd.
      destruct (Z.leb_spec (now s + stop_delay) (now s + Z.max 0 d));
        [unfold stop_delay in *; lia|].
      simpl. apply app_nil_r.
    + intros Hd.
      destruct (Z.leb_spec (now s + stop_delay) (now s + Z.max 0 d));
        [|unfold stop_delay in *; lia].
      split; reflexivity.
  - rewrite (change_empty s H). split; reflexivity.
Qed.

(** X18.  Sending does not cancel the stop timer.  When text that is
    not blank is typed and sent at once, with no send in progress and the
    composer enabled, [handleSend] calls [onStopTyping] and then
    [onSendMessage] with the trimmed text and the selected file, and
    ignores a second send while the first is in progress; the timer armed
    by the keystroke still runs 3000 ms later, so [onStopTyping] is
    called a second time. *)
Theorem send_leaves_stop_timer_armed (t0 : Z) (steps : list Step)
    (value : string) :
  let s := run trim steps (initial t0) in
  value <> "" -> trim value <> "" -> isSending s = false ->
  let sent := handleSend trim false (handleMessageChange value s) in
  calls sent
  = calls s ++ [OnTyping; OnStopTyping;
                OnSendMessage (trim value) (selectedFile s)]
  /\ isSending sent = true
  /\ armed sent = [{| handle := nextHandle s; due := now s + stop_delay |}]
  /\ calls (elapse stop_delay sent) = calls sent ++ [OnStopTyping]
  /\ handleSend trim false sent = sent.
Proof.
  intros s Hv Ht Hs sent.
  assert (H : one_timer s).
  { apply one_timer_run. left. reflexivity. }
  clearbody s. subst sent. rewrite (change_nonempty value s Hv H).
  assert (E : String.eqb (trim value) "" = false)
    by (apply String.eqb_neq; exact Ht).
  unfold handleSend. simpl. rewrite E, Hs. simpl.
  rewrite <- !app_assoc. simpl.
  split; [reflexivity|]. split; [reflexivity|]. split; [reflexivity|].
  split.
  - unfold elapse. simpl.
    destruct (Z.leb_spec (now s + stop_delay)
                (now s + Z.max 0 stop_delay));
      [reflexivity | unfold stop_delay in *; lia].
  - rewrite E. simpl. reflexivity.
Qed.

Lemma within_limit_step (st : Step) (s : State) :
  within_limit (selectedFile s) -> Forall sent_within_limit (calls s) ->
  within_limit (selectedFile (step trim st s))
  /\ Forall sent_within_limit (calls (step trim st s)).
Proof.
  intros Hf Hc. destruct st as [value|d|chosen| |disabled|ok]; simpl.
  - unfold handleMessageChange.
    destruct (0 <? String.length value)%nat;
      destruct (typingTimeoutRef s); simpl; (split; [exact Hf|]);
      apply Forall_app; (split; [exact Hc|]); repeat constructor.
  - split; [exact Hf|]. apply Forall_app. split; [exact Hc|].
    apply List.Forall_forall. intros c Hin. apply in_map_iff in Hin.
    destruct Hin as (? & <- & _). exact I.
  - unfold handleFileSelect. destruct chosen as [f|]; [|tauto].
    destruct (Z.ltb_spec (maxSize f) (file_size f)); [tauto|].
    simpl. tauto.
  - split; [exact I | exact Hc].
  - unfold handleSend. destruct (_ || _); [tauto|]. simpl.
    split; [exact Hf|]. rewrite <- app_assoc.
    apply Forall_app. split; [exact Hc|].
    constructor; [exact I|]. constructor; [exact Hf | constructor].
  - split; [|exact Hc]. destruct ok; [exact I | exact Hf].
Qed.

(** X19.  The size limit holds for everything that is sent.  Whatever
    files are offered, removed or sent, the selected file, if any, is at
    most 100 MiB for a video type, 2 MiB for an audio type and 10 MiB
    otherwise, and so is the file of every [onSendMessage] call made. *)
Theorem composer_sends_within_size_limit (t0 : Z) (steps : list Step) :
  let s := run trim steps (initial t0) in
  within_limit (selectedFile s) /\ Forall sent_within_limit (calls s).
Proof.
  intros s. subst s.
  assert (G : forall s0,
            within_limit (selectedFile s0) ->
            Forall sent_within_limit (calls s0) ->
            within_limit (selectedFile (run trim steps s0))
            /\ Forall sent_within_limit (calls (run trim steps s0))).
  { induction steps as [|st rest IH]; intros s0 Hf Hc; [tauto|].
    simpl. destruct (within_limit_step st s0 Hf Hc) as [Hf' Hc'].
    apply IH; assumption. }
  apply G; [exact I | constructor].
Qed.

End ComposerFacts.

Lemma composer_stops_typing_once_witness :
  let s := MessageComposer.run Sample.ascii_trim
             [MessageComposer.Change "h"; MessageComposer.Wait 100;
              MessageComposer.Change "he"] (MessageComposer.initial 0) in
  MessageComposer.calls
    (MessageComposer.elapse 3000 (MessageComposer.handleMessageChange "hey" s))
  = MessageComposer.calls (MessageComposer.handleMessageChange "hey" s)
    ++ [MessageComposer.OnStopTyping].
Proof.
  intros s.
  pose proof (composer_stops_typing_once Sample.ascii_trim 0
                [MessageComposer.Change "h"; MessageComposer.Wait 100;
                 MessageComposer.Change "he"] "hey" 3000) as (_ & H & _).
  destruct (H ltac:(discriminate)) as (_ & _ & _ & H4).
  destruct (H4 ltac:(unfold MessageComposer.stop_delay; lia)) as [H5 _].
  exact H5.
Defined.

Lemma send_leaves_stop_timer_armed_witness :
  let sent := MessageComposer.handleSend Sample.ascii_trim false
                (MessageComposer.handleMessageChange " hi "
                   (MessageComposer.initial 0)) in
  MessageComposer.calls (MessageComposer.elapse 3000 sent)
  = [MessageComposer.OnTyping; MessageComposer.OnStopTyping;
     MessageComposer.OnSendMessage "hi" None; MessageComposer.OnStopTyping].
Proof.
  intros sent.
  pose proof (send_leaves_stop_timer_armed Sample.ascii_trim 0 [] " hi "
                ltac:(discriminate) ltac:(discriminate) eq_refl)
    as (H1 & _ & _ & H4 & _).
  etransitivity; [exact H4|]. rewrite H1. reflexivity.
Defined.

(** ** Listing and deleting messages *)

Section QueryFacts.

Import MessagesRoute MessagesQuery.

Variable isValid : string -> bool.
Variable sort_desc : list Message -> list Message.

Hypothesis sort_perm : forall l, Permutation (sort_desc l) l.
Hypothesis sort_sorted : forall l, descending (sort_desc l).

Lemma participant_In (user : string) (l : list string) :
  existsb (fun p => String.eqb p user) l = true <-> In user l.
Proof.
  rewrite existsb_exists. split.
  - intros (x & Hx & E). apply String.eqb_eq in E. subst x. exact Hx.
  - intros H. exists user. split; [exact H | apply String.eqb_refl].
Qed.

Lemma deleted_for_In (user : string) (l : list string) :
  existsb (String.eqb user) l = true <-> In user l.
Proof.
  rewrite existsb_exists. split.
  - intros (x & Hx & E). apply String.eqb_eq in E. subst x. exact Hx.
  - intros H. exists user. split; [exact H | apply String.eqb_refl].
Qed.

Lemma matches_spec (chat user : string) (m : Message) :
  matches chat user m = true
  <-> m_chatId m = chat /\ ~ In user (m_deletedFor m).
Proof.
  unfold matches. rewrite andb_true_iff, negb_true_iff, String.eqb_eq.
  rewrite <- deleted_for_In.
  destruct (existsb (String.eqb user) (m_deletedFor m)); split;
    intros [H1 H2]; split; auto; try discriminate.
  exfalso. apply H2. reflexivity.
Qed.

Lemma descending_drop (n : nat) (l : list Message) :
  descending l -> descending (drop n l).
Proof.
  unfold descending. revert n.
  induction l as [|x l IH]; intros [|n] H; simpl; try exact H.
  apply IH. inversion H; assumption.
Qed.

Lemma descending_take (n : nat) (l : list Message) :
  descending l -> descending (take n l).
Proof.
  unfold descending. revert n.
  induction l as [|x l IH]; intros [|n] H; simpl; try constructor.
  - apply IH. inversion H; assumption.
  - inversion H as [|? ? _ Hall]; subst. apply Forall_take. exact Hall.
Qed.

Lemma In_take {A : Type} (n : nat) (l : list A) (x : A) :
  In x (take n l) -> In x l.
Proof.
  revert n. induction l as [|y l IH]; intros [|n]; simpl; try tauto.
  intros [E|H]; [left; exact E | right; exact (IH n H)].
Qed.

Lemma In_drop {A : Type} (n : nat) (l : list A) (x : A) :
  In x (drop n l) -> In x l.
Proof.
  revert n. induction l as [|y l IH]; intros [|n]; simpl; try tauto.
  intros H. right. exact (IH n H).
Qed.

(** What a listing that succeeds returns. *)
Lemma get_messages_success (user : string) (q : ListQuery) (w : World)
    (L : MessageList) :
  fst (get_messages isValid sort_desc user q w) = inr L ->
  exists chat_id c,
    nonempty (q_chatId q) = Some chat_id
    /\ isValid chat_id = true
    /\ find_chat chat_id (chats w) = Some c
    /\ In user (participants c)
    /\ fst (parse_limit (q_limit q) w) = inr (limit L)
    /\ fst (parse_offset (q_offset q) w) = inr (offset L)
    /\ total L
       = Z.of_nat (length (List.filter (matches chat_id user) (messages w)))
    /\ listed L
       = take (Z.to_nat (limit L))
           (drop (Z.to_nat (offset L))
              (sort_desc (List.filter (matches chat_id user) (messages w))))
    /\ count L = Z.of_nat (length (listed L)).
Proof.
  unfold get_messages.
  unfold mbind, M_bind, mret, M_ret, when_, throw.
  destruct (nonempty (q_chatId q)) as [chat_id|]; simpl; [|discriminate].
  destruct (isValid chat_id) eqn:Hv; simpl; [|discriminate].
  assert (Hl : exists r, parse_limit (q_limit q) w = (r, w)).
  { unfold parse_limit, throw, mret, M_ret.
    destruct (q_limit q) as [[n|]|]; [destruct (_ || _)| |]; eauto. }
  destruct Hl as [[e|lim] Hl]; rewrite Hl; simpl; [discriminate|].
  assert (Ho : exists r, parse_offset (q_offset q) w = (r, w)).
  { unfold parse_offset, throw, mret, M_ret.
    destruct (q_offset q) as [[n|]|]; [destruct (_ <? _)| |]; eauto. }
  destruct Ho as [[e|skip] Ho]; rewrite Ho; simpl; [discriminate|].
  destruct (find_chat chat_id (chats w)) as [c|] eqn:Hc; simpl;
    [|discriminate].
  destruct (existsb _ (participants c)) eqn:Hp; simpl; [|discriminate].
  intros [= <-]. simpl. exists chat_id, c.
  apply participant_In in Hp. repeat split; auto.
Qed.

Lemma get_messages_readonly (user : string) (q : ListQuery) (w : World) :
  snd (get_messages isValid sort_desc user q w) = w.
Proof.
  unfold get_messages.
  unfold mbind, M_bind, mret, M_ret, when_, throw.
  destruct (nonempty (q_chatId q)) as [chat_id|]; simpl; [|reflexivity].
  destruct (isValid chat_id); simpl; [|reflexivity].
  unfold parse_limit, parse_offset, throw, mret, M_ret.
  destruct (q_limit q) as [[n|]|]; simpl; try reflexivity;
    [destruct (_ || _); simpl; [reflexivity|]|];
    (destruct (q_offset q) as [[k|]|]; simpl; try reflexivity;
     [destruct (_ <? _); simpl; [reflexivity|]|]);
    (destruct (find_chat chat_id (chats w)) as [c|]; simpl; [|reflexivity];
     destruct (existsb _ (participants c)); reflexivity).
Qed.

Lemma get_messages_listed (user : string) (q : ListQuery) (w : World)
    (L : MessageList) (m : Message) :
  fst (get_messages isValid sort_desc user q w) = inr L ->
  In m (listed L) ->
  In m (messages w) /\ Some (m_chatId m) = q_chatId q
  /\ ~ In user (m_deletedFor m).
Proof.
  intros H Hin. apply get_messages_success in H.
  destruct H as (chat_id & c & Hn & _ & _ & _ & _ & _ & _ & Hm & _).
  assert (Hq : q_chatId q = Some chat_id).
  { unfold nonempty in Hn. destruct (q_chatId q) as [x|]; [|discriminate].
    destruct (String.eqb x ""); [discriminate | exact Hn]. }
  rewrite Hm in Hin. apply In_take, In_drop in Hin.
  apply (Permutation_in _ (sort_perm _)) in Hin.
  apply filter_In in Hin. destruct Hin as [Hin Hmatch].
  apply matches_spec in Hmatch. destruct Hmatch as [E Hd].
  rewrite Hq, E. auto.
Qed.

(** X20.  A page of messages.  GET /api/messages never writes.  When it
    succeeds, the caller is a participant of the chat; the limit is
    between 1 and 100 (50 when not given) and the offset is not negative
    (0 when not given); [total] counts the messages of the chat that are
    not deleted for the caller; the page holds
    min(limit, max(0, total - offset)) messages, each one a stored
    message of that chat not deleted for the caller, newest first. *)
Theorem get_messages_page (user : string) (q : ListQuery) (w : World)
    (L : MessageList) :
  let res := get_messages isValid sort_desc user q w in
  snd res = w
  /\ (fst res = inr L ->
      1 <= limit L <= 100 /\ 0 <= offset L
      /\ (q_limit q = None -> limit L = 50)
      /\ (q_offset q = None -> offset L = 0)
      /\ (forall chat, q_chatId q = Some chat ->
            total L
            = Z.of_nat (length (List.filter (matches chat user)
                                  (messages w))))
      /\ count L = Z.of_nat (length (listed L))
      /\ count L = Z.min (limit L) (Z.max 0 (total L - offset L))
      /\ descending (listed L)
      /\ (forall m, In m (listed L) ->
            In m (messages w) /\ Some (m_chatId m) = q_chatId q
            /\ ~ In user (m_deletedFor m))
      /\ exists c, (q_chatId q ≫= fun i => find_chat i (chats w)) = Some c
                   /\ In user (participants c)).
Proof.
  intros res. subst res. split; [apply get_messages_readonly|].
  intros H. pose proof (get_messages_listed user q w L) as Hlisted.
  specialize (fun m => Hlisted m H). apply get_messages_success in H.
  destruct H as (chat_id & c & Hn & Hv & Hc & Hp & Hl & Ho & Ht & Hm & Hk).
  assert (Hq : q_chatId q = Some chat_id).
  { unfold nonempty in Hn. destruct (q_chatId q) as [x|]; [|discriminate].
    destruct (String.eqb x ""); [discriminate | exact Hn]. }
  assert (Hlim : 1 <= limit L <= 100 /\ (q_limit q = None -> limit L = 50)).
  { unfold parse_limit, throw, mret, M_ret in Hl.
    destruct (q_limit q) as [[n|]|]; simpl in Hl.
    - destruct (Z.ltb_spec n 1); simpl in Hl; [discriminate|].
      destruct (Z.ltb_spec 100 n); simpl in Hl; [discriminate|].
      injection Hl as <-. split; [lia | discriminate].
    - discriminate.
    - injection Hl as <-. split; [lia | reflexivity]. }
  assert (Hoff : 0 <= offset L /\ (q_offset q = None -> offset L = 0)).
  { unfold parse_offset, throw, mret, M_ret in Ho.
    destruct (q_offset q) as [[n|]|]; simpl in Ho.
    - destruct (Z.ltb_spec n 0); simpl in Ho; [discriminate|].
      injection Ho as <-. split; [lia | discriminate].
    - discriminate.
    - injection Ho as <-. split; [lia | reflexivity]. }
  destruct Hlim as [Hlim Hl50]. destruct Hoff as [Hoff Ho0].
  split; [exact Hlim|]. split; [exact Hoff|].
  split; [exact Hl50|]. split; [exact Ho0|].
  split; [intros chat E; congruence|]. split; [exact Hk|].
  split; [|split; [|split]].
  - rewrite Hk, Hm, Ht, length_take, length_drop.
    rewrite (Permutation_length (sort_perm _)). lia.
  - rewrite Hm. apply descending_take, descending_drop, sort_sorted.
  - exact Hlisted.
  - exists c. rewrite Hq. simpl. split; [exact Hc | exact Hp].
Qed.

(** What DELETE does on each path. *)
Lemma delete_message_cases (user messageId : string)
    (forAll : option string) (date_now : Z) (w : World) :
  delete_message isValid user messageId forAll date_now w
  = if negb (isValid messageId)
    then (inl (BadRequestError "Invalid message ID format"), w)
    else
      match find_message messageId (messages w) with
      | None => (inl (NotFoundError "Message not found"), w)
      | Some m =>
          match find_chat (m_chatId m) (chats w) with
          | None => (inl (NotFoundError "Chat not found"), w)
          | Some c =>
              if negb (existsb (fun p => String.eqb p user) (participants c))
              then (inl (ForbiddenError
                           "You are not a participant of this chat"), w)
              else if parse_forAll forAll then
                if negb (String.eqb (m_senderId m) user)
                then (inl (ForbiddenError
                             "Only the sender can delete message for everyone"),
                      w)
                else if twentyFourHoursInMs <? date_now - m_timestamp m
                then (inl (ForbiddenError
       "Messages can only be deleted for everyone within 24 hours of sending"),
                      w)
                else
                  (inr MessageDeletedOk,
                   {| messages :=
                        List.filter
                          (fun x => negb (String.eqb (_id x) messageId))
                          (messages w);
                      chats := chats w;
                      socketHandler := socketHandler w;
                      journal :=
                        (journal w ++ [Deleted messageId])
                        ++ calls w (broadcastDeletedMessage
                                      {| bd_messageId := messageId;
                                         bd_chatId := m_chatId m |}) |})
              else if existsb (String.eqb user) (m_deletedFor m)
              then (inr MessageDeletedOk, w)
              else
                (inr MessageDeletedOk,
                 {| messages :=
                      map (fun x => if String.eqb (_id x) (_id m)
                                    then soft_deleted user m else x)
                          (messages w);
                    chats := chats w;
                    socketHandler := socketHandler w;
                    journal := journal w ++ [Saved (soft_deleted user m)] |})
          end
      end.
Proof.
  unfold delete_message, soft_deleted.
  unfold mbind, M_bind, mret, M_ret, when_, throw.
  destruct (isValid messageId); simpl; [|reflexivity].
  destruct (find_message messageId (messages w)) as [m|]; simpl;
    [|reflexivity].
  destruct (find_chat (m_chatId m) (chats w)) as [c|]; simpl;
    [|reflexivity].
  destruct (existsb _ (participants c)); simpl; [|reflexivity].
  destruct (parse_forAll forAll); simpl.
  - destruct (String.eqb (m_senderId m) user); simpl; [|reflexivity].
    destruct (twentyFourHoursInMs <? date_now - m_timestamp m); simpl;
      [reflexivity|].
    unfold broadcast, record, with_messages, calls. simpl.
    destruct (socketHandler w); simpl; [reflexivity|].
    rewrite app_nil_r. reflexivity.
  - destruct (existsb (String.eqb user) (m_deletedFor m)); reflexivity.
Qed.

(** X21.  Who may delete.  DELETE succeeds exactly when the id is well
    formed, the message and its chat exist, the caller is a participant
    of the chat and, for [forAll=true] only, the caller is the sender and
    the message is at most 24 hours old (exactly 24 hours is still
    allowed).  A soft delete is thus open to every participant at any
    age.  A request that fails leaves the store as it was, and no
    request changes the chats: the chat's [lastMessage] still shows a
    message that was deleted for everyone. *)
Theorem delete_message_permissions (user messageId : string)
    (forAll : option string) (date_now : Z) (w : World) :
  let res := delete_message isValid user messageId forAll date_now w in
  (fst res = inr MessageDeletedOk
   <-> isValid messageId = true
       /\ exists m c,
            find_message messageId (messages w) = Some m
            /\ find_chat (m_chatId m) (chats w) = Some c
            /\ In user (participants c)
            /\ (parse_forAll forAll = true ->
                m_senderId m = user
                /\ date_now - m_timestamp m <= twentyFourHoursInMs))
  /\ (forall e, fst res = inl e -> snd res = w)
  /\ chats (snd res) = chats w.
Proof.
  intros res. subst res. rewrite delete_message_cases.
  destruct (isValid messageId); simpl.
  2:{ split; [|split; reflexivity].
      split; [discriminate | intros [? _]; discriminate]. }
  destruct (find_message messageId (messages w)) as [m|]; simpl.
  2:{ split; [|split; reflexivity].
      split; [discriminate | intros (_ & ? & ? & ? & _); discriminate]. }
  destruct (find_chat (m_chatId m) (chats w)) as [c|] eqn:Hc; simpl.
  2:{ split; [|split; reflexivity].
      split; [discriminate|].
      intros (_ & m0 & c0 & [= <-] & E & _). congruence. }
  destruct (existsb _ (participants c)) eqn:Hp; simpl.
  2:{ split; [|split; reflexivity].
      split; [discriminate|].
      intros (_ & m0 & c0 & [= <-] & E & Hin & _).
      rewrite Hc in E. injection E as <-.
      apply participant_In in Hin. congruence. }
  apply participant_In in Hp.
  destruct (parse_forAll forAll); simpl.
  - destruct (String.eqb_spec (m_senderId m) user) as [Hs|Hs]; simpl.
    2:{ split; [|split; reflexivity].
        split; [discriminate|].
        intros (_ & m0 & c0 & [= <-] & _ & _ & H).
        destruct (H eq_refl). contradiction. }
    destruct (Z.ltb_spec twentyFourHoursInMs (date_now - m_timestamp m))
      as [Ha|Ha]; simpl.
    { split; [|split; reflexivity].
      split; [discriminate|].
      intros (_ & m0 & c0 & [= <-] & _ & _ & H).
      destruct (H eq_refl). lia. }
    split; [|split; [intros ? [=] | reflexivity]].
    split; [|reflexivity]. intros _. split; [reflexivity|].
    exists m, c. repeat split; auto.
  - destruct (existsb (String.eqb user) (m_deletedFor m)); simpl.
    + split; [|split; reflexivity].
      split; [|reflexivity]. intros _. split; [reflexivity|].
      exists m, c. repeat split; auto; discriminate.
    + split; [|split; [intros ? [=] | reflexivity]].
      split; [|reflexivity]. intros _. split; [reflexivity|].
      exists m, c. repeat split; auto; discriminate.
Qed.

Lemma NoDup_id_unique (ms : list Message) (m x : Message) :
  List.NoDup (map _id ms) -> In m ms -> In x ms -> _id x = _id m -> x = m.
Proof.
  induction ms as [|y ms IH]; simpl; [tauto|].
  intros Hnd Hm Hx E. inversion Hnd as [|? ? Hnotin Hnd']; subst.
  destruct Hm as [->|Hm], Hx as [->|Hx].
  - reflexivity.
  - exfalso. apply Hnotin. rewrite <- E. apply in_map. exact Hx.
  - exfalso. apply Hnotin. rewrite E. apply in_map. exact Hm.
  - apply IH; assumption.
Qed.

Lemma find_message_In (i : string) (ms : list Message) (m : Message) :
  find_message i ms = Some m -> In m ms /\ _id m = i.
Proof.
  unfold find_message. intros H. apply find_some in H.
  destruct H as [H E]. apply String.eqb_eq in E. split; assumption.
Qed.

Lemma soft_deleted_others (user v chat : string) (m : Message)
    (ms : list Message) :
  (forall x, In x ms -> _id x = _id m -> x = m) ->
  v <> user ->
  List.filter (matches chat v)
    (map (fun x => if String.eqb (_id x) (_id m)
                   then soft_deleted user m else x) ms)
  = map (fun x => if String.eqb (_id x) (_id m)
                  then soft_deleted user m else x)
      (List.filter (matches chat v) ms).
Proof.
  intros Hu Hv.
  induction ms as [|x ms IH]; simpl; [reflexivity|].
  assert (IH' : List.filter (matches chat v)
                  (map (fun x => if String.eqb (_id x) (_id m)
                                 then soft_deleted user m else x) ms)
                = map (fun x => if String.eqb (_id x) (_id m)
                                then soft_deleted user m else x)
                    (List.filter (matches chat v) ms)).
  { apply IH. intros y Hy. apply Hu. right. exact Hy. }
  assert (E : matches chat v
                (if String.eqb (_id x) (_id m)
                 then soft_deleted user m else x)
              = matches chat v x).
  { destruct (String.eqb_spec (_id x) (_id m)) as [Hid|Hid]; [|reflexivity].
    rewrite (Hu x (or_introl eq_refl) Hid).
    unfold matches, soft_deleted. simpl. f_equal. f_equal.
    rewrite existsb_app. simpl.
    destruct (String.eqb_spec v user); [contradiction|].
    rewrite !orb_false_r. reflexivity. }
  rewrite E. destruct (matches chat v x); simpl; congruence.
Qed.

(** X22.  A soft delete hides the message from the caller only.  In a
    store whose message ids are distinct, after a participant's DELETE
    without [forAll=true] has succeeded, no listing made by that
    participant contains the message; a listing made by anyone else
    counts as many messages as before; and the same DELETE made again
    succeeds and writes nothing. *)
Theorem soft_delete_hides_from_caller (user messageId : string)
    (forAll : option string) (date_now : Z) (w : World) :
  List.NoDup (map _id (messages w)) ->
  parse_forAll forAll = false ->
  let res := delete_message isValid user messageId forAll date_now w in
  fst res = inr MessageDeletedOk ->
  (forall q L,
     fst (get_messages isValid sort_desc user q (snd res)) = inr L ->
     Forall (fun m => _id m <> messageId) (listed L))
  /\ (forall v q L L',
        v <> user ->
        fst (get_messages isValid sort_desc v q w) = inr L ->
        fst (get_messages isValid sort_desc v q (snd res)) = inr L' ->
        total L' = total L)
  /\ (forall date_now',
        delete_message isValid user messageId forAll date_now' (snd res)
        = (inr MessageDeletedOk, snd res)).
Proof.
  intros Hnd Hall res. subst res. rewrite delete_message_cases, Hall.
  destruct (isValid messageId) eqn:Hv; simpl; [|discriminate].
  destruct (find_message messageId (messages w)) as [m|] eqn:Hf; simpl;
    [|discriminate].
  destruct (find_chat (m_chatId m) (chats w)) as [c|] eqn:Hc; simpl;
    [|discriminate].
  destruct (existsb _ (participants c)) eqn:Hp; simpl; [|discriminate].
  destruct (find_message_In _ _ _ Hf) as [Hin Hid].
  destruct (existsb (String.eqb user) (m_deletedFor m)) eqn:Hd; simpl;
    intros _.
  - split; [|split].
    + intros q L HL. apply List.Forall_forall. intros x Hx E.
      destruct (get_messages_listed user q w L x HL Hx) as (Hxin & _ & Hnot).
      apply Hnot. apply deleted_for_In in Hd.
      rewrite (NoDup_id_unique (messages w) m x Hnd Hin Hxin); [exact Hd|].
      congruence.
    + intros v q L L' _ HL HL'. congruence.
    + intros date_now'. rewrite delete_message_cases, Hall, Hv, Hf, Hc, Hp, Hd.
      reflexivity.
  - split; [|split].
    + intros q L HL. apply List.Forall_forall. intros x Hx E.
      destruct (get_messages_listed user q _ L x HL Hx) as (Hxin & _ & Hnot).
      simpl in Hxin. apply in_map_iff in Hxin.
      destruct Hxin as (y & Hy & _).
      destruct (String.eqb_spec (_id y) (_id m)) as [Ey|Ey].
      * subst x. apply Hnot. simpl. apply in_app_iff. right. now left.
      * subst x. congruence.
    + intros v q L L' Hne HL HL'.
      apply get_messages_success in HL, HL'.
      destruct HL as (i1 & _ & Hn1 & _ & _ & _ & _ & _ & Ht1 & _).
      destruct HL' as (i2 & _ & Hn2 & _ & _ & _ & _ & _ & Ht2 & _).
      assert (i2 = i1) by congruence. subst i2.
      rewrite Ht1, Ht2. simpl.
      rewrite soft_deleted_others, length_map; [reflexivity | | exact Hne].
      intros x Hx Ex. exact (NoDup_id_unique (messages w) m x Hnd Hin Hx Ex).
    + intros date_now'. rewrite delete_message_cases, Hall, Hv. simpl.
      rewrite <- Hid at 1.
      rewrite (find_message_replaced m (soft_deleted user m))
        by (try reflexivity; rewrite Hid; exact Hf).
      simpl. rewrite Hc, Hp. simpl.
      rewrite existsb_app. simpl. rewrite String.eqb_refl, orb_true_r.
      reflexivity.
Qed.

End QueryFacts.

(** ** More on the three mutating routes *)

Section RouteMore.

Import MessagesRoute MessagesQuery.

Variable isValid : string -> bool.
Variable trim : string -> string.
Variable toISOString : Z -> string.

Lemma nonempty_some (o : option string) (x : string) :
  nonempty o = Some x -> o = Some x /\ x <> "".
Proof.
  unfold nonempty. destruct o as [y|]; [|discriminate].
  destruct (String.eqb_spec y ""); [discriminate|].
  intros [= <-]. split; [reflexivity | assumption].
Qed.

Lemma existsb_In_eqb (user : string) (l : list string) :
  existsb (fun p => String.eqb p user) l = true -> In user l.
Proof.
  intros H. apply existsb_exists in H. destruct H as (x & Hx & E).
  apply String.eqb_eq in E. subst x. exact Hx.
Qed.

Lemma find_chat_updated (i : string) (f : Chat -> Chat) (cs : list Chat)
    (c : Chat) :
  (forall x, c_id (f x) = c_id x) ->
  find_chat i cs = Some c ->
  find_chat i (map (fun x => if String.eqb (c_id x) i then f x else x) cs)
  = Some (f c).
Proof.
  intros Hf. unfold find_chat.
  induction cs as [|x cs IH]; simpl; [discriminate|].
  destruct (String.eqb (c_id x) i) eqn:E; simpl.
  - rewrite Hf, E. intros [= <-]. reflexivity.
  - rewrite E. exact IH.
Qed.

Lemma find_message_snoc (j : string) (ms : list Message) (m : Message) :
  _id m <> j -> find_message j (ms ++ [m]) = find_message j ms.
Proof.
  intros H. unfold find_message. apply String.eqb_neq in H.
  induction ms as [|x ms IH]; simpl; [rewrite H; reflexivity|].
  destruct (String.eqb (_id x) j); [reflexivity | exact IH].
Qed.

Lemma find_message_map_other (i j : string) (m' : Message)
    (ms : list Message) :
  _id m' = i -> j <> i ->
  find_message j (map (fun x => if String.eqb (_id x) i then m' else x) ms)
  = find_message j ms.
Proof.
  intros Hm Hj. unfold find_message.
  induction ms as [|x ms IH]; simpl; [reflexivity|].
  destruct (String.eqb_spec (_id x) i) as [E|E].
  - rewrite Hm, E.
    assert (F : String.eqb i j = false)
      by (apply String.eqb_neq; congruence).
    rewrite F. exact IH.
  - destruct (String.eqb (_id x) j); [reflexivity | exact IH].
Qed.

Lemma find_message_filter_other (i j : string) (ms : list Message) :
  j <> i ->
  find_message j (List.filter (fun x => negb (String.eqb (_id x) i)) ms)
  = find_message j ms.
Proof.
  intros Hj. unfold find_message.
  induction ms as [|x ms IH]; simpl; [reflexivity|].
  destruct (String.eqb_spec (_id x) i) as [E|E]; simpl.
  - assert (F : String.eqb (_id x) j = false)
      by (apply String.eqb_neq; congruence).
    rewrite F. exact IH.
  - destruct (String.eqb (_id x) j); [reflexivity | exact IH].
Qed.

(** What POST leaves behind. *)
Lemma post_message_result (user : string) (req : CreateMessageRequest)
    (newId : string) (t_create t_last : Z) (w : World) :
  let res := post_message isValid trim toISOString user req newId
               t_create t_last w in
  let text := match rq_content req with Some c => trim c | None => "" end in
  match fst res with
  | inr resp =>
      exists chat_id c sm,
        rq_chatId req = Some chat_id /\ chat_id <> ""
        /\ isValid chat_id = true
        /\ find_chat chat_id (chats w) = Some c
        /\ In user (participants c)
        /\ strlen text <= 5000
        /\ (text = "" -> sm <> None)
        /\ match rq_media req, sm with
           | Some mr, Some stored =>
               rq_type mr ≫= parse_kind = Some (media_type stored)
               /\ rq_url mr = Some (media_url stored)
               /\ media_url stored <> ""
               /\ strlen (media_url stored) <= 1000
               /\ media_metadata stored = rq_metadata mr
           | None, None => True
           | _, _ => False
           end
        /\ resp = MessageSent
                    {| _id := newId; m_chatId := chat_id;
                       m_senderId := user; m_content := text;
                       m_media := sm; m_editedAt := None;
                       m_deletedFor := []; m_timestamp := t_create |}
        /\ messages (snd res)
           = messages w
             ++ [{| _id := newId; m_chatId := chat_id;
                    m_senderId := user; m_content := text;
                    m_media := sm; m_editedAt := None;
                    m_deletedFor := []; m_timestamp := t_create |}]
        /\ chats (snd res)
           = map (fun x => if String.eqb (c_id x) chat_id
                           then {| c_id := c_id x;
                                   participants := participants x;
                                   lastMessage :=
                                     Some {| lm_content :=
                                               if String.eqb text ""
                                               then "[Media]" else text;
                                             lm_senderId := user;
                                             lm_timestamp := t_last |} |}
                           else x) (chats w)
  | inl _ => snd res = w
  end.
Proof.
  intros res text. subst res. unfold post_message.
  unfold mbind, M_bind, mret, M_ret, when_, throw.
  destruct (nonempty (rq_chatId req)) as [chat_id|] eqn:Hn; simpl;
    [|reflexivity].
  apply nonempty_some in Hn. destruct Hn as [Hq Hne].
  destruct (isValid chat_id) eqn:Hv; simpl; [|reflexivity].
  fold text.
  destruct (rq_media req) as [mr|] eqn:Hmr.
  - assert (B : bool_decide (is_Some (Some mr)) = true)
      by (apply bool_decide_eq_true; eauto).
    rewrite B, andb_false_r. simpl.
    destruct (negb (String.eqb text "") && (5000 <? strlen text)) eqn:H2;
      simpl; [reflexivity|].
    assert (Hlen : strlen text <= 5000).
    { destruct (String.eqb_spec text "") as [->|_]; simpl in H2.
      - unfold strlen. simpl. lia.
      - apply Z.ltb_ge in H2. exact H2. }
    unfold validate_media, throw, mret, M_ret.
    destruct (rq_type mr ≫= parse_kind) as [k|] eqn:Hk; [|reflexivity].
    destruct (nonempty (rq_url mr)) as [url|] eqn:Hu; [|reflexivity].
    apply nonempty_some in Hu. destruct Hu as [Hu Hune].
    destruct (Z.ltb_spec 1000 (strlen url)) as [Hul|Hul]; [reflexivity|].
    unfold Chat_findById. simpl.
    destruct (find_chat chat_id (chats w)) as [c|] eqn:Hc; simpl;
      [|reflexivity].
    destruct (existsb _ (participants c)) eqn:Hp; simpl; [|reflexivity].
    apply existsb_In_eqb in Hp.
    unfold broadcast, record, with_messages, with_chats. simpl.
    destruct (socketHandler w); simpl;
      exists chat_id, c,
        (Some {| media_type := k; media_url := url;
                 media_metadata := rq_metadata mr |});
      repeat split; auto; discriminate.
  - assert (B : bool_decide (is_Some (@None MediaRequest)) = false).
    { apply bool_decide_eq_false. intros [? ?]. discriminate. }
    rewrite B, andb_true_r. simpl.
    destruct (String.eqb_spec text "") as [Ht|Ht]; simpl; [reflexivity|].
    destruct (Z.ltb_spec 5000 (strlen text)) as [Hl|Hl]; simpl;
      [reflexivity|].
    unfold Chat_findById. simpl.
    destruct (find_chat chat_id (chats w)) as [c|] eqn:Hc; simpl;
      [|reflexivity].
    destruct (existsb _ (participants c)) eqn:Hp; simpl; [|reflexivity].
    apply existsb_In_eqb in Hp.
    unfold broadcast, record, with_messages, with_chats. simpl.
    destruct (socketHandler w); simpl;
      exists chat_id, c, None; repeat split; auto; contradiction.
Qed.

(** X23.  What POST stores.  A request that fails changes nothing.  One
    that succeeds was made by a participant of the chat named in the
    request.  The stored message has the assigned id, the caller as
    sender, the trimmed content (at most 5000 UTF-16 code units, as
    [.length] counts them, and empty only when media is attached), the
    media of the request once checked (a type among image, audio and
    video, a url that is not empty and has at most 1000 code units) and
    the time of creation.  It is appended to the collection, and the
    chat's [lastMessage] becomes that content, or "[Media]" when the
    content is empty, with the caller and the time of the update. *)
Theorem post_message_stores_request (user : string)
    (req : CreateMessageRequest) (newId : string) (t_create t_last : Z)
    (w : World) :
  let res := post_message isValid trim toISOString user req newId
               t_create t_last w in
  match fst res with
  | inr (MessageSent m) =>
      _id m = newId /\ m_senderId m = user
      /\ rq_chatId req = Some (m_chatId m)
      /\ m_content m
         = match rq_content req with Some c => trim c | None => "" end
      /\ strlen (m_content m) <= 5000
      /\ (m_content m = "" -> m_media m <> None)
      /\ match rq_media req, m_media m with
         | Some mr, Some stored =>
             rq_type mr ≫= parse_kind = Some (media_type stored)
             /\ rq_url mr = Some (media_url stored)
             /\ media_url stored <> ""
             /\ strlen (media_url stored) <= 1000
             /\ media_metadata stored = rq_metadata mr
         | None, None => True
         | _, _ => False
         end
      /\ m_timestamp m = t_create
      /\ messages (snd res) = messages w ++ [m]
      /\ exists c,
           find_chat (m_chatId m) (chats w) = Some c
           /\ In user (participants c)
           /\ find_chat (m_chatId m) (chats (snd res))
              = Some {| c_id := c_id c; participants := participants c;
                        lastMessage :=
                          Some {| lm_content :=
                                    if String.eqb (m_content m) ""
                                    then "[Media]" else m_content m;
                                  lm_senderId := user;
                                  lm_timestamp := t_last |} |}
  | inr _ => False
  | inl _ => snd res = w
  end.
Proof.
  intros res.
  pose proof (post_message_result user req newId t_create t_last w) as H.
  cbv zeta in H. fold res in H.
  destruct (fst res) as [e|resp]; [exact H|].
  destruct H as (chat_id & c & sm & Hq & _ & _ & Hc & Hin & Hlen & Hsm
                 & Hmedia & -> & Hms & Hcs).
  simpl. repeat (split; [first [reflexivity | assumption]|]).
  exists c. split; [exact Hc|]. split; [exact Hin|].
  rewrite Hcs.
  apply (find_chat_updated chat_id
           (fun x => {| c_id := c_id x; participants := participants x;
                        lastMessage := _ |})); [reflexivity | exact Hc].
Qed.

(** X24.  The routes touch one message.  Whatever the request and its
    outcome, a message whose id is not the one assigned by POST, or not
    the one named in the PATCH or DELETE request, is found after the
    request exactly as before it. *)
Theorem routes_leave_other_messages (user j : string) (w : World) :
  (forall req newId t_create t_last,
     j <> newId ->
     find_message j
       (messages (snd (post_message isValid trim toISOString user req newId
                         t_create t_last w)))
     = find_message j (messages w))
  /\ (forall messageId body_content date_now t_edit,
        j <> messageId ->
        find_message j
          (messages (snd (patch_message isValid trim toISOString user
                            messageId body_content date_now t_edit w)))
        = find_message j (messages w))
  /\ (forall messageId forAll date_now,
        j <> messageId ->
        find_message j
          (messages (snd (delete_message isValid user messageId forAll
                            date_now w)))
        = find_message j (messages w)).
Proof.
  split; [|split].
  - intros req newId t_create t_last Hj.
    pose proof (post_message_result user req newId t_create t_last w) as H.
    cbv zeta in H.
    destruct (fst (post_message _ _ _ _ _ _ _ _ _)) as [e|resp].
    + rewrite H. reflexivity.
    + destruct H as (chat_id & c & sm & _ & _ & _ & _ & _ & _ & _ & _ & _
                     & Hms & _).
      rewrite Hms. apply find_message_snoc. simpl. congruence.
  - intros messageId body_content date_now t_edit Hj.
    rewrite patch_message_cases.
    destruct (negb _); [reflexivity|].
    destruct (find_message messageId (messages w)) as [m|] eqn:Hf;
      [|reflexivity].
    destruct (nonempty body_content) as [text|]; [|reflexivity].
    destruct (negb _); [reflexivity|].
    destruct (_ <? _); [reflexivity|]. simpl.
    apply find_message_In in Hf. destruct Hf as [_ Hid].
    apply find_message_map_other; [reflexivity | congruence].
  - intros messageId forAll date_now Hj.
    rewrite delete_message_cases.
    destruct (negb _); [reflexivity|].
    destruct (find_message messageId (messages w)) as [m|] eqn:Hf;
      [|reflexivity].
    destruct (find_chat _ _) as [c|]; [|reflexivity].
    destruct (negb _); [reflexivity|].
    apply find_message_In in Hf. destruct Hf as [_ Hid].
    destruct (parse_forAll forAll).
    + destruct (negb _); [reflexivity|].
      destruct (_ <? _); [reflexivity|]. simpl.
      apply find_message_filter_other. exact Hj.
    + destruct (existsb _ _); [reflexivity|]. simpl.
      apply find_message_map_other; [reflexivity | congruence].
Qed.

End RouteMore.

(** ** The routes on a store of two messages *)

Section QueryExamples.

Import MessagesRoute MessagesQuery Sample.

Lemma insert_desc_perm (m : Message) (l : list Message) :
  Permutation (insert_desc m l) (m :: l).
Proof.
  induction l as [|x l IH]; simpl; [reflexivity|].
  destruct (m_timestamp x <=? m_timestamp m); [reflexivity|].
  rewrite IH. apply perm_swap.
Qed.

Lemma newest_first_perm (l : list Message) :
  Permutation (newest_first l) l.
Proof.
  induction l as [|x l IH]; simpl; [reflexivity|].
  rewrite insert_desc_perm, IH. reflexivity.
Qed.

Lemma insert_desc_descending (m : Message) (l : list Message) :
  descending l -> descending (insert_desc m l).
Proof.
  unfold descending. induction l as [|x l IH]; simpl; intros H.
  - repeat constructor.
  - inversion H as [|? ? Hl Hall]; subst.
    destruct (Z.leb_spec (m_timestamp x) (m_timestamp m)) as [Hle|Hgt].
    + constructor; [exact H|]. constructor; [exact Hle|].
      eapply List.Forall_impl; [|exact Hall]. simpl. intros y Hy. lia.
    + constructor; [apply IH; exact Hl|].
      eapply Permutation_Forall;
        [apply Permutation_sym, insert_desc_perm|].
      constructor; [lia | exact Hall].
Qed.

Lemma newest_first_descending (l : list Message) :
  descending (newest_first l).
Proof.
  induction l as [|x l IH]; simpl; [constructor|].
  apply insert_desc_descending. exact IH.
Qed.

Lemma get_messages_page_witness :
  let q := {| q_chatId := Some (c_id chat1); q_limit := Some (Integer 1);
              q_offset := None |} in
  exists L,
    fst (get_messages hex24 newest_first userA q world2) = inr L
    /\ listed L = [msg2] /\ total L = 2 /\ count L = 1
    /\ count L = Z.min (limit L) (Z.max 0 (total L - offset L)).
Proof.
  intros q. eexists. split; [vm_compute; reflexivity|].
  split; [reflexivity|]. split; [reflexivity|]. split; [reflexivity|].
  refine (proj1 (proj2 (proj2 (proj2 (proj2 (proj2 (proj2
           (proj2 (get_messages_page hex24 newest_first newest_first_perm
                     newest_first_descending userA q world2 _) _)))))))).
  vm_compute. reflexivity.
Defined.

Lemma soft_delete_hides_from_caller_witness :
  let w' := snd (delete_message hex24 userB (_id msg1) None
                   1800000000000 world2) in
  let q := {| q_chatId := Some (c_id chat1); q_limit := None;
              q_offset := None |} in
  exists L,
    fst (get_messages hex24 newest_first userB q w') = inr L
    /\ total L = 1
    /\ Forall (fun m => _id m <> _id msg1) (listed L).
Proof.
  intros w' q. eexists. split; [vm_compute; reflexivity|].
  split; [reflexivity|].
  assert (Hnd : List.NoDup (map _id (messages world2))).
  { constructor; [simpl; intros [E|[]]; discriminate E|].
    constructor; [simpl; intros []|]. constructor. }
  apply (proj1 (soft_delete_hides_from_caller hex24 newest_first
                  newest_first_perm userB (_id msg1) None 1800000000000
                  world2 Hnd eq_refl eq_refl) q).
  vm_compute. reflexivity.
Defined.

Lemma delete_message_permissions_witness :
  fst (delete_message hex24 userA (_id msg1) (Some "true")
         (m_timestamp msg1 + twentyFourHoursInMs) world2)
  = inr MessageDeletedOk.
Proof.
  apply (proj1 (delete_message_permissions hex24 userA (_id msg1)
                  (Some "true") (m_timestamp msg1 + twentyFourHoursInMs)
                  world2)).
  split; [reflexivity|]. exists msg1, chat1.
  split; [reflexivity|]. split; [reflexivity|].
  split; [simpl; tauto|]. intros _. split; [reflexivity|]. lia.
Defined.

Lemma post_message_stores_request_witness :
  let text := cyrillic 2501 in
  let res := post_message hex24 ascii_trim show_date userB
               {| rq_chatId := Some (c_id chat1);
                  rq_content := Some text; rq_media := None |}
               "65a4f0c2e1b2c3d4e5f60003" 1700000100000 1700000100001
               world2 in
  exists m,
    fst res = inr (MessageSent m) /\ m_content m = text
    /\ strlen (m_content m) = 2501
    /\ messages (snd res) = [msg1; msg2; m].
Proof.
  intros text res.
  pose proof (post_message_stores_request hex24 ascii_trim show_date userB
                {| rq_chatId := Some (c_id chat1);
                   rq_content := Some text; rq_media := None |}
                "65a4f0c2e1b2c3d4e5f60003" 1700000100000 1700000100001
                world2) as H.
  cbv zeta in H. fold res in H.
  assert (E : exists m, fst res = inr (MessageSent m))
    by (eexists; vm_compute; reflexivity).
  destruct E as [m E]. rewrite E in H. exists m.
  destruct H as (_ & _ & _ & Hc & _ & _ & _ & _ & Hms & _).
  assert (Ht : m_content m = text)
    by (rewrite Hc; vm_compute; reflexivity).
  split; [exact E|]. split; [exact Ht|].
  split; [rewrite Ht; vm_compute; reflexivity | exact Hms].
Defined.

Lemma routes_leave_other_messages_witness :
  find_message (_id msg2)
    (messages (snd (delete_message hex24 userA (_id msg1) (Some "true")
                      1700000060000 world2)))
  = Some msg2.
Proof.
  destruct (routes_leave_other_messages hex24 ascii_trim show_date userA
              (_id msg2) world2) as (_ & _ & H).
  rewrite H; [reflexivity | discriminate].
Defined.

End QueryExamples.

(** ** From the composer to the socket *)

Section RelayFacts.

Import SocketManager MessageComposer TypingRelay.

Lemma relay_connected (sel : option string) (c : Call)
    (st : SocketService.State) (s : nat) (chat : string) :
  sel = Some chat -> chat <> "" ->
  socket (SocketService.manager st) = Some s ->
  socket_connected (SocketService.manager st) = true ->
  let st' := relay sel c st in
  socket (SocketService.manager st') = Some s
  /\ socket_connected (SocketService.manager st') = true
  /\ effects (SocketService.manager st')
     = effects (SocketService.manager st) ++ frames s chat c.
Proof.
  intros -> Hne Hs Hc. apply String.eqb_neq in Hne.
  destruct c as [| |text file]; simpl;
    unfold handleTyping, handleStopTyping; rewrite ?Hne;
    unfold SocketService.emitTyping, SocketService.emitStopTyping, emit;
    rewrite ?Hs, ?Hc; simpl;
    repeat split; auto; rewrite ?app_nil_r; reflexivity.
Qed.

Lemma relay_offline (sel : option string) (c : Call)
    (st : SocketService.State) :
  socket_connected (SocketService.manager st) = false ->
  let st' := relay sel c st in
  socket_connected (SocketService.manager st') = false
  /\ List.filter is_network (effects (SocketService.manager st'))
     = List.filter is_network (effects (SocketService.manager st)).
Proof.
  intros Hc.
  assert (E : forall event data,
            emit event data (SocketService.manager st)
            = log (ConsoleWarn event) (SocketService.manager st)).
  { intros event data. unfold emit. rewrite Hc.
    destruct (socket (SocketService.manager st)); reflexivity. }
  destruct c as [| |text file]; simpl;
    unfold handleTyping, handleStopTyping;
    destruct sel as [chat|]; try (split; [exact Hc | reflexivity]);
    destruct (String.eqb chat ""); try (split; [exact Hc | reflexivity]);
    unfold SocketService.emitTyping, SocketService.emitStopTyping;
    rewrite E; simpl; (split; [exact Hc|]);
    rewrite List.filter_app; simpl; apply app_nil_r.
Qed.

(** X25.  From the composer to the wire.  While the socket stays
    connected and a chat is selected, the calls the composer makes on
    [onTyping] and [onStopTyping] become, one for one and in order, the
    frames ['user:typing'] and ['user:stop-typing'] carrying the id of
    the selected chat, and nothing else is sent.  With no chat selected
    the calls do nothing.  While the socket is not connected no frame is
    sent: the signals are dropped, not queued. *)
Theorem composer_typing_reaches_wire (sel : option string)
    (cs : list Call) (st : SocketService.State) :
  let st' := relay_all sel cs st in
  (forall chat s,
     sel = Some chat -> chat <> "" ->
     socket (SocketService.manager st) = Some s ->
     socket_connected (SocketService.manager st) = true ->
     effects (SocketService.manager st')
     = effects (SocketService.manager st) ++ flat_map (frames s chat) cs)
  /\ (sel = None \/ sel = Some "" -> st' = st)
  /\ (socket_connected (SocketService.manager st) = false ->
      List.filter is_network (effects (SocketService.manager st'))
      = List.filter is_network (effects (SocketService.manager st))).
Proof.
  intros st'. subst st'. split; [|split].
  - intros chat s Hsel Hne. revert st. unfold relay_all.
    induction cs as [|c rest IH]; intros st Hs Hc; simpl.
    + rewrite app_nil_r. reflexivity.
    + destruct (relay_connected sel c st s chat Hsel Hne Hs Hc)
        as (Hs' & Hc' & He).
      rewrite (IH _ Hs' Hc'), He.
      rewrite <- app_assoc. reflexivity.
  - intros Hsel. unfold relay_all.
    induction cs as [|c rest IH]; simpl; [reflexivity|].
    assert (E : relay sel c st = st).
    { destruct Hsel as [-> | ->]; destruct c; reflexivity. }
    rewrite E. exact IH.
  - revert st. unfold relay_all.
    induction cs as [|c rest IH]; intros st Hc; simpl; [reflexivity|].
    destruct (relay_offline sel c st Hc) as [Hc' He].
    rewrite (IH _ Hc'). exact He.
Qed.

End RelayFacts.

Lemma composer_typing_reaches_wire_witness :
  let st := SocketService.with_manager
              (SocketManager.deliver_connect 1
                 (snd (SocketManager.connect
                         (SocketManager.fresh (Some "jwt")))))
              (SocketService.fresh (Some "jwt")) in
  let cs := MessageComposer.calls
              (MessageComposer.elapse 3000
                 (MessageComposer.handleSend Sample.ascii_trim false
                    (MessageComposer.handleMessageChange "hi"
                       (MessageComposer.initial 0)))) in
  SocketManager.effects
    (SocketService.manager (TypingRelay.relay_all (Some "c1") cs st))
  = SocketManager.effects (SocketService.manager st)
    ++ [SocketManager.SocketEmit 1 "user:typing"
          (Some (SocketManager.ChatPayload "c1"));
        SocketManager.SocketEmit 1 "user:stop-typing"
          (Some (SocketManager.ChatPayload "c1"));
        SocketManager.SocketEmit 1 "user:stop-typing"
          (Some (SocketManager.ChatPayload "c1"))].
Proof.
  intros st cs.
  destruct (composer_typing_reaches_wire (Some "c1") cs st) as (H & _).
  rewrite (H "c1" 1%nat eq_refl); [reflexivity | discriminate | |];
    reflexivity.
Defined.

(** ** The calls on the broadcast layer *)

Section BroadcastPoints.

Import MessagesRoute MessagesQuery.

Variable isValid : string -> bool.
Variable trim : string -> string.
Variable toISOString : Z -> string.
Variable sort_desc : list Message -> list Message.

(** A POST of text alone by a participant succeeds. *)
Lemma post_message_text_succeeds (user chat_id text newId : string)
    (t_create t_last : Z) (c : Chat) (w : World) :
  chat_id <> "" -> isValid chat_id = true ->
  trim text <> "" -> strlen (trim text) <= 5000 ->
  find_chat chat_id (chats w) = Some c -> In user (participants c) ->
  fst (post_message isValid trim toISOString user
         {| rq_chatId := Some chat_id; rq_content := Some text;
            rq_media := None |} newId t_create t_last w)
  = inr (MessageSent
           {| _id := newId; m_chatId := chat_id; m_senderId := user;
              m_content := trim text; m_media := None; m_editedAt := None;
              m_deletedFor := []; m_timestamp := t_create |}).
Proof.
  intros Hne Hv Ht Hlen Hc Hin. unfold post_message. simpl.
  apply String.eqb_neq in Hne. rewrite Hne.
  unfold mbind, M_bind, mret, M_ret, when_, throw. rewrite Hv. simpl.
  apply String.eqb_neq in Ht. rewrite Ht. simpl.
  destruct (Z.ltb_spec 5000 (strlen (trim text))); [lia|]. simpl.
  unfold Chat_findById. simpl. rewrite Hc. simpl.
  apply participant_In in Hin. rewrite Hin. simpl.
  unfold broadcast. simpl. destruct (socketHandler w); reflexivity.
Qed.

(** C9 (as amended).  The calls of the REST message layer on the
    broadcast layer, on a journal of writes and calls.
    - POST: a failed request writes and calls nothing.  A successful one
      creates the message, updates the chat and then, when a socket
      handler is registered, makes the single call
      [broadcastNewMessage {messageId, chatId, senderId, content,
      timestamp}] with the values of the stored message.  A POST of
      non-blank text of at most 5000 characters by a participant of an
      existing chat does succeed.
    - PATCH: a failed request writes and calls nothing.  A successful one
      saves the edit and then, when a handler is registered, makes the
      single call [broadcastEditedMessage {messageId, chatId, content,
      editedAt}].  A valid PATCH by the sender within 15 minutes does
      succeed.
    - DELETE: a failed request writes and calls nothing.  A successful
      hard delete ([forAll=true]) removes the message and then, when a
      handler is registered, makes the single call
      [broadcastDeletedMessage {messageId, chatId}]; by the sender within
      24 hours it does succeed.  A soft delete by a participant succeeds,
      at most saves the message with the caller added to [deletedFor],
      and makes no call.
    - GET writes and calls nothing.
    When [getSocketHandler()] returns no handler, no call is made. *)
Theorem rest_layer_broadcast_points (user : string) (w : World) :
  (forall req newId t_create t_last,
     let res := post_message isValid trim toISOString user req newId
                  t_create t_last w in
     match fst res with
     | inr (MessageSent m) =>
         In m (messages (snd res))
         /\ exists lm,
              new_entries w (snd res)
              = [Created m; ChatUpdated (m_chatId m) lm]
                ++ (if socketHandler w
                    then [Called
                            (broadcastNewMessage
                               {| bn_messageId := _id m;
                                  bn_chatId := m_chatId m;
                                  bn_senderId := m_senderId m;
                                  bn_content := m_content m;
                                  bn_timestamp :=
                                    toISOString (m_timestamp m) |})]
                    else [])
     | inr _ => False
     | inl _ => new_entries w (snd res) = []
     end)
  /\ (forall chat_id text newId t_create t_last c,
        chat_id <> "" -> isValid chat_id = true ->
        trim text <> "" -> strlen (trim text) <= 5000 ->
        find_chat chat_id (chats w) = Some c -> In user (participants c) ->
        exists m,
          fst (post_message isValid trim toISOString user
                 {| rq_chatId := Some chat_id; rq_content := Some text;
                    rq_media := None |} newId t_create t_last w)
          = inr (MessageSent m)
          /\ _id m = newId /\ m_chatId m = chat_id
          /\ m_senderId m = user /\ m_content m = trim text
          /\ m_timestamp m = t_create)
  /\ (forall messageId body_content date_now t_edit,
       let res := patch_message isValid trim toISOString user messageId
                    body_content date_now t_edit w in
       match fst res with
       | inr _ =>
           exists m,
             find_message messageId (messages (snd res)) = Some m
             /\ m_editedAt m = Some t_edit
             /\ new_entries w (snd res)
                = [Saved m]
                  ++ (if socketHandler w
                      then [Called
                              (broadcastEditedMessage
                                 {| be_messageId := _id m;
                                    be_chatId := m_chatId m;
                                    be_content := m_content m;
                                    be_editedAt := toISOString t_edit |})]
                      else [])
       | inl _ => new_entries w (snd res) = []
       end)
  /\ (forall messageId body_content date_now t_edit m,
        passes_validation isValid trim messageId body_content = true ->
        find_message messageId (messages w) = Some m ->
        m_senderId m = user ->
        date_now - m_timestamp m <= fifteenMinutesInMs ->
        exists resp,
          fst (patch_message isValid trim toISOString user messageId
                 body_content date_now t_edit w) = inr resp)
  /\ (forall messageId forAll date_now,
       let res := delete_message isValid user messageId forAll date_now w in
       match fst res with
       | inr _ =>
           exists m,
             find_message messageId (messages w) = Some m
             /\ if parse_forAll forAll
                then find_message messageId (messages (snd res)) = None
                     /\ new_entries w (snd res)
                        = [Deleted messageId]
                          ++ (if socketHandler w
                              then [Called
                                      (broadcastDeletedMessage
                                         {| bd_messageId := messageId;
                                            bd_chatId := m_chatId m |})]
                              else [])
                else exists m',
                       find_message messageId (messages (snd res)) = Some m'
                       /\ In user (m_deletedFor m')
                       /\ (new_entries w (snd res) = []
                           \/ new_entries w (snd res) = [Saved m'])
       | inl _ => new_entries w (snd res) = []
       end)
  /\ (forall messageId forAll date_now m c,
        isValid messageId = true ->
        find_message messageId (messages w) = Some m ->
        find_chat (m_chatId m) (chats w) = Some c ->
        In user (participants c) ->
        (parse_forAll forAll = true ->
         m_senderId m = user
         /\ date_now - m_timestamp m <= twentyFourHoursInMs) ->
        fst (delete_message isValid user messageId forAll date_now w)
        = inr MessageDeletedOk)
  /\ (forall q,
        new_entries w (snd (get_messages isValid sort_desc user q w)) = []).
Proof.
  split; [|split; [|split; [|split; [|split; [|split]]]]].
  - intros req newId t_create t_last res.
    pose proof (post_message_outcome isValid trim toISOString user req
                  newId t_create t_last w) as H.
    fold res in H. unfold post_outcome in H.
    destruct (fst res) as [e|[m| |]]; try contradiction.
    + rewrite H. apply new_entries_same.
    + destruct H as [Hm Hb]. split; [|exact Hb].
      rewrite Hm. apply in_app_iff. right. now left.
  - intros chat_id text newId t_create t_last c Hne Hv Ht Hlen Hc Hin.
    eexists. split.
    + apply (post_message_text_succeeds user chat_id text newId t_create
               t_last c w); assumption.
    + repeat split; reflexivity.
  - intros messageId body_content date_now t_edit res. subst res.
    rewrite patch_message_cases.
    destruct (negb _); simpl; [apply new_entries_same|].
    destruct (find_message messageId (messages w)) as [m|] eqn:Hf; simpl;
      [|apply new_entries_same].
    destruct (nonempty body_content) as [text|]; simpl;
      [|apply new_entries_same].
    destruct (negb _); simpl; [apply new_entries_same|].
    destruct (_ <? _); simpl; [apply new_entries_same|].
    destruct (find_message_In _ _ _ Hf) as [_ Hid].
    exists (edited m (trim text) t_edit).
    split; [|split; [reflexivity|]].
    + rewrite <- Hid. apply find_message_replaced; [reflexivity|].
      rewrite Hid. exact Hf.
    + apply new_entries_app. simpl. rewrite <- app_assoc. reflexivity.
  - intros messageId body_content date_now t_edit m Hv Hf Hs Hage.
    rewrite patch_message_cases, Hv, Hf. simpl.
    unfold passes_validation in Hv.
    destruct (nonempty body_content) as [text|];
      [|rewrite andb_false_r in Hv; discriminate].
    apply String.eqb_eq in Hs. rewrite Hs. simpl.
    destruct (Z.ltb_spec fifteenMinutesInMs (date_now - m_timestamp m));
      [lia|]. eexists. reflexivity.
  - intros messageId forAll date_now res. subst res.
    rewrite delete_message_cases.
    destruct (isValid messageId); simpl; [|apply new_entries_same].
    destruct (find_message messageId (messages w)) as [m|] eqn:Hf; simpl;
      [|apply new_entries_same].
    destruct (find_chat (m_chatId m) (chats w)) as [c|]; simpl;
      [|apply new_entries_same].
    destruct (existsb _ (participants c)); simpl;
      [|apply new_entries_same].
    destruct (find_message_In _ _ _ Hf) as [_ Hid].
    destruct (parse_forAll forAll) eqn:Hall; simpl.
    + destruct (String.eqb (m_senderId m) user); simpl;
        [|apply new_entries_same].
      destruct (_ <? _); simpl; [apply new_entries_same|].
      exists m. split; [reflexivity|].
      split; [apply find_message_deleted|].
      apply new_entries_app. simpl. rewrite <- app_assoc. reflexivity.
    + destruct (existsb (String.eqb user) (m_deletedFor m)) eqn:Hd; simpl.
      * exists m. split; [reflexivity|].
        exists m. split; [exact Hf|].
        split; [apply deleted_for_In; exact Hd|].
        left. apply new_entries_same.
      * exists m. split; [reflexivity|].
        exists (soft_deleted user m). split; [|split].
        -- rewrite <- Hid. apply find_message_replaced; [reflexivity|].
           rewrite Hid. exact Hf.
        -- simpl. apply in_app_iff. right. now left.
        -- right. apply new_entries_app. reflexivity.
  - intros messageId forAll date_now m c Hv Hf Hc Hin Hall.
    rewrite delete_message_cases, Hv, Hf, Hc. simpl.
    apply participant_In in Hin. rewrite Hin. simpl.
    destruct (parse_forAll forAll).
    + destruct (Hall eq_refl) as [Hs Hage].
      apply String.eqb_eq in Hs. rewrite Hs. simpl.
      destruct (Z.ltb_spec twentyFourHoursInMs (date_now - m_timestamp m));
        [lia | reflexivity].
    + destruct (existsb _ (m_deletedFor m)); reflexivity.
  - intros q. rewrite get_messages_readonly. apply new_entries_same.
Qed.

End BroadcastPoints.

Lemma rest_layer_broadcast_points_witness :
  let w := Sample.world1 true in
  let res := MessagesRoute.post_message Sample.hex24 Sample.ascii_trim
               Sample.show_date Sample.userA
               {| MessagesRoute.rq_chatId :=
                    Some (MessagesRoute.c_id Sample.chat1);
                  MessagesRoute.rq_content := Some " see you ";
                  MessagesRoute.rq_media := None |}
               "65a4f0c2e1b2c3d4e5f60003" 1700000100000 1700000100001 w in
  exists m,
    fst res = inr (MessagesRoute.MessageSent m)
    /\ MessagesRoute.m_content m = "see you"
    /\ MessagesRoute.new_broadcasts w (snd res)
       = [MessagesRoute.broadcastNewMessage
            {| MessagesRoute.bn_messageId := "65a4f0c2e1b2c3d4e5f60003";
               MessagesRoute.bn_chatId := MessagesRoute.c_id Sample.chat1;
               MessagesRoute.bn_senderId := Sample.userA;
               MessagesRoute.bn_content := "see you";
               MessagesRoute.bn_timestamp :=
                 Sample.show_date 1700000100000 |}].
Proof.
  intros w res.
  destruct (rest_layer_broadcast_points Sample.hex24 Sample.ascii_trim
              Sample.show_date MessagesQuery.newest_first Sample.userA w)
    as (Hpost & Hreach & _).
  destruct (Hreach (MessagesRoute.c_id Sample.chat1) " see you "
              "65a4f0c2e1b2c3d4e5f60003" 1700000100000 1700000100001
              Sample.chat1)
    as (m & Hm & Hid & Hchat & Hsender & Hcontent & Htime).
  - discriminate.
  - reflexivity.
  - discriminate.
  - vm_compute. discriminate.
  - reflexivity.
  - simpl. tauto.
  - exists m. fold res in Hm. split; [exact Hm|].
    split; [rewrite Hcontent; reflexivity|].
    specialize (Hpost
      {| MessagesRoute.rq_chatId := Some (MessagesRoute.c_id Sample.chat1);
         MessagesRoute.rq_content := Some " see you ";
         MessagesRoute.rq_media := None |}
      "65a4f0c2e1b2c3d4e5f60003" 1700000100000 1700000100001).
    cbv zeta in Hpost. fold res in Hpost. rewrite Hm in Hpost.
    destruct Hpost as [_ [lm Hent]].
    unfold MessagesRoute.new_broadcasts. rewrite Hent.
    rewrite Hid, Hchat, Hsender, Hcontent, Htime. reflexivity.
Defined.

(** C9, counterexample.  With no socket handler registered, a POST, a
    PATCH and a hard DELETE succeed and write, and none of them makes a
    call: the message is created, edited and removed without any
    broadcast. *)
Lemma routes_without_handler_make_no_call :
  let w := Sample.world1 false in
  (let res := MessagesRoute.post_message Sample.hex24 Sample.ascii_trim
                Sample.show_date Sample.userA
                {| MessagesRoute.rq_chatId :=
                     Some (MessagesRoute.c_id Sample.chat1);
                   MessagesRoute.rq_content := Some "see you";
                   MessagesRoute.rq_media := None |}
                "65a4f0c2e1b2c3d4e5f60003" 1700000100000 1700000100001 w in
   (exists m, fst res = inr (MessagesRoute.MessageSent m)
              /\ MessagesRoute.messages (snd res) = [Sample.msg1; m])
   /\ MessagesRoute.new_broadcasts w (snd res) = [])
  /\ (let res := MessagesRoute.patch_message Sample.hex24 Sample.ascii_trim
                   Sample.show_date Sample.userA
                   (MessagesRoute._id Sample.msg1) (Some "hi!")
                   1700000060000 1700000060001 w in
      fst res = inr (MessagesRoute.MessageUpdated
                       (MessagesRoute._id Sample.msg1) "hi!"
                       (Some 1700000060001))
      /\ MessagesRoute.new_broadcasts w (snd res) = [])
  /\ (let res := MessagesRoute.delete_message Sample.hex24 Sample.userA
                   (MessagesRoute._id Sample.msg1) (Some "true")
                   1700000060000 w in
      fst res = inr MessagesRoute.MessageDeletedOk
      /\ MessagesRoute.messages (snd res) = []
      /\ MessagesRoute.new_broadcasts w (snd res) = []).
Proof.
  intros w. split; [|split].
  - split; [eexists; split; vm_compute; reflexivity|].
    vm_compute. reflexivity.
  - split; vm_compute; reflexivity.
  - repeat split; vm_compute; reflexivity.
Qed.
